(** * Physics coordination subsystem of three-js-base

    A shallow embedding of the command/event protocol between the
    Coordinator ([class PhysicsWorld], [src/physics/PhysicsWorld.ts]) and the
    Simulation Worker ([class PhysicsWorker], [workers/physics.worker.ts]),
    with the message types of [src/physics/types.ts].

    Conventions of the embedding.
    - A JavaScript [number] that carries a quantity is a rational [Q]
      (exact arithmetic: no NaN, no infinities, no rounding of doubles);
      the only rounding that the code itself introduces, the store into a
      [Float32Array], is kept as the abstract function [fround].
    - Body identifiers are integers [Z].
    - A JavaScript [Map] is an insertion-ordered association list with
      unique keys ([JSMap]); the Coordinator's callback table, whose order is
      never observed, is a [gmap].
    - Objects that are shared by reference (cannon bodies, three.js
      objects, array buffers) live in explicit stores and are named by
      their index.
    - The cannon-es engine is a black box behind the class [CannonEngine];
      [throw] is the [Throw] outcome. *)

From Stdlib Require Import QArith Qround ZArith Lia.
From stdpp Require Import base option list strings gmap.

Local Open Scope Z_scope.
Local Open Scope nat_scope.

(** ** JavaScript [Map]: insertion order, unique keys *)

Module JSMap.
Section jsmap.
Context {K V : Type} `{EqDecision K}.

Implicit Type m : list (K * V).

Definition empty : list (K * V) := [].

Fixpoint get m (k : K) : option V :=
  match m with
  | [] => None
  | (k', v) :: m' => if decide (k' = k) then Some v else get m' k
  end.

(** [Map.prototype.set]: an existing key keeps its place and gets the new
    value, a new key goes to the end. *)
Fixpoint set m (k : K) (v : V) : list (K * V) :=
  match m with
  | [] => [(k, v)]
  | (k', v') :: m' =>
      if decide (k' = k) then (k', v) :: m' else (k', v') :: set m' k v
  end.

Fixpoint delete m (k : K) : list (K * V) :=
  match m with
  | [] => []
  | (k', v) :: m' =>
      if decide (k' = k) then delete m' k else (k', v) :: delete m' k
  end.

Definition size m : nat := length m.

Definition keys m : list K := m.*1.

(** [forEach] visits the values in insertion order. *)
Definition values m : list V := m.*2.
End jsmap.

(** The type of a [Map<K, V>]. *)
Abbreviation t K V := (list (K * V)) (only parsing).
End JSMap.

(** ** Value types *)

Record Vec3 := mkVec3 { vx : Q; vy : Q; vz : Q }.
Record Quaternion := mkQuat { qx : Q; qy : Q; qz : Q; qw : Q }.

Definition Vec3_zero : Vec3 := mkVec3 0 0 0.
Definition Quaternion_identity : Quaternion := mkQuat 0 0 0 1.

(** A JavaScript number whose value a branch of the program tests: [NaN], an
  infinity, or a rational (any other double). *)
Inductive Number :=
| NaN
| PosInfinity
| NegInfinity
| Num (q : Q).

(** [x > 0] and [x < 0]; a comparison with [NaN] is false. *)
Definition above_zero (x : Number) : bool :=
match x with
| Num q => negb (Qle_bool q 0)
| PosInfinity => true
| NaN | NegInfinity => false
end.

Definition below_zero (x : Number) : bool :=
match x with
| Num q => negb (Qle_bool 0 q)
| NegInfinity => true
| NaN | PosInfinity => false
end.

(** [src/physics/types.ts]: [PhysicsShapeType].  The enum is a string at run
  time and the Worker's [switch] has a [default] branch, hence [OTHER]. *)
Inductive PhysicsShapeType :=
| BOX
| SPHERE
| PLANE
| OTHER (tag : string).

Record MaterialOptions := mkMaterial { friction : Q; restitution : Q }.

(** [PhysicsObjectOptions]; an optional field is an [option]. *)
Record PhysicsObjectOptions := mkOptions {
o_type : PhysicsShapeType;
o_mass : Q;
o_position : Vec3;
o_quaternion : option Quaternion;
o_size : option Vec3;
o_radius : option Number;
o_material : option MaterialOptions;
o_linearDamping : option Q;
o_angularDamping : option Q;
o_fixedRotation : option bool;
}.

(** [PhysicsBodyProperties], the response to a query. *)
Record PhysicsBodyProperties := mkProps {
p_mass : Q;
p_position : Vec3;
p_quaternion : Quaternion;
p_velocity : Vec3;
p_angularVelocity : Vec3;
p_fixedRotation : bool;
p_sleepState : Z;
p_requestId : string;
}.

(** A [Float32Array] together with the identity of its [ArrayBuffer]. *)
Record Float32Array := mkF32 { buffer : nat; data : list Q }.

Definition f32_length (a : Float32Array) : nat := length (data a).

(** [PhysicsWorkerIncomingMessage]; [MUnknown] is a message whose [type] is
  none of the known tags. *)
Inductive PhysicsWorkerIncomingMessage :=
| MInit (gravity : Vec3) (iterations : option Z)
| MAddBody (id : Z) (options : PhysicsObjectOptions)
| MRemoveBody (id : Z)
| MUpdate (dt : Q)
| MApplyForce (id : Z) (force : Vec3) (worldPoint : option Vec3)
| MApplyImpulse (id : Z) (impulse : Vec3) (worldPoint : option Vec3)
| MSetPosition (id : Z) (position : Vec3)
| MSetVelocity (id : Z) (velocity : Vec3)
| MGetBodyProps (id : Z) (requestId : string)
| MUnknown (tag : string).

(** [PhysicsWorkerOutgoingMessage]; [EOther] is what the Coordinator's
  [default] branch receives. *)
Inductive PhysicsWorkerOutgoingMessage :=
| ESync (positions quaternions : Float32Array)
| EBodyProps (props : PhysicsBodyProperties)
| EOther (tag : string).

(** ** The cannon-es objects the Worker touches *)

Inductive Shape :=
| ShBox (halfExtents : Vec3)
| ShSphere (radius : Number)
| ShPlane.

Record Body := mkBody {
mass : Q;
position : Vec3;
previousPosition : Vec3;
interpolatedPosition : Vec3;
quaternion : Quaternion;
velocity : Vec3;
angularVelocity : Vec3;
material : option MaterialOptions;
linearDamping : Q;
angularDamping : Q;
fixedRotation : bool;
sleepState : Z;
shapes : list Shape;
}.

(** A [CANNON.World]: its settings, the bodies added to it, by reference
  into the body store, and the number of time steps taken. *)
Record World := mkWorld {
gravity : Vec3;
solver_iterations : Z;
allowSleep : bool;
wbodies : list nat;
stepnumber : nat;
}.

(** The engine as a black box.
  - [shape_accepted]: whether the shape constructor returns (it may throw
    on parameters it rejects).
  - [body_step w store dt r b]: the state of the body at reference [r] after
    [w.step(dt)], which may depend on every body of the store.
  - [body_applyForce], [body_applyImpulse]: the body after the call. *)
Class CannonEngine := {
shape_accepted : Shape → bool;
body_step : World → list Body → Q → nat → Body → Body;
body_applyForce : Body → Vec3 → Vec3 → Body;
body_applyImpulse : Body → Vec3 → Vec3 → Body;
}.

(** The shape constructors of cannon-es itself: [Box] and [Plane] return
  whatever they are given, [Sphere] throws exactly when [radius < 0]. *)
Class CannonShapes `{CannonEngine} : Prop := {
Box_returns : ∀ halfExtents, shape_accepted (ShBox halfExtents) = true;
Sphere_returns : ∀ radius,
  shape_accepted (ShSphere radius) = negb (below_zero radius);
Plane_returns : shape_accepted ShPlane = true;
}.

(** The rounding of a double to the nearest single on a store into a
  [Float32Array]. *)
Class Float32 := { fround : Q → Q }.

Inductive Error :=
| ConfigError (msg : string)
| EngineError
| TypeError
| RangeError.


(** A call that returns a value or throws. *)
Inductive Result (A : Type) :=
| Ok (a : A)
| Throw (e : Error).
Arguments Ok {A} a.
Arguments Throw {A} e.

#[export] Instance Result_bind : MBind Result := λ A B f r,
match r with
| Ok a => f a
| Throw e => Throw e
end.

(** ** The Simulation Worker ([class PhysicsWorker]) *)

Module PhysicsWorker.

(** The fields of [class PhysicsWorker], the store of the cannon bodies it
    has constructed, and the allocator of array buffers ([next_buffer] is
    the identity the next [new Float32Array] gets). *)
Record t := mk {
  world : option World;
  bodies : JSMap.t Z nat;
  positions : Float32Array;
  quaternions : Float32Array;
  store : list Body;
  next_buffer : nat;
}.

(** What a method leaves behind when it returns: the state and the
    messages it posted. *)
Definition Outcome := Result (t * list PhysicsWorkerOutgoingMessage).

(** [new PhysicsWorker()]: no world yet, an empty registry, two empty
    arrays. *)
Definition new : t :=
  {| world := None;
     bodies := JSMap.empty;
     positions := mkF32 0 [];
     quaternions := mkF32 1 [];
     store := [];
     next_buffer := 2 |}.

(** [this.bodies.get(id)] followed by the use of the body. *)
Definition body_of (st : t) (id : Z) : option (nat * Body) :=
  r ← JSMap.get (bodies st) id;
  b ← store st !! r;
  Some (r, b).

Definition set_body (st : t) (r : nat) (b : Body) : t :=
  {| world := world st; bodies := bodies st;
     positions := positions st; quaternions := quaternions st;
     store := <[r := b]> (store st); next_buffer := next_buffer st |}.

(** JavaScript truthiness of an optional number: [undefined], [NaN] and [0]
    are falsy, every other number is truthy. *)
Definition falsy (x : option Number) : bool :=
  match x with
  | None | Some NaN => true
  | Some (Num q) => Qeq_bool q 0
  | Some PosInfinity | Some NegInfinity => false
  end.

(** [new Float32Array(n)]: [n] zeros. *)
Definition zeros (n : nat) : list Q := replicate n 0%Q.

(** [target.set(source)]: the source is copied to the start of the
    target; a source longer than the target is a [RangeError]. *)
Definition typed_set (target source : list Q) : Result (list Q) :=
  if decide (length source ≤ length target)
  then Ok (source ++ drop (length source) target)
  else Throw RangeError.

(** [a[i] = x] on a [Float32Array]: the value is rounded to single
    precision; an index past the end is ignored. *)
Definition f32_write `{Float32} (a : list Q) (i : nat) (x : Q) : list Q :=
  <[i := fround x]> a.

Section methods.
Context `{CannonEngine} `{Float32}.

(** The shape constructors of the engine. *)
Definition new_Shape (s : Shape) : Result Shape :=
  if shape_accepted s then Ok s else Throw EngineError.

(** [new CANNON.Body({...})], [addShape] and the optional
    [quaternion.set] of [createBody]. *)
Definition new_Body (options : PhysicsObjectOptions) (shape : Shape) : Body :=
  {| mass := o_mass options;
     position := o_position options;
     previousPosition := o_position options;
     interpolatedPosition := o_position options;
     quaternion := default Quaternion_identity (o_quaternion options);
     velocity := Vec3_zero;
     angularVelocity := Vec3_zero;
     material := o_material options;
     linearDamping := default (1 # 100)%Q (o_linearDamping options);
     angularDamping := default (1 # 100)%Q (o_angularDamping options);
     fixedRotation := default false (o_fixedRotation options);
     sleepState := 0%Z;
     shapes := [shape] |}.

Definition World_new (g : Vec3) (iterations : Z) : World :=
  {| gravity := g; solver_iterations := iterations; allowSleep := true;
     wbodies := []; stepnumber := 0 |}.

Definition World_addBody (w : World) (r : nat) : World :=
  {| gravity := gravity w; solver_iterations := solver_iterations w;
     allowSleep := allowSleep w; wbodies := wbodies w ++ [r];
     stepnumber := stepnumber w |}.

Definition World_removeBody (w : World) (r : nat) : World :=
  {| gravity := gravity w; solver_iterations := solver_iterations w;
     allowSleep := allowSleep w;
     wbodies := filter (λ r', r' ≠ r) (wbodies w);
     stepnumber := stepnumber w |}.

(** [world.step(dt)]: one time step; every body object is updated in
    place. *)
Definition World_step (w : World) (s : list Body) (dt : Q) : World * list Body :=
  ({| gravity := gravity w; solver_iterations := solver_iterations w;
      allowSleep := allowSleep w; wbodies := wbodies w;
      stepnumber := S (stepnumber w) |},
   imap (body_step w s dt) s).

(** [init] *)
Definition init (st : t) (g : Vec3) (iterations : option Z) : Outcome :=
  Ok ({| world := Some (World_new g (default 10%Z iterations));
         bodies := bodies st; positions := positions st;
         quaternions := quaternions st; store := store st;
         next_buffer := next_buffer st |}, []).

(** [resizeArrays] *)
Definition resizeArrays (st : t) : Result t :=
  let size := JSMap.size (bodies st) in
  st1 ← (if decide (f32_length (positions st) < size * 3) then
           d ← typed_set (zeros (size * 3)) (data (positions st));
           Ok {| world := world st; bodies := bodies st;
                 positions := mkF32 (next_buffer st) d;
                 quaternions := quaternions st; store := store st;
                 next_buffer := S (next_buffer st) |}
         else Ok st);
  if decide (f32_length (quaternions st1) < size * 4) then
    d ← typed_set (zeros (size * 4)) (data (quaternions st1));
    Ok {| world := world st1; bodies := bodies st1;
          positions := positions st1;
          quaternions := mkF32 (next_buffer st1) d; store := store st1;
          next_buffer := S (next_buffer st1) |}
  else Ok st1.

(** The [switch] of [createBody] that builds the shape. *)
Definition make_shape (options : PhysicsObjectOptions) : Result Shape :=
  match o_type options with
  | BOX =>
      match o_size options with
      | None => Throw (ConfigError "Box shape requires size")
      | Some size =>
          new_Shape (ShBox (mkVec3 (vx size / 2) (vy size / 2) (vz size / 2)))
      end
  | SPHERE =>
      if falsy (o_radius options)
      then Throw (ConfigError "Sphere shape requires radius")
      else new_Shape (ShSphere (default (Num 0) (o_radius options)))
  | PLANE => new_Shape ShPlane
  | OTHER tag => Throw (ConfigError ("Unsupported shape type: " +:+ tag))
  end.

(** [createBody] *)
Definition createBody (st : t) (id : Z) (options : PhysicsObjectOptions)
  : Outcome :=
  shape ← make_shape options;
  let body := new_Body options shape in
  match world st with
  | None => Throw TypeError
  | Some w =>
      let r := length (store st) in
      st' ← resizeArrays
              {| world := Some (World_addBody w r);
                 bodies := JSMap.set (bodies st) id r;
                 positions := positions st; quaternions := quaternions st;
                 store := store st ++ [body];
                 next_buffer := next_buffer st |};
      Ok (st', [])
  end.

(** [removeBody] *)
Definition removeBody (st : t) (id : Z) : Outcome :=
  match JSMap.get (bodies st) id with
  | Some r =>
      match world st with
      | None => Throw TypeError
      | Some w =>
          Ok ({| world := Some (World_removeBody w r);
                 bodies := JSMap.delete (bodies st) id;
                 positions := positions st; quaternions := quaternions st;
                 store := store st; next_buffer := next_buffer st |}, [])
      end
  | None => Ok (st, [])
  end.

(** The body of the [forEach] of [update], for the body at reference [r]
    and the running index [i]. *)
Definition write_body (s : list Body) (r i : nat) (pq : list Q * list Q)
  : list Q * list Q :=
  match s !! r with
  | Some body =>
      let p := position body in
      let q := quaternion body in
      (f32_write (f32_write (f32_write pq.1 (i * 3) (vx p))
                    (i * 3 + 1) (vy p)) (i * 3 + 2) (vz p),
       f32_write (f32_write (f32_write (f32_write pq.2 (i * 4) (qx q))
                    (i * 4 + 1) (qy q)) (i * 4 + 2) (qz q))
         (i * 4 + 3) (qw q))
  | None => pq
  end.

(** [this.bodies.forEach(...)] of [update], from index [i] on. *)
Fixpoint write_bodies (s : list Body) (refs : list nat) (i : nat)
    (pq : list Q * list Q) : list Q * list Q :=
  match refs with
  | [] => pq
  | r :: refs' => write_bodies s refs' (S i) (write_body s r i pq)
  end.

(** [sync]: the two arrays are posted and their buffers transferred; two
    new arrays replace them. *)
Definition sync (st : t) : Outcome :=
  let message := ESync (positions st) (quaternions st) in
  let size := JSMap.size (bodies st) in
  Ok ({| world := world st; bodies := bodies st;
         positions := mkF32 (next_buffer st) (zeros (size * 3));
         quaternions := mkF32 (S (next_buffer st)) (zeros (size * 4));
         store := store st; next_buffer := S (S (next_buffer st)) |},
      [message]).

(** [update] *)
Definition update (st : t) (dt : Q) : Outcome :=
  match world st with
  | None => Throw TypeError
  | Some w =>
      let '(w', s') := World_step w (store st) dt in
      let '(p, q) := write_bodies s' (JSMap.values (bodies st)) 0
                       (data (positions st), data (quaternions st)) in
      sync {| world := Some w'; bodies := bodies st;
              positions := mkF32 (buffer (positions st)) p;
              quaternions := mkF32 (buffer (quaternions st)) q;
              store := s'; next_buffer := next_buffer st |}
  end.

(** [applyForce] *)
Definition applyForce (st : t) (id : Z) (force : Vec3)
    (worldPoint : option Vec3) : Outcome :=
  match body_of st id with
  | Some (r, body) =>
      Ok (set_body st r
            (body_applyForce body force (default (position body) worldPoint)),
          [])
  | None => Ok (st, [])
  end.

(** [applyImpulse] *)
Definition applyImpulse (st : t) (id : Z) (impulse : Vec3)
    (worldPoint : option Vec3) : Outcome :=
  match body_of st id with
  | Some (r, body) =>
      Ok (set_body st r
            (body_applyImpulse body impulse
               (default (position body) worldPoint)),
          [])
  | None => Ok (st, [])
  end.

(** [setPosition] *)
Definition setPosition (st : t) (id : Z) (p : Vec3) : Outcome :=
  match body_of st id with
  | Some (r, body) =>
      Ok (set_body st r
            {| mass := mass body;
               position := p;
               previousPosition := p;
               interpolatedPosition := p;
               quaternion := quaternion body;
               velocity := velocity body;
               angularVelocity := angularVelocity body;
               material := material body;
               linearDamping := linearDamping body;
               angularDamping := angularDamping body;
               fixedRotation := fixedRotation body;
               sleepState := sleepState body;
               shapes := shapes body |},
          [])
  | None => Ok (st, [])
  end.

(** [setVelocity] *)
Definition setVelocity (st : t) (id : Z) (v : Vec3) : Outcome :=
  match body_of st id with
  | Some (r, body) =>
      Ok (set_body st r
            {| mass := mass body;
               position := position body;
               previousPosition := previousPosition body;
               interpolatedPosition := interpolatedPosition body;
               quaternion := quaternion body;
               velocity := v;
               angularVelocity := angularVelocity body;
               material := material body;
               linearDamping := linearDamping body;
               angularDamping := angularDamping body;
               fixedRotation := fixedRotation body;
               sleepState := sleepState body;
               shapes := shapes body |},
          [])
  | None => Ok (st, [])
  end.

(** [getBodyProps]; the [console.warn] of the unknown id is not a message. *)
Definition getBodyProps (st : t) (id : Z) (requestId : string) : Outcome :=
  match body_of st id with
  | None => Ok (st, [])
  | Some (_, body) =>
      let props :=
        {| p_mass := mass body;
           p_position := position body;
           p_quaternion := quaternion body;
           p_velocity := velocity body;
           p_angularVelocity := angularVelocity body;
           p_fixedRotation := fixedRotation body;
           p_sleepState := sleepState body;
           p_requestId := requestId |} in
      Ok (st, [EBodyProps props])
  end.

(** [handleMessage]; the [default] branch only logs. *)
Definition handleMessage (st : t) (message : PhysicsWorkerIncomingMessage)
  : Outcome :=
  match message with
  | MInit g iterations => init st g iterations
  | MAddBody id options => createBody st id options
  | MRemoveBody id => removeBody st id
  | MUpdate dt => update st dt
  | MApplyForce id force worldPoint => applyForce st id force worldPoint
  | MApplyImpulse id impulse worldPoint =>
      applyImpulse st id impulse worldPoint
  | MSetPosition id p => setPosition st id p
  | MSetVelocity id v => setVelocity st id v
  | MGetBodyProps id requestId => getBodyProps st id requestId
  | MUnknown _ => Ok (st, [])
  end.

(** One message taken from the queue.  Every [throw] of the handler
    precedes its first assignment to a field, so a handler that throws
    leaves the state as it was. *)
Definition deliver (st : t) (message : PhysicsWorkerIncomingMessage)
  : t * list PhysicsWorkerOutgoingMessage :=
  match handleMessage st message with
  | Ok r => r
  | Throw _ => (st, [])
  end.

(** The messages of the queue in order, and everything posted meanwhile. *)
Fixpoint run (st : t) (messages : list PhysicsWorkerIncomingMessage)
  : t * list PhysicsWorkerOutgoingMessage :=
  match messages with
  | [] => (st, [])
  | m :: rest =>
      let '(st1, out1) := deliver st m in
      let '(st2, out2) := run st1 rest in
      (st2, out1 ++ out2)
  end.
End methods.
End PhysicsWorker.

(** ** The three.js objects the Coordinator touches *)

Module THREE.

(** What [Vector3.set] and [Quaternion.set] store: a number, or [undefined]
    ([None]) when the argument was read past the end of an array. *)
Definition component := option Q.

Record Vector3 := mkVector3 { x : component; y : component; z : component }.

Record Quaternion := mkQuaternion {
  _x : component; _y : component; _z : component; _w : component;
}.

Record Object3D := mkObject3D { position : Vector3; quaternion : Quaternion }.

End THREE.

(** ** The Coordinator ([src/physics/PhysicsWorld.ts]) *)

Module PhysicsWorld.

(** The fields of [class PhysicsWorld] that the protocol uses.  A registered
    object is a reference into the store of three.js objects, which the
    scene and the callers share with the Coordinator; a callback of
    [bodyPropsCallbacks] is the [resolve] of a promise, named by the index of
    the promise in [promises], where [None] is a promise still pending. *)
Record t := mk {
  objects : JSMap.t Z nat;
  nextBodyId : Z;
  lastUpdateTime : Q;
  bodyPropsCallbacks : gmap string nat;
  promises : list (option PhysicsBodyProperties);
}.

(** What a method leaves behind: the state and the messages posted to the
    Worker. *)
Definition Posted := (t * list PhysicsWorkerIncomingMessage)%type.

(** The constructor: the [INIT] message is posted at once. *)
Definition new : Posted :=
  ({| objects := JSMap.empty; nextBodyId := 1; lastUpdateTime := 0;
      bodyPropsCallbacks := ∅; promises := [] |},
   [MInit (mkVec3 0 (- (982 # 100)) 0) (Some 10%Z)]).

(** [addObject]; the identifier returned is the third component. *)
Definition addObject (pw : t) (object : nat) (options : PhysicsObjectOptions)
  : Posted * Z :=
  let id := nextBodyId pw in
  ({| objects := JSMap.set (objects pw) id object;
      nextBodyId := (id + 1)%Z;
      lastUpdateTime := lastUpdateTime pw;
      bodyPropsCallbacks := bodyPropsCallbacks pw;
      promises := promises pw |},
   [MAddBody id options],
   id).

(** [removeObject] *)
Definition removeObject (pw : t) (id : Z) : Posted :=
  ({| objects := JSMap.delete (objects pw) id;
      nextBodyId := nextBodyId pw;
      lastUpdateTime := lastUpdateTime pw;
      bodyPropsCallbacks := bodyPropsCallbacks pw;
      promises := promises pw |},
   [MRemoveBody id]).

(** [applyForce], [applyImpulse], [setPosition], [setVelocity]: the command
    is forwarded. *)
Definition applyForce (pw : t) (id : Z) (force : Vec3)
    (worldPoint : option Vec3) : Posted :=
  (pw, [MApplyForce id force worldPoint]).

Definition applyImpulse (pw : t) (id : Z) (impulse : Vec3)
    (worldPoint : option Vec3) : Posted :=
  (pw, [MApplyImpulse id impulse worldPoint]).

Definition setPosition (pw : t) (id : Z) (p : Vec3) : Posted :=
  (pw, [MSetPosition id p]).

Definition setVelocity (pw : t) (id : Z) (v : Vec3) : Posted :=
  (pw, [MSetVelocity id v]).

(** The [dt] that [update] computes from the two clock readings, both in
    milliseconds. *)
Definition capped_dt (now last : Q) : Q :=
  let dt := ((now - last) / 1000)%Q in
  if negb (Qle_bool dt (1 / 30)) then (1 / 30)%Q else dt.

(** [update]; [now] is what [performance.now()] returns. *)
Definition update (pw : t) (now : Q) : Posted :=
  let dt := capped_dt now (lastUpdateTime pw) in
  ({| objects := objects pw;
      nextBodyId := nextBodyId pw;
      lastUpdateTime := now;
      bodyPropsCallbacks := bodyPropsCallbacks pw;
      promises := promises pw |},
   [MUpdate dt]).

(** The body of the [forEach] of [updateObjects], for the object at
    reference [o] and the running index [i]. *)
Definition update_object (positions quaternions : list Q)
    (scene : list THREE.Object3D) (o i : nat) : list THREE.Object3D :=
  if decide (i * 3 < length positions ∧ i * 4 < length quaternions) then
    <[o := THREE.mkObject3D
             (THREE.mkVector3 (positions !! (i * 3)) (positions !! (i * 3 + 1))
                (positions !! (i * 3 + 2)))
             (THREE.mkQuaternion (quaternions !! (i * 4))
                (quaternions !! (i * 4 + 1)) (quaternions !! (i * 4 + 2))
                (quaternions !! (i * 4 + 3)))]> scene
  else scene.

(** [this.objects.forEach(...)] of [updateObjects], from index [i] on. *)
Fixpoint update_from (positions quaternions : list Q) (refs : list nat)
    (i : nat) (scene : list THREE.Object3D) : list THREE.Object3D :=
  match refs with
  | [] => scene
  | o :: refs' =>
      update_from positions quaternions refs' (S i)
        (update_object positions quaternions scene o i)
  end.

(** [updateObjects] *)
Definition updateObjects (pw : t) (positions quaternions : Float32Array)
    (scene : list THREE.Object3D) : list THREE.Object3D :=
  update_from (data positions) (data quaternions) (JSMap.values (objects pw))
    0 scene.

(** [handleMessage]; the [default] branch only logs. *)
Definition handleMessage (pw : t) (scene : list THREE.Object3D)
    (message : PhysicsWorkerOutgoingMessage) : t * list THREE.Object3D :=
  match message with
  | ESync positions quaternions =>
      (pw, updateObjects pw positions quaternions scene)
  | EBodyProps props =>
      match bodyPropsCallbacks pw !! p_requestId props with
      | Some callback =>
          ({| objects := objects pw;
              nextBodyId := nextBodyId pw;
              lastUpdateTime := lastUpdateTime pw;
              bodyPropsCallbacks :=
                delete (p_requestId props) (bodyPropsCallbacks pw);
              promises := <[callback := Some props]> (promises pw) |},
           scene)
      | None => (pw, scene)
      end
  | EOther _ => (pw, scene)
  end.

(** [getBodyProperties]; [requestId] is what [crypto.randomUUID()] returns,
    and the promise returned is the third component. *)
Definition getBodyProperties (pw : t) (id : Z) (requestId : string)
  : Posted * nat :=
  let promise := length (promises pw) in
  ({| objects := objects pw;
      nextBodyId := nextBodyId pw;
      lastUpdateTime := lastUpdateTime pw;
      bodyPropsCallbacks := <[requestId := promise]> (bodyPropsCallbacks pw);
      promises := promises pw ++ [None] |},
   [MGetBodyProps id requestId],
   promise).

End PhysicsWorld.

(** ** The callers of the Coordinator and the two contexts together *)

Module Protocol.

(** A call of the public interface of the Coordinator, with what the
    environment supplies to it (the clock reading, the random identifier). *)
Inductive Call :=
| AddObject (object : nat) (options : PhysicsObjectOptions)
| RemoveObject (id : Z)
| ApplyForce (id : Z) (force : Vec3) (worldPoint : option Vec3)
| ApplyImpulse (id : Z) (impulse : Vec3) (worldPoint : option Vec3)
| SetPosition (id : Z) (p : Vec3)
| SetVelocity (id : Z) (v : Vec3)
| Update (now : Q)
| GetBodyProperties (id : Z) (requestId : string).

Definition invoke (pw : PhysicsWorld.t) (c : Call) : PhysicsWorld.Posted :=
  match c with
  | AddObject object options => (PhysicsWorld.addObject pw object options).1
  | RemoveObject id => PhysicsWorld.removeObject pw id
  | ApplyForce id force worldPoint =>
      PhysicsWorld.applyForce pw id force worldPoint
  | ApplyImpulse id impulse worldPoint =>
      PhysicsWorld.applyImpulse pw id impulse worldPoint
  | SetPosition id p => PhysicsWorld.setPosition pw id p
  | SetVelocity id v => PhysicsWorld.setVelocity pw id v
  | Update now => PhysicsWorld.update pw now
  | GetBodyProperties id requestId =>
      (PhysicsWorld.getBodyProperties pw id requestId).1
  end.

(** What happens in the Coordinator's context, one event-loop task at a
    time: a call from the application, or a message from the Worker. *)
Inductive Action :=
| Invoke (c : Call)
| Receive (e : PhysicsWorkerOutgoingMessage).

Definition act (ps : PhysicsWorld.t * list THREE.Object3D) (a : Action)
  : PhysicsWorld.t * list THREE.Object3D * list PhysicsWorkerIncomingMessage :=
  match a with
  | Invoke c => let '(pw, out) := invoke ps.1 c in (pw, ps.2, out)
  | Receive e => (PhysicsWorld.handleMessage ps.1 ps.2 e, [])
  end.

(** The Coordinator's context over a list of tasks: its final state, the
    objects, and the channel to the Worker in send order. *)
Fixpoint coordinator (ps : PhysicsWorld.t * list THREE.Object3D)
    (actions : list Action)
  : PhysicsWorld.t * list THREE.Object3D * list PhysicsWorkerIncomingMessage :=
  match actions with
  | [] => (ps, [])
  | a :: rest =>
      let '(ps1, out1) := act ps a in
      let '(ps2, out2) := coordinator ps1 rest in
      (ps2, out1 ++ out2)
  end.

Definition received (actions : list Action)
  : list PhysicsWorkerOutgoingMessage :=
  omap (λ a, match a with Receive e => Some e | Invoke _ => None end) actions.

End Protocol.

(** ** The vocabulary of the statements: shapes, frames, states, sessions *)

Module Spec.

Definition positive (q : Q) : bool := negb (Qle_bool q 0).

(** The shape invariant of the data model: a box has a size with three
    positive components, a sphere a positive radius, a plane nothing; any
    other tag is not a shape. *)
Definition shape_invariant (options : PhysicsObjectOptions) : bool :=
  match o_type options with
  | BOX =>
      match o_size options with
      | Some size =>
          positive (vx size) && positive (vy size) && positive (vz size)
      | None => false
      end
  | SPHERE =>
      match o_radius options with
      | Some radius => above_zero radius
      | None => false
      end
  | PLANE => true
  | OTHER _ => false
  end.

(** What the Worker itself rejects: a box without a size, a sphere whose
    radius is missing, [NaN] or zero, a tag it does not know. *)
Definition rejected (options : PhysicsObjectOptions) : bool :=
  match o_type options with
  | BOX => bool_decide (o_size options = None)
  | SPHERE => PhysicsWorker.falsy (o_radius options)
  | PLANE => false
  | OTHER _ => true
  end.

(** The options for which no shape is built when the constructors are those
    of cannon-es: a box without a size, a sphere whose radius is not
    positive, a tag the Worker does not know. *)
Definition unbuildable (options : PhysicsObjectOptions) : bool :=
  match o_type options with
  | BOX => bool_decide (o_size options = None)
  | SPHERE =>
      match o_radius options with
      | Some radius => negb (above_zero radius)
      | None => true
      end
  | PLANE => false
  | OTHER _ => true
  end.

(** The errors raised while the shape is built: the Worker's own, and the
    engine's. *)
Definition shape_error (e : Error) : bool :=
  match e with
  | ConfigError _ | EngineError => true
  | TypeError | RangeError => false
  end.

(** The shape the Worker asks the engine for, when it rejects nothing. *)
Definition shape_of (options : PhysicsObjectOptions) : Shape :=
  match o_type options with
  | BOX =>
      let size := default Vec3_zero (o_size options) in
      ShBox (mkVec3 (vx size / 2) (vy size / 2) (vz size / 2))
  | SPHERE => ShSphere (default (Num 0) (o_radius options))
  | _ => ShPlane
  end.

(** A position triple and an orientation quadruple of a Sync frame, as
    stored in the arrays. *)
Definition triple `{Float32} (b : Body) : list Q :=
  [fround (vx (position b)); fround (vy (position b));
   fround (vz (position b))].

Definition quadruple `{Float32} (b : Body) : list Q :=
  [fround (qx (quaternion b)); fround (qy (quaternion b));
   fround (qz (quaternion b)); fround (qw (quaternion b))].

(** The frame of a registry: the triples, and the quadruples, of its bodies
    in iteration order. *)
Definition frame_positions `{Float32} (s : list Body) (refs : list nat)
  : list Q :=
  refs ≫= λ r, from_option triple [] (s !! r).

Definition frame_quaternions `{Float32} (s : list Body) (refs : list nat)
  : list Q :=
  refs ≫= λ r, from_option quadruple [] (s !! r).

(** The [i]-th position triple and the [i]-th orientation quadruple of a
    frame. *)
Definition entry3 (positions : list Q) (i : nat) : list Q :=
  take 3 (drop (i * 3) positions).

Definition entry4 (quaternions : list Q) (i : nat) : list Q :=
  take 4 (drop (i * 4) quaternions).

(** The renderable whose transform is entry [i] of a frame. *)
Definition rendered (positions quaternions : list Q) (i : nat)
  : THREE.Object3D :=
  THREE.mkObject3D
    (THREE.mkVector3 (positions !! (i * 3)) (positions !! (i * 3 + 1))
       (positions !! (i * 3 + 2)))
    (THREE.mkQuaternion (quaternions !! (i * 4)) (quaternions !! (i * 4 + 1))
       (quaternions !! (i * 4 + 2)) (quaternions !! (i * 4 + 3))).

(** The renderable that shows body [b]. *)
Definition shows `{Float32} (b : Body) : THREE.Object3D :=
  THREE.mkObject3D
    (THREE.mkVector3 (Some (fround (vx (position b))))
       (Some (fround (vy (position b)))) (Some (fround (vz (position b)))))
    (THREE.mkQuaternion (Some (fround (qx (quaternion b))))
       (Some (fround (qy (quaternion b)))) (Some (fround (qz (quaternion b))))
       (Some (fround (qw (quaternion b))))).

(** Every component of the object is a number: nothing was read past the end
    of an array. *)
Definition defined (o : THREE.Object3D) : Prop :=
  is_Some (THREE.x (THREE.position o)) ∧ is_Some (THREE.y (THREE.position o))
  ∧ is_Some (THREE.z (THREE.position o))
  ∧ is_Some (THREE._x (THREE.quaternion o))
  ∧ is_Some (THREE._y (THREE.quaternion o))
  ∧ is_Some (THREE._z (THREE.quaternion o))
  ∧ is_Some (THREE._w (THREE.quaternion o)).

(** The states the Worker can be in: those reached from the constructor by
    handling messages. *)
Definition reachable `{CannonEngine} `{Float32} (st : PhysicsWorker.t) : Prop :=
  ∃ messages, (PhysicsWorker.run PhysicsWorker.new messages).1 = st.

(** What holds of every such state. *)
Record wf (st : PhysicsWorker.t) : Prop := mk_wf {
  wf_keys : NoDup (JSMap.keys (PhysicsWorker.bodies st));
  wf_refs : ∀ r, r ∈ JSMap.values (PhysicsWorker.bodies st) →
                 r < length (PhysicsWorker.store st);
  wf_world : PhysicsWorker.world st = None → PhysicsWorker.bodies st = [];
  wf_positions :
    data (PhysicsWorker.positions st)
    = PhysicsWorker.zeros (f32_length (PhysicsWorker.positions st));
  wf_quaternions :
    data (PhysicsWorker.quaternions st)
    = PhysicsWorker.zeros (f32_length (PhysicsWorker.quaternions st));
  wf_capacity3 :
    JSMap.size (PhysicsWorker.bodies st) * 3
    ≤ f32_length (PhysicsWorker.positions st);
  wf_capacity4 :
    JSMap.size (PhysicsWorker.bodies st) * 4
    ≤ f32_length (PhysicsWorker.quaternions st);
  wf_buffer3 :
    buffer (PhysicsWorker.positions st) < PhysicsWorker.next_buffer st;
  wf_buffer4 :
    buffer (PhysicsWorker.quaternions st) < PhysicsWorker.next_buffer st;
}.

(** The Worker does not hold the buffer [b] and will not be given it by a
    later allocation. *)
Definition gone (st : PhysicsWorker.t) (b : nat) : Prop :=
  b < PhysicsWorker.next_buffer st
  ∧ b ≠ buffer (PhysicsWorker.positions st)
  ∧ b ≠ buffer (PhysicsWorker.quaternions st).

Definition initializes (m : PhysicsWorkerIncomingMessage) : bool :=
  match m with
  | MInit _ _ => true
  | _ => false
  end.

(** The commands whose handler uses the world whatever the registry
    holds. *)
Definition needs_world (m : PhysicsWorkerIncomingMessage) : bool :=
  match m with
  | MAddBody _ _ | MUpdate _ => true
  | _ => false
  end.


(** The objects and options of the [addObject] calls, in call order. *)
Definition added (actions : list Protocol.Action)
  : list (nat * PhysicsObjectOptions) :=
  omap (λ a, match a with
             | Protocol.Invoke (Protocol.AddObject o options) =>
                 Some (o, options)
             | _ => None
             end) actions.


Definition updates (a : Protocol.Action) : bool :=
  match a with
  | Protocol.Invoke (Protocol.Update _) => true
  | _ => false
  end.

(** The query is for request identifier [rid]. *)
Definition queries (rid : string) (a : Protocol.Action) : bool :=
  match a with
  | Protocol.Invoke (Protocol.GetBodyProperties _ requestId) =>
      bool_decide (requestId = rid)
  | _ => false
  end.

(** The message is the response to request [rid]. *)
Definition answers (rid : string) (e : PhysicsWorkerOutgoingMessage) : bool :=
  match e with
  | EBodyProps props => bool_decide (p_requestId props = rid)
  | _ => false
  end.

(** The Worker builds the shape of these options: it rejects nothing and
    the engine accepts the shape. *)
Definition creatable `{CannonEngine} (options : PhysicsObjectOptions) : bool :=
  match PhysicsWorker.make_shape options with
  | Ok _ => true
  | Throw _ => false
  end.


(** Every callback resolves a promise that exists. *)
Definition callbacks_wf (pw : PhysicsWorld.t) : Prop :=
  ∀ k q, PhysicsWorld.bodyPropsCallbacks pw !! k = Some q →
         q < length (PhysicsWorld.promises pw).

(** The query [rid] is waiting: its callback is registered, no other
    callback resolves its promise, and the promise is pending. *)
Record waiting (pw : PhysicsWorld.t) (rid : string) (promise : nat) : Prop :=
  mk_waiting {
  wt_callback : PhysicsWorld.bodyPropsCallbacks pw !! rid = Some promise;
  wt_pending : PhysicsWorld.promises pw !! promise = Some None;
  wt_only : ∀ k, PhysicsWorld.bodyPropsCallbacks pw !! k = Some promise →
                 k = rid;
  wt_wf : callbacks_wf pw;
}.

(** A session: the Coordinator is constructed, then runs its tasks. *)
Definition session (scene : list THREE.Object3D)
    (actions : list Protocol.Action)
  : PhysicsWorld.t * list THREE.Object3D * list PhysicsWorkerIncomingMessage :=
  let '(ps, out) := Protocol.coordinator (PhysicsWorld.new.1, scene) actions in
  (ps, PhysicsWorld.new.2 ++ out).

(** The Worker's side of a session: it handles the channel in order. *)
Definition worker_of `{CannonEngine} `{Float32} (scene : list THREE.Object3D)
    (actions : list Protocol.Action)
  : PhysicsWorker.t * list PhysicsWorkerOutgoingMessage :=
  PhysicsWorker.run PhysicsWorker.new (session scene actions).2.

End Spec.

(** ** A small engine and a rounding, to run the model on *)

Module Reference.

Definition scale (k : Q) (v : Vec3) : Vec3 :=
  mkVec3 (k * vx v) (k * vy v) (k * vz v).

Definition plus (u v : Vec3) : Vec3 :=
  mkVec3 (Qred (vx u + vx v)) (Qred (vy u + vy v)) (Qred (vz u + vz v)).

Definition with_motion (b : Body) (p v : Vec3) : Body :=
  {| mass := mass b; position := p; previousPosition := position b;
     interpolatedPosition := p; quaternion := quaternion b; velocity := v;
     angularVelocity := angularVelocity b; material := material b;
     linearDamping := linearDamping b; angularDamping := angularDamping b;
     fixedRotation := fixedRotation b; sleepState := sleepState b;
     shapes := shapes b |}.

(** Free flight under gravity, one semi-implicit Euler step; a body of mass
    zero stays where it is. *)
Definition fall (w : World) (dt : Q) (b : Body) : Body :=
  if Qeq_bool (mass b) 0 then b
  else
    let v := plus (velocity b) (scale dt (gravity w)) in
    with_motion b (plus (position b) (scale dt v)) v.

(** The sphere constructor of this engine refuses a negative radius. *)
Definition accepts (s : Shape) : bool :=
  match s with
  | ShSphere r => negb (below_zero r)
  | _ => true
  end.

Definition engine : CannonEngine :=
  {| shape_accepted := accepts;
     body_step := λ w _ dt _ b, fall w dt b;
     body_applyForce := λ b _ _, b;
     body_applyImpulse := λ b j _,
       if Qeq_bool (mass b) 0 then b
       else with_motion b (position b)
              (plus (velocity b) (scale (/ mass b) j)) |}.

(** Rounding to the nearest multiple of 1/1024. *)
Definition rounding : Float32 :=
  {| fround := λ q, Qred (Qfloor (q * 1024 + 1 / 2) # 1024) |}.

Definition box (px py pz : Q) : PhysicsObjectOptions :=
  {| o_type := BOX; o_mass := 1; o_position := mkVec3 px py pz;
     o_quaternion := None; o_size := Some (mkVec3 1 1 1); o_radius := None;
     o_material := Some (mkMaterial (3 # 10) (3 # 10));
     o_linearDamping := None; o_angularDamping := None;
     o_fixedRotation := None |}.

Definition sphere (r : Q) (px py pz : Q) : PhysicsObjectOptions :=
  {| o_type := SPHERE; o_mass := 1; o_position := mkVec3 px py pz;
     o_quaternion := None; o_size := None; o_radius := Some (Num r);
     o_material := Some (mkMaterial (3 # 10) (7 # 10));
     o_linearDamping := None; o_angularDamping := None;
     o_fixedRotation := None |}.

(** A box whose size is present and zero in every direction. *)
Definition flat_box : PhysicsObjectOptions :=
  {| o_type := BOX; o_mass := 1; o_position := mkVec3 0 1 0;
     o_quaternion := None; o_size := Some (mkVec3 0 0 0); o_radius := None;
     o_material := None; o_linearDamping := None; o_angularDamping := None;
     o_fixedRotation := None |}.

Abbreviation handle :=
  (PhysicsWorker.handleMessage (H := engine) (H0 := rounding)).

Abbreviation worker_of := (Spec.worker_of (H := engine) (H0 := rounding)).

Definition origin : THREE.Object3D :=
  THREE.mkObject3D (THREE.mkVector3 (Some 0%Q) (Some 0%Q) (Some 0%Q))
    (THREE.mkQuaternion (Some 0%Q) (Some 0%Q) (Some 0%Q) (Some 1%Q)).

(** The Worker after [INIT] and two boxes. *)
Definition two_boxes : PhysicsWorker.t :=
  (PhysicsWorker.run (H := engine) (H0 := rounding) PhysicsWorker.new
     [MInit (mkVec3 0 (- (982 # 100)) 0) (Some 10%Z);
      MAddBody 1 (box 0 1 0); MAddBody 2 (box 0 3 0)]).1.

(** The two boxes, with arrays that hold what a frame has written. *)
Definition written_boxes : PhysicsWorker.t :=
  {| PhysicsWorker.world := PhysicsWorker.world two_boxes;
     PhysicsWorker.bodies := PhysicsWorker.bodies two_boxes;
     PhysicsWorker.positions :=
       mkF32 (buffer (PhysicsWorker.positions two_boxes))
         [0; 1; 0; 0; 3; 0]%Q;
     PhysicsWorker.quaternions :=
       mkF32 (buffer (PhysicsWorker.quaternions two_boxes))
         [0; 0; 0; 1; 0; 0; 0; 1]%Q;
     PhysicsWorker.store := PhysicsWorker.store two_boxes;
     PhysicsWorker.next_buffer := PhysicsWorker.next_buffer two_boxes |}.

End Reference.

(** Projections of explicit records, and nothing else. *)
Ltac fields :=
  cbn [PhysicsWorker.world PhysicsWorker.bodies PhysicsWorker.positions
       PhysicsWorker.quaternions PhysicsWorker.store PhysicsWorker.next_buffer
       buffer data fst snd] in *.

(** ** More vocabulary: what else holds of the Worker and of its messages *)

Module Props.

(** What also holds of every state of the Worker: the registry names
    distinct bodies, the world holds bodies that exist, the two arrays have
    room for the same number of bodies and do not share a buffer. *)
Record sound (st : PhysicsWorker.t) : Prop := mk_sound {
  sd_values : NoDup (JSMap.values (PhysicsWorker.bodies st));
  sd_world : ∀ w r, PhysicsWorker.world st = Some w → r ∈ wbodies w →
                    r < length (PhysicsWorker.store st);
  sd_shape : ∃ k, f32_length (PhysicsWorker.positions st) = k * 3
                  ∧ f32_length (PhysicsWorker.quaternions st) = k * 4;
  sd_buffers : buffer (PhysicsWorker.positions st)
               ≠ buffer (PhysicsWorker.quaternions st);
}.

(** The body that the command addresses, for the four commands that change
    one body. *)
Definition addressed (m : PhysicsWorkerIncomingMessage) : option Z :=
  match m with
  | MApplyForce id _ _ | MApplyImpulse id _ _
  | MSetPosition id _ | MSetVelocity id _ => Some id
  | _ => None
  end.

Definition is_update (m : PhysicsWorkerIncomingMessage) : bool :=
  match m with
  | MUpdate _ => true
  | _ => false
  end.

Definition is_query (m : PhysicsWorkerIncomingMessage) : bool :=
  match m with
  | MGetBodyProps _ _ => true
  | _ => false
  end.

Definition is_sync (e : PhysicsWorkerOutgoingMessage) : bool :=
  match e with
  | ESync _ _ => true
  | _ => false
  end.

Definition is_response (e : PhysicsWorkerOutgoingMessage) : bool :=
  match e with
  | EBodyProps _ => true
  | _ => false
  end.

(** The buffers that a list of messages hands over, in order. *)
Definition transferred (events : list PhysicsWorkerOutgoingMessage)
  : list nat :=
  events ≫= λ e,
    match e with
    | ESync p q => [buffer p; buffer q]
    | _ => []
    end.

(** A frame whose arrays hold the same whole number of entries. *)
Definition shaped (e : PhysicsWorkerOutgoingMessage) : Prop :=
  match e with
  | ESync p q => (∃ k, f32_length p = k * 3 ∧ f32_length q = k * 4)
  | _ => True
  end.

(** The ids of the [ADD_BODY] commands of a channel, in order. *)
Definition add_ids (messages : list PhysicsWorkerIncomingMessage) : list Z :=
  omap (λ m, match m with
             | MAddBody id _ => Some id
             | _ => None
             end) messages.

(** The body is in the world and no id of the registry names it. *)
Definition orphan (st : PhysicsWorker.t) (r : nat) : Prop :=
  (∃ w, PhysicsWorker.world st = Some w ∧ r ∈ wbodies w)
  ∧ (r ∉ JSMap.values (PhysicsWorker.bodies st))
  ∧ r < length (PhysicsWorker.store st).

(** The two registries list the same ids in the same order, every id is one
    the Coordinator has allocated, and the Worker is initialised. *)
Record synced (pw : PhysicsWorld.t) (wk : PhysicsWorker.t) : Prop :=
  mk_synced {
  sy_keys : JSMap.keys (PhysicsWorld.objects pw)
            = JSMap.keys (PhysicsWorker.bodies wk);
  sy_fresh : ∀ k, k ∈ JSMap.keys (PhysicsWorld.objects pw) →
                  (k < PhysicsWorld.nextBodyId pw)%Z;
  sy_unique : NoDup (JSMap.keys (PhysicsWorld.objects pw));
  sy_world : is_Some (PhysicsWorker.world wk);
  sy_wf : Spec.wf wk;
}.

(** The response that the Worker gives for a body. *)
Definition properties_of (b : Body) (requestId : string)
  : PhysicsBodyProperties :=
  {| p_mass := mass b;
     p_position := position b;
     p_quaternion := quaternion b;
     p_velocity := velocity b;
     p_angularVelocity := angularVelocity b;
     p_fixedRotation := fixedRotation b;
     p_sleepState := sleepState b;
     p_requestId := requestId |}.

End Props.

(** ** The helpers of the Coordinator ([addFloor], [addBox], [addSphere]) *)

Module PhysicsHelpers.

(** What a helper works on: the Coordinator, the three.js objects by
    reference, and the children of [this.scene]. *)
Record t := mk {
  physics : PhysicsWorld.t;
  heap : list THREE.Object3D;
  scene : list nat;
}.

(** The doubles that the literals [0.3] and [0.7] denote. *)
Definition lit_0_3 : Q := 5404319552844595 # 18014398509481984.
Definition lit_0_7 : Q := 3152519739159347 # 4503599627370496.

(** [new THREE.Mesh(geometry, material)]: at the origin, not rotated. *)
Definition new_Mesh : THREE.Object3D :=
  THREE.mkObject3D (THREE.mkVector3 (Some 0%Q) (Some 0%Q) (Some 0%Q))
    (THREE.mkQuaternion (Some 0%Q) (Some 0%Q) (Some 0%Q) (Some 1%Q)).

(** [mesh.position.set(x, y, z)] *)
Definition position_set (o : THREE.Object3D) (p : Vec3) : THREE.Object3D :=
  THREE.mkObject3D
    (THREE.mkVector3 (Some (vx p)) (Some (vy p)) (Some (vz p)))
    (THREE.quaternion o).

(** [this.scene.add(mesh)] for a mesh just made: it is a new object, and it
    becomes the last child of the scene. *)
Definition scene_add (st : t) (mesh : THREE.Object3D) : t * nat :=
  let o := length (heap st) in
  ({| physics := physics st; heap := heap st ++ [mesh];
      scene := scene st ++ [o] |}, o).

(** The call of [addObject] that ends each helper. *)
Definition register (st : t) (o : nat) (options : PhysicsObjectOptions)
  : t * list PhysicsWorkerIncomingMessage * Z :=
  let '(pw, out, id) := PhysicsWorld.addObject (physics st) o options in
  ({| physics := pw; heap := heap st; scene := scene st |}, out, id).

(** [addFloor]; an argument left out is [None]. *)
Definition addFloor (st : t) (size : option Q)
  : t * list PhysicsWorkerIncomingMessage * Z :=
  let size := default 100%Q size in
  let '(st1, floor) :=
    scene_add st (position_set new_Mesh (mkVec3 0 (- (1 # 2)) 0)) in
  register st1 floor
    {| o_type := BOX; o_mass := 0;
       o_position := mkVec3 0 (- (1 # 2)) 0;
       o_quaternion := None;
       o_size := Some (mkVec3 size 1 size);
       o_radius := None;
       o_material := Some (mkMaterial lit_0_3 lit_0_3);
       o_linearDamping := None; o_angularDamping := None;
       o_fixedRotation := None |}.

(** [addBox]; the colour goes to the material of the mesh only. *)
Definition addBox (st : t) (size position : option Vec3) (mass : option Q)
  : t * list PhysicsWorkerIncomingMessage * Z :=
  let size := default (mkVec3 1 1 1) size in
  let position := default (mkVec3 0 1 0) position in
  let mass := default 1%Q mass in
  let '(st1, box) := scene_add st (position_set new_Mesh position) in
  register st1 box
    {| o_type := BOX; o_mass := mass;
       o_position := position;
       o_quaternion := None;
       o_size := Some size;
       o_radius := None;
       o_material := Some (mkMaterial lit_0_3 lit_0_3);
       o_linearDamping := None; o_angularDamping := None;
       o_fixedRotation := None |}.

(** [addSphere]; only an argument left out takes its default, a radius that
    is [NaN] or zero is passed on. *)
Definition addSphere (st : t) (radius : option Number)
    (position : option Vec3) (mass : option Q)
  : t * list PhysicsWorkerIncomingMessage * Z :=
  let radius := default (Num (1 # 2)) radius in
  let position := default (mkVec3 0 1 0) position in
  let mass := default 1%Q mass in
  let '(st1, sphere) := scene_add st (position_set new_Mesh position) in
  register st1 sphere
    {| o_type := SPHERE; o_mass := mass;
       o_position := position;
       o_quaternion := None;
       o_size := None;
       o_radius := Some radius;
       o_material := Some (mkMaterial lit_0_3 lit_0_7);
       o_linearDamping := None; o_angularDamping := None;
       o_fixedRotation := None |}.

(** A call of one of the three helpers. *)
Inductive Helper :=
| Floor (size : option Q)
| Box (size position : option Vec3) (mass : option Q)
| Sphere (radius : option Number) (position : option Vec3) (mass : option Q).

Definition call (st : t) (h : Helper)
  : t * list PhysicsWorkerIncomingMessage * Z :=
  match h with
  | Floor size => addFloor st size
  | Box size position mass => addBox st size position mass
  | Sphere radius position mass => addSphere st radius position mass
  end.

(** The transform of a body as a three.js object holds it when nothing has
    been rounded. *)
Definition at_body (b : Body) : THREE.Object3D :=
  THREE.mkObject3D
    (THREE.mkVector3 (Some (vx (position b))) (Some (vy (position b)))
       (Some (vz (position b))))
    (THREE.mkQuaternion (Some (qx (quaternion b))) (Some (qy (quaternion b)))
       (Some (qz (quaternion b))) (Some (qw (quaternion b)))).

End PhysicsHelpers.

(** ** Entities and the scene ([src/core/Entity.ts], [src/core/Scene.ts]) *)

Module Entity.

(** The fields of [class Entity] that the scene reads.  The mesh is a
    reference to a three.js object; a field that is [undefined] is
    [None]. *)
Record t := mk {
  id : string;
  name : string;
  mesh : option nat;
  physicsId : option Z;
  isDestroyed : bool;
}.

(** The constructor; [id] is what [crypto.randomUUID()] returns. *)
Definition new (id : string) (name : option string) (mesh : option nat) : t :=
  {| id := id; name := default "Entity" name; mesh := mesh;
     physicsId := None; isDestroyed := false |}.

(** [destroy] *)
Definition destroy (e : t) : t :=
  {| id := id e; name := name e; mesh := mesh e; physicsId := physicsId e;
     isDestroyed := true |}.

End Entity.

Module Scene.

(** The entity objects, by reference: the application, the components and
    the scene share them. *)
Definition Entities := nat → Entity.t.

(** [class Scene]; [threeScene] is the list of the children of the three.js
    scene. *)
Record t := mk {
  threeScene : list nat;
  physics : PhysicsWorld.t;
  entities : JSMap.t string nat;
  entitiesToAdd : list nat;
  isInitialized : bool;
}.

Definition Posted := (t * list PhysicsWorkerIncomingMessage)%type.

(** The constructor, which constructs the Coordinator. *)
Definition new : Posted :=
  ({| threeScene := []; physics := PhysicsWorld.new.1;
      entities := JSMap.empty; entitiesToAdd := [];
      isInitialized := false |},
   PhysicsWorld.new.2).

(** [initialize] *)
Definition initialize (st : t) : t :=
  {| threeScene := threeScene st; physics := physics st;
     entities := entities st; entitiesToAdd := entitiesToAdd st;
     isInitialized := true |}.

(** [addEntity] *)
Definition addEntity (heap : Entities) (st : t) (entity : nat) : t :=
  if isInitialized st then
    {| threeScene := threeScene st; physics := physics st;
       entities := entities st;
       entitiesToAdd := entitiesToAdd st ++ [entity];
       isInitialized := isInitialized st |}
  else
    {| threeScene := threeScene st; physics := physics st;
       entities := JSMap.set (entities st) (Entity.id (heap entity)) entity;
       entitiesToAdd := entitiesToAdd st;
       isInitialized := isInitialized st |}.

(** [getEntity] *)
Definition getEntity (st : t) (id : string) : option nat :=
  JSMap.get (entities st) id.

(** [getAllEntities] *)
Definition getAllEntities (st : t) : list nat := JSMap.values (entities st).

(** [threeScene.remove(object)]: the object leaves the children, if it is
    one of them. *)
Fixpoint Object3D_remove (children : list nat) (o : nat) : list nat :=
  match children with
  | [] => []
  | c :: children' =>
      if decide (c = o) then children' else c :: Object3D_remove children' o
  end.

(** The argument of [removeEntity]: an entity or an id. *)
Inductive EntityOrId :=
| AnEntity (entity : nat)
| AnId (id : string).

(** [typeof entityOrId === "string" ? entityOrId : entityOrId.id] *)
Definition id_of (heap : Entities) (entityOrId : EntityOrId) : string :=
  match entityOrId with
  | AnId id => id
  | AnEntity entity => Entity.id (heap entity)
  end.

(** [removeEntity]; the boolean returned is the third component. *)
Definition removeEntity (heap : Entities) (st : t) (entityOrId : EntityOrId)
  : Posted * bool :=
  let id := id_of heap entityOrId in
  match JSMap.get (entities st) id with
  | Some entity =>
      let '(pw, out) :=
        match Entity.physicsId (heap entity) with
        | Some physicsId => PhysicsWorld.removeObject (physics st) physicsId
        | None => (physics st, [])
        end in
      let children :=
        match Entity.mesh (heap entity) with
        | Some mesh => Object3D_remove (threeScene st) mesh
        | None => threeScene st
        end in
      ({| threeScene := children; physics := pw;
          entities := JSMap.delete (entities st) id;
          entitiesToAdd := entitiesToAdd st;
          isInitialized := isInitialized st |}, out, true)
  | None => (st, [], false)
  end.

(** The first block of [update]: the queued entities enter the registry. *)
Definition flush (heap : Entities) (st : t) : t :=
  match entitiesToAdd st with
  | [] => st
  | _ :: _ =>
      {| threeScene := threeScene st; physics := physics st;
         entities :=
           foldl (λ m entity, JSMap.set m (Entity.id (heap entity)) entity)
             (entities st) (entitiesToAdd st);
         entitiesToAdd := [];
         isInitialized := isInitialized st |}
  end.

(** The body of the last [forEach] of [update], for one entry. *)
Definition sweep_entry (heap : Entities) (acc : Posted) (entry : string * nat)
  : Posted :=
  if Entity.isDestroyed (heap entry.2) then
    let '(st, out, _) := removeEntity heap acc.1 (AnId entry.1) in
    (st, acc.2 ++ out)
  else acc.

(** The last block of [update].  The callback deletes no entry but the one
    it is called for, so the entries visited are those present at the
    start. *)
Definition sweep (heap : Entities) (st : t) : Posted :=
  foldl (sweep_entry heap) (st, []) (entities st).

Section update.

(** What [entity.update(dt)] does, for all the entities of the registry: the
    components are the application's code, which may change the entities and
    the scene, post to the Worker, or throw. *)
Variable entities_update :
  Q → Entities → t → Result (Entities * t * list PhysicsWorkerIncomingMessage).

(** The scene as [this.physics.update()] leaves it. *)
Definition physics_update (st : t) (now : Q) : Posted :=
  let '(pw, out) := PhysicsWorld.update (physics st) now in
  ({| threeScene := threeScene st; physics := pw; entities := entities st;
      entitiesToAdd := entitiesToAdd st;
      isInitialized := isInitialized st |}, out).

(** [update]; [now] is what [performance.now()] returns.  When the
    components throw, so does [update]; what it has done by then is not
    part of the result. *)
Definition update (heap : Entities) (st : t) (dt now : Q)
  : Result (Entities * t * list PhysicsWorkerIncomingMessage) :=
  let st1 := flush heap st in
  let '(st2, out1) := physics_update st1 now in
  '(heap3, st3, out2) ← entities_update dt heap st2;
  let '(st4, out3) := sweep heap3 st3 in
  Ok (heap3, st4, out1 ++ out2 ++ out3).

End update.

(** What the last block of [update] posts for one entry of the registry. *)
Definition removal (heap : Entities) (entry : string * nat)
  : list PhysicsWorkerIncomingMessage :=
  if Entity.isDestroyed (heap entry.2) then
    match Entity.physicsId (heap entry.2) with
    | Some physicsId => [MRemoveBody physicsId]
    | None => []
    end
  else [].

(** [dispose] *)
Definition dispose (st : t) : t :=
  {| threeScene := threeScene st; physics := physics st;
     entities := JSMap.empty; entitiesToAdd := [];
     isInitialized := isInitialized st |}.

End Scene.

(** ** The keyboard ([class InputManager] of [src/core/Scene.ts]) *)

Module InputManager.

(** The keyboard half of [class InputManager]: the three maps of key
    states.  The mouse state and the listeners, which these fields do not
    meet, are left out. *)
Record t := mk {
  keys : gmap string bool;
  keysPressedThisFrame : gmap string bool;
  keysReleasedThisFrame : gmap string bool;
}.

Definition new : t :=
  {| keys := ∅; keysPressedThisFrame := ∅; keysReleasedThisFrame := ∅ |}.

(** [update], as far as the keys go: the two maps of the frame are
    cleared. *)
Definition update (st : t) : t :=
  {| keys := keys st; keysPressedThisFrame := ∅;
     keysReleasedThisFrame := ∅ |}.

(** [isKeyDown]: [this.keys.get(key) || false] *)
Definition isKeyDown (st : t) (key : string) : bool :=
  default false (keys st !! key).

(** [wasKeyPressed] *)
Definition wasKeyPressed (st : t) (key : string) : bool :=
  default false (keysPressedThisFrame st !! key).

(** [wasKeyReleased] *)
Definition wasKeyReleased (st : t) (key : string) : bool :=
  default false (keysReleasedThisFrame st !! key).

(** [handleKeyDown]; [key] is [event.code].  The key counts as pressed
    when [this.keys.get(key)] is [undefined] or [false]. *)
Definition handleKeyDown (st : t) (key : string) : t :=
  {| keys := <[key := true]> (keys st);
     keysPressedThisFrame :=
       match keys st !! key with
       | Some true => keysPressedThisFrame st
       | _ => <[key := true]> (keysPressedThisFrame st)
       end;
     keysReleasedThisFrame := keysReleasedThisFrame st |}.

(** [handleKeyUp] *)
Definition handleKeyUp (st : t) (key : string) : t :=
  {| keys := <[key := false]> (keys st);
     keysPressedThisFrame := keysPressedThisFrame st;
     keysReleasedThisFrame := <[key := true]> (keysReleasedThisFrame st) |}.

(** A keyboard event, by the listener that takes it. *)
Inductive KeyEvent :=
| KeyDown (code : string)
| KeyUp (code : string).

#[global] Instance KeyEvent_eq_dec : EqDecision KeyEvent.
Proof. solve_decision. Defined.

Definition dispatch (st : t) (e : KeyEvent) : t :=
  match e with
  | KeyDown code => handleKeyDown st code
  | KeyUp code => handleKeyUp st code
  end.

(** A frame: [update], then the events that arrive before the next
    [update]. *)
Definition frame (st : t) (events : list KeyEvent) : t :=
  foldl dispatch (update st) events.

(** The key that an event is about. *)
Definition code_of (e : KeyEvent) : string :=
  match e with
  | KeyDown code | KeyUp code => code
  end.

End InputManager.

(** ** The reference scene and Worker of the examples *)

Module MoreReference.
Import Reference.

(** The Worker after the [INIT] of the Coordinator's constructor. *)
Definition fresh_worker : PhysicsWorker.t :=
  (PhysicsWorker.run (H := engine) (H0 := rounding) PhysicsWorker.new
     PhysicsWorld.new.2).1.

(** Two entities; the first has a mesh and a body. *)
Definition two_entities : Scene.Entities :=
  λ r, match r with
       | 0 => Entity.mk "a" "Entity" (Some 0) (Some 1%Z) false
       | _ => Entity.mk "b" "Entity" None None false
       end.

(** Components that destroy the first entity and do nothing else. *)
Definition destroy_first (dt : Q) (heap : Scene.Entities) (st : Scene.t)
  : Result (Scene.Entities * Scene.t * list PhysicsWorkerIncomingMessage) :=
  Ok (λ r, match r with
           | 0 => Entity.destroy (heap r)
           | _ => heap r
           end, st, []).

(** A scene that holds the two entities, and whose Coordinator has
    registered the mesh of the first. *)
Definition staged : Scene.t :=
  {| Scene.threeScene := [0];
     Scene.physics :=
       (PhysicsWorld.addObject PhysicsWorld.new.1 0 (box 0 1 0)).1.1;
     Scene.entities := [("a", 0); ("b", 1)];
     Scene.entitiesToAdd := [];
     Scene.isInitialized := true |}.

End MoreReference.

(** * Properties *)

(** ** The [Map] operations *)

Module JSMapFacts.
Section facts.
Context {K V : Type} `{EqDecision K}.
Implicit Types (m : JSMap.t K V) (k : K) (v : V).

Lemma get_None m k : JSMap.get m k = None ↔ k ∉ JSMap.keys m.
Proof.
  induction m as [|[k' v'] m IH]; simpl.
  - split; [intros _; apply not_elem_of_nil | done].
  - rewrite not_elem_of_cons. destruct (decide (k' = k)) as [->|Hne].
    + split; [done | intros [? _]; done].
    + rewrite IH. split; [intros ?; split; [congruence | done] | tauto].
Qed.

Lemma get_Some_values m k v : JSMap.get m k = Some v → v ∈ JSMap.values m.
Proof.
  induction m as [|[k' v'] m IH]; simpl; [done |].
  destruct (decide (k' = k)); intros Hg.
  - injection Hg as ->. apply list_elem_of_here.
  - apply list_elem_of_further, IH, Hg.
Qed.

Lemma get_set_eq m k v : JSMap.get (JSMap.set m k v) k = Some v.
Proof.
  induction m as [|[k' v'] m IH]; simpl.
  - by rewrite decide_True.
  - destruct (decide (k' = k)) as [->|Hne]; simpl.
    + by rewrite decide_True.
    + by rewrite decide_False.
Qed.

Lemma get_set_ne m k k' v :
  k ≠ k' → JSMap.get (JSMap.set m k v) k' = JSMap.get m k'.
Proof.
  intros Hne. induction m as [|[k0 v0] m IH]; simpl.
  - by rewrite decide_False.
  - destruct (decide (k0 = k)) as [->|Hne0]; simpl.
    + by rewrite !decide_False.
    + by rewrite IH.
Qed.

Lemma get_delete_eq m k : JSMap.get (JSMap.delete m k) k = None.
Proof.
  induction m as [|[k' v'] m IH]; simpl; [done |].
  destruct (decide (k' = k)); simpl; [done |]. by rewrite decide_False.
Qed.

Lemma delete_absent m k : JSMap.get m k = None → JSMap.delete m k = m.
Proof.
  induction m as [|[k' v'] m IH]; simpl; [done |].
  destruct (decide (k' = k)); [done |]. intros Hg. by rewrite IH.
Qed.

Lemma set_fresh m k v :
  JSMap.get m k = None → JSMap.set m k v = m ++ [(k, v)].
Proof.
  induction m as [|[k' v'] m IH]; simpl; [done |].
  destruct (decide (k' = k)); [done |]. intros Hg. by rewrite IH.
Qed.

Lemma keys_set m k v :
  JSMap.keys (JSMap.set m k v)
  = match JSMap.get m k with
    | Some _ => JSMap.keys m
    | None => JSMap.keys m ++ [k]
    end.
Proof.
  unfold JSMap.keys. induction m as [|[k' v'] m IH]; simpl; [done |].
  destruct (decide (k' = k)) as [->|Hne]; [done |].
  rewrite fmap_cons, IH. by destruct (JSMap.get m k).
Qed.

Lemma size_set m k v :
  JSMap.size (JSMap.set m k v)
  = match JSMap.get m k with
    | Some _ => JSMap.size m
    | None => S (JSMap.size m)
    end.
Proof.
  unfold JSMap.size.
  rewrite <- (length_fmap fst (JSMap.set m k v)), <- (length_fmap fst m).
  change (length (JSMap.keys (JSMap.set m k v))
          = match JSMap.get m k with
            | Some _ => length (JSMap.keys m)
            | None => S (length (JSMap.keys m))
            end).
  rewrite keys_set. destruct (JSMap.get m k); [done |].
  rewrite length_app. simpl. lia.
Qed.

Lemma size_set_le m k v : JSMap.size m ≤ JSMap.size (JSMap.set m k v).
Proof. rewrite size_set. destruct (JSMap.get m k); lia. Qed.

Lemma values_set m k v r :
  r ∈ JSMap.values (JSMap.set m k v) → r = v ∨ r ∈ JSMap.values m.
Proof.
  unfold JSMap.values. induction m as [|[k' v'] m IH]; simpl.
  - rewrite list_elem_of_singleton. tauto.
  - destruct (decide (k' = k)); simpl; rewrite !elem_of_cons; [tauto |].
    intros [->|Hr]; [tauto |]. destruct (IH Hr); tauto.
Qed.

Lemma keys_delete m k :
  JSMap.keys (JSMap.delete m k) = filter (λ k', k' ≠ k) (JSMap.keys m).
Proof.
  unfold JSMap.keys. induction m as [|[k' v'] m IH]; [done |].
  cbn [JSMap.delete]. rewrite fmap_cons. cbn [fst].
  destruct (decide (k' = k)) as [->|Hne].
  - rewrite filter_cons_False; [done | by intros ?].
  - rewrite filter_cons_True by done. by rewrite fmap_cons, IH.
Qed.

Lemma values_delete m k r :
  r ∈ JSMap.values (JSMap.delete m k) → r ∈ JSMap.values m.
Proof.
  unfold JSMap.values. induction m as [|[k' v'] m IH]; simpl; [done |].
  destruct (decide (k' = k)); simpl; rewrite ?elem_of_cons; [tauto |].
  intros [->|Hr]; [tauto |]. right. by apply IH.
Qed.

Lemma size_delete_le m k : JSMap.size (JSMap.delete m k) ≤ JSMap.size m.
Proof.
  unfold JSMap.size. induction m as [|[k' v'] m IH]; simpl; [done |].
  destruct (decide (k' = k)); simpl; lia.
Qed.

Lemma NoDup_keys_set m k v :
  NoDup (JSMap.keys m) → NoDup (JSMap.keys (JSMap.set m k v)).
Proof.
  intros Hnd. rewrite keys_set. destruct (JSMap.get m k) eqn:Hg; [done |].
  apply NoDup_app. split; [done |]. split; [| apply NoDup_singleton].
  intros x Hx Hk. apply list_elem_of_singleton in Hk as ->.
  by apply get_None in Hg.
Qed.

Lemma NoDup_keys_delete m k :
  NoDup (JSMap.keys m) → NoDup (JSMap.keys (JSMap.delete m k)).
Proof. intros Hnd. rewrite keys_delete. by apply NoDup_filter. Qed.

End facts.
End JSMapFacts.

(** ** The Worker's arrays *)

Module ArrayFacts.
Import PhysicsWorker.

Lemma length_zeros n : length (zeros n) = n.
Proof. apply length_replicate. Qed.

Lemma zeros_app n k : zeros n ++ zeros k = zeros (n + k).
Proof. unfold zeros. by rewrite replicate_add. Qed.

Lemma drop_zeros n k : drop k (zeros n) = zeros (n - k).
Proof. apply drop_replicate. Qed.

Lemma typed_set_zeros n (source : list Q) :
  length source ≤ n →
  typed_set (zeros n) source = Ok (source ++ zeros (n - length source)).
Proof.
  intros Hle. unfold typed_set. rewrite length_zeros.
  rewrite decide_True by done. by rewrite drop_zeros.
Qed.

Lemma insert3 {A} (done_ : list A) (a b c x y z : A) rest n :
  length done_ = n →
  <[n + 2 := z]> (<[n + 1 := y]> (<[n := x]> (done_ ++ a :: b :: c :: rest)))
  = done_ ++ x :: y :: z :: rest.
Proof.
  revert n. induction done_ as [|d done_ IH]; intros n Hn; simpl in Hn; subst n.
  - done.
  - simpl. f_equal. by apply IH.
Qed.

Lemma insert4 {A} (done_ : list A) (a b c d x y z w : A) rest n :
  length done_ = n →
  <[n + 3 := w]> (<[n + 2 := z]> (<[n + 1 := y]>
    (<[n := x]> (done_ ++ a :: b :: c :: d :: rest))))
  = done_ ++ x :: y :: z :: w :: rest.
Proof.
  revert n. induction done_ as [|e done_ IH]; intros n Hn; simpl in Hn; subst n.
  - done.
  - simpl. f_equal. by apply IH.
Qed.

Section frames.
Context `{CannonEngine} `{Float32}.

Lemma write_body_app s r i b dp rp dq rq :
  s !! r = Some b →
  length dp = i * 3 → length dq = i * 4 →
  3 ≤ length rp → 4 ≤ length rq →
  write_body s r i (dp ++ rp, dq ++ rq)
  = ((dp ++ Spec.triple b) ++ drop 3 rp, (dq ++ Spec.quadruple b) ++ drop 4 rq).
Proof.
  intros Hb Hp Hq H3 H4. unfold write_body, f32_write. rewrite Hb. cbn [fst snd].
  destruct rp as [|a1 [|a2 [|a3 rp]]]; simpl in H3; try lia.
  destruct rq as [|b1 [|b2 [|b3 [|b4 rq]]]]; simpl in H4; try lia.
  rewrite (insert3 dp) by done. rewrite (insert4 dq) by done.
  unfold Spec.triple, Spec.quadruple. by rewrite <- !app_assoc.
Qed.

Lemma frame_positions_cons s r refs :
  Spec.frame_positions s (r :: refs)
  = from_option Spec.triple [] (s !! r) ++ Spec.frame_positions s refs.
Proof. done. Qed.

Lemma frame_quaternions_cons s r refs :
  Spec.frame_quaternions s (r :: refs)
  = from_option Spec.quadruple [] (s !! r) ++ Spec.frame_quaternions s refs.
Proof. done. Qed.

Lemma write_bodies_frame s refs : ∀ i dp rp dq rq,
  (∀ r, r ∈ refs → r < length s) →
  length dp = i * 3 → length dq = i * 4 →
  length refs * 3 ≤ length rp → length refs * 4 ≤ length rq →
  write_bodies s refs i (dp ++ rp, dq ++ rq)
  = (dp ++ Spec.frame_positions s refs ++ drop (length refs * 3) rp,
     dq ++ Spec.frame_quaternions s refs ++ drop (length refs * 4) rq).
Proof.
  induction refs as [|r refs IH]; intros i dp rp dq rq Hrefs Hp Hq H3 H4.
  - done.
  - cbn [write_bodies length] in *.
    destruct (lookup_lt_is_Some_2 s r) as [b Hb].
    { apply Hrefs, list_elem_of_here. }
    rewrite (write_body_app s r i b) by (done || lia).
    rewrite IH.
    + rewrite !drop_drop, frame_positions_cons, frame_quaternions_cons, Hb.
      cbn [from_option]. rewrite <- !app_assoc.
      by replace (3 + length refs * 3) with (S (length refs) * 3) by lia;
         replace (4 + length refs * 4) with (S (length refs) * 4) by lia.
    + intros r' Hr'. by apply Hrefs, list_elem_of_further.
    + rewrite length_app. simpl. lia.
    + rewrite length_app. simpl. lia.
    + rewrite length_drop. lia.
    + rewrite length_drop. lia.
Qed.

Lemma length_frame_positions s refs :
  (∀ r, r ∈ refs → r < length s) →
  length (Spec.frame_positions s refs) = length refs * 3.
Proof.
  induction refs as [|r refs IH]; intros Hrefs; [done |].
  rewrite frame_positions_cons, length_app, IH.
  - destruct (lookup_lt_is_Some_2 s r) as [b ->]; [| done].
    apply Hrefs, list_elem_of_here.
  - intros r' Hr'. by apply Hrefs, list_elem_of_further.
Qed.

Lemma length_frame_quaternions s refs :
  (∀ r, r ∈ refs → r < length s) →
  length (Spec.frame_quaternions s refs) = length refs * 4.
Proof.
  induction refs as [|r refs IH]; intros Hrefs; [done |].
  rewrite frame_quaternions_cons, length_app, IH.
  - destruct (lookup_lt_is_Some_2 s r) as [b ->]; [| done].
    apply Hrefs, list_elem_of_here.
  - intros r' Hr'. by apply Hrefs, list_elem_of_further.
Qed.

(** Entry [i] of the frame of a registry is the triple of its [i]-th
    body. *)
Lemma frame_positions_entry s refs : ∀ i r b k,
  (∀ r, r ∈ refs → r < length s) →
  refs !! i = Some r → s !! r = Some b → k < 3 →
  Spec.frame_positions s refs !! (i * 3 + k) = Spec.triple b !! k.
Proof.
  induction refs as [|r0 refs IH]; intros i r b k Hrefs Hi Hb Hk; [done |].
  rewrite frame_positions_cons. destruct i as [|i]; simpl in Hi.
  - injection Hi as ->. rewrite Hb. cbn [from_option].
    rewrite lookup_app_l; [done | simpl; lia].
  - destruct (lookup_lt_is_Some_2 s r0) as [b0 ->].
    { apply Hrefs, list_elem_of_here. }
    cbn [from_option]. rewrite lookup_app_r by (simpl; lia).
    replace (S i * 3 + k - length (Spec.triple b0)) with (i * 3 + k)
      by (simpl; lia).
    eapply IH; eauto. intros r' Hr'. by apply Hrefs, list_elem_of_further.
Qed.

Lemma frame_quaternions_entry s refs : ∀ i r b k,
  (∀ r, r ∈ refs → r < length s) →
  refs !! i = Some r → s !! r = Some b → k < 4 →
  Spec.frame_quaternions s refs !! (i * 4 + k) = Spec.quadruple b !! k.
Proof.
  induction refs as [|r0 refs IH]; intros i r b k Hrefs Hi Hb Hk; [done |].
  rewrite frame_quaternions_cons. destruct i as [|i]; simpl in Hi.
  - injection Hi as ->. rewrite Hb. cbn [from_option].
    rewrite lookup_app_l; [done | simpl; lia].
  - destruct (lookup_lt_is_Some_2 s r0) as [b0 ->].
    { apply Hrefs, list_elem_of_here. }
    cbn [from_option]. rewrite lookup_app_r by (simpl; lia).
    replace (S i * 4 + k - length (Spec.quadruple b0)) with (i * 4 + k)
      by (simpl; lia).
    eapply IH; eauto. intros r' Hr'. by apply Hrefs, list_elem_of_further.
Qed.

End frames.
End ArrayFacts.

(** ** The Worker's methods *)

Module WorkerFacts.
Import PhysicsWorker ArrayFacts.

Section methods.
Context `{CannonEngine} `{Float32}.

(** [resizeArrays] never throws; it pads each array with zeros up to the
    length the registry needs and takes a fresh buffer for an array it
    replaces. *)
Lemma resizeArrays_spec st :
  ∃ st', resizeArrays st = Ok st'
    ∧ world st' = world st ∧ bodies st' = bodies st ∧ store st' = store st
    ∧ data (positions st')
      = data (positions st)
        ++ zeros (JSMap.size (bodies st) * 3 - f32_length (positions st))
    ∧ data (quaternions st')
      = data (quaternions st)
        ++ zeros (JSMap.size (bodies st) * 4 - f32_length (quaternions st))
    ∧ next_buffer st ≤ next_buffer st'
    ∧ (buffer (positions st') = buffer (positions st)
       ∨ next_buffer st ≤ buffer (positions st') < next_buffer st')
    ∧ (buffer (quaternions st') = buffer (quaternions st)
       ∨ next_buffer st ≤ buffer (quaternions st') < next_buffer st').
Proof.
  unfold resizeArrays, f32_length.
  destruct (decide (length (data (positions st)) < JSMap.size (bodies st) * 3))
    as [H3|H3].
  - rewrite typed_set_zeros by lia. cbn.
    destruct (decide (length (data (quaternions st))
                      < JSMap.size (bodies st) * 4)) as [H4|H4].
    + rewrite typed_set_zeros by lia. cbn. eexists. split; [done |].
      cbn. repeat split; auto; lia.
    + eexists. split; [done |]. cbn.
      replace (JSMap.size (bodies st) * 4 - length (data (quaternions st)))
        with 0 by lia.
      rewrite app_nil_r. repeat split; auto; lia.
  - cbn.
    destruct (decide (length (data (quaternions st))
                      < JSMap.size (bodies st) * 4)) as [H4|H4].
    + rewrite typed_set_zeros by lia. cbn. eexists. split; [done |]. cbn.
      replace (JSMap.size (bodies st) * 3 - length (data (positions st)))
        with 0 by lia.
      rewrite app_nil_r. repeat split; auto; lia.
    + eexists. split; [done |].
      replace (JSMap.size (bodies st) * 3 - length (data (positions st)))
        with 0 by lia.
      replace (JSMap.size (bodies st) * 4 - length (data (quaternions st)))
        with 0 by lia.
      rewrite !app_nil_r. repeat split; auto.
Qed.

(** [createBody] returns exactly when the shape is built and the world
    exists. *)
Lemma createBody_Ok st id options st' out :
  createBody st id options = Ok (st', out) →
  ∃ shape w,
    make_shape options = Ok shape ∧ world st = Some w ∧ out = []
    ∧ resizeArrays
        {| world := Some (World_addBody w (length (store st)));
           bodies := JSMap.set (bodies st) id (length (store st));
           positions := positions st; quaternions := quaternions st;
           store := store st ++ [new_Body options shape];
           next_buffer := next_buffer st |} = Ok st'.
Proof.
  unfold createBody. destruct (make_shape options) as [shape|e]; [| done].
  cbn. destruct (world st) as [w|]; [| done].
  match goal with |- context [resizeArrays ?s] =>
    destruct (resizeArrays s) as [st1|e] eqn:Hr end; [| done].
  cbn. intros [= <- <-]. by exists shape, w.
Qed.

Lemma createBody_returns st id options shape w :
  make_shape options = Ok shape → world st = Some w →
  ∃ st', createBody st id options = Ok (st', [])
    ∧ resizeArrays
        {| world := Some (World_addBody w (length (store st)));
           bodies := JSMap.set (bodies st) id (length (store st));
           positions := positions st; quaternions := quaternions st;
           store := store st ++ [new_Body options shape];
           next_buffer := next_buffer st |} = Ok st'.
Proof.
  intros Hs Hw. unfold createBody. rewrite Hs. cbn. rewrite Hw.
  match goal with |- context [resizeArrays ?s] =>
    destruct (resizeArrays_spec s) as (st' & -> & _) end.
  by exists st'.
Qed.

Lemma update_Some st w dt :
  world st = Some w →
  update st dt
  = Ok ({| world := Some (World_step w (store st) dt).1;
           bodies := bodies st;
           positions :=
             mkF32 (next_buffer st) (zeros (JSMap.size (bodies st) * 3));
           quaternions :=
             mkF32 (S (next_buffer st)) (zeros (JSMap.size (bodies st) * 4));
           store := (World_step w (store st) dt).2;
           next_buffer := S (S (next_buffer st)) |},
        [ESync
           (mkF32 (buffer (positions st))
              (write_bodies (World_step w (store st) dt).2
                 (JSMap.values (bodies st)) 0
                 (data (positions st), data (quaternions st))).1)
           (mkF32 (buffer (quaternions st))
              (write_bodies (World_step w (store st) dt).2
                 (JSMap.values (bodies st)) 0
                 (data (positions st), data (quaternions st))).2)]).
Proof.
  intros Hw. unfold update. rewrite Hw. unfold World_step. cbn [fst snd].
  by destruct (write_bodies _ _ _ _).
Qed.

Lemma length_World_step w s dt : length (World_step w s dt).2 = length s.
Proof. apply length_imap. Qed.

Lemma body_of_Some st id r b :
  body_of st id = Some (r, b) ↔
  JSMap.get (bodies st) id = Some r ∧ store st !! r = Some b.
Proof.
  unfold body_of. destruct (JSMap.get (bodies st) id) as [r'|]; cbn.
  - destruct (store st !! r') as [b'|] eqn:Hb; cbn.
    + split; [intros [= -> ->]; done | intros [[= ->] ?]; congruence].
    + split; [done | intros [[= ->] ?]; congruence].
  - split; [done | intros [? _]; done].
Qed.

Lemma body_of_None st id :
  JSMap.get (bodies st) id = None → body_of st id = None.
Proof. intros Hg. unfold body_of. by rewrite Hg. Qed.

(** ** What holds of every state of the Worker *)

Lemma wf_new : Spec.wf new.
Proof.
  split; cbn; try done; try lia.
  - apply NoDup_nil_2.
  - intros r Hr. by apply elem_of_nil in Hr.
Qed.

Lemma wf_set_body st r b : Spec.wf st → Spec.wf (set_body st r b).
Proof.
  intros [? Hrefs ? ? ? ? ? ? ?]. split; cbn; try done.
  intros r' Hr'. rewrite length_insert. by apply Hrefs.
Qed.

Lemma wf_createBody st id options st' out :
  Spec.wf st → createBody st id options = Ok (st', out) → Spec.wf st'.
Proof.
  intros [Hk Hrefs Hw Hp Hq H3 H4 Hb3 Hb4] Hc.
  apply createBody_Ok in Hc as (shape & w & _ & Hworld & _ & Hr).
  destruct (resizeArrays_spec
    {| world := Some (World_addBody w (length (store st)));
       bodies := JSMap.set (bodies st) id (length (store st));
       positions := positions st; quaternions := quaternions st;
       store := store st ++ [new_Body options shape];
       next_buffer := next_buffer st |})
    as (st1 & Hr1 & Hw1 & Hbo1 & Hs1 & Hp1 & Hq1 & Hn1 & Hbp & Hbq).
  rewrite Hr in Hr1. injection Hr1 as <-. fields.
  split.
  - rewrite Hbo1. by apply JSMapFacts.NoDup_keys_set.
  - rewrite Hbo1, Hs1. intros r Hr'. rewrite length_app. cbn.
    apply JSMapFacts.values_set in Hr' as [->|Hr']; [lia |].
    apply Hrefs in Hr'. lia.
  - by rewrite Hw1.
  - unfold f32_length in *. rewrite Hp1, Hp, length_app, !length_zeros.
    by rewrite zeros_app.
  - unfold f32_length in *. rewrite Hq1, Hq, length_app, !length_zeros.
    by rewrite zeros_app.
  - unfold f32_length in *. rewrite Hbo1, Hp1, length_app, length_zeros. lia.
  - unfold f32_length in *. rewrite Hbo1, Hq1, length_app, length_zeros. lia.
  - lia.
  - lia.
Qed.

Lemma wf_removeBody st id st' out :
  Spec.wf st → removeBody st id = Ok (st', out) → Spec.wf st'.
Proof.
  intros Hwf. pose proof Hwf as [Hk Hrefs Hw Hp Hq H3 H4 Hb3 Hb4].
  unfold removeBody.
  destruct (JSMap.get (bodies st) id) as [r|]; [| by intros [= <- _]].
  destruct (world st) as [w|]; [| done]. intros [= <- _].
  split; fields; try done.
  - by apply JSMapFacts.NoDup_keys_delete.
  - intros r' Hr'. eapply Hrefs, JSMapFacts.values_delete, Hr'.
  - pose proof (JSMapFacts.size_delete_le (bodies st) id). lia.
  - pose proof (JSMapFacts.size_delete_le (bodies st) id). lia.
Qed.

Lemma wf_update st dt st' out :
  Spec.wf st → update st dt = Ok (st', out) → Spec.wf st'.
Proof.
  intros [Hk Hrefs Hw Hp Hq H3 H4 Hb3 Hb4].
  destruct (world st) as [w|] eqn:Hworld.
  - rewrite (update_Some st w dt Hworld). intros [= <- _].
    split; cbn; unfold f32_length; cbn; rewrite ?length_zeros;
      try done; try lia.
    intros r Hr. rewrite length_imap. by apply Hrefs.
  - unfold update. by rewrite Hworld.
Qed.

Lemma wf_handleMessage st m st' out :
  Spec.wf st → handleMessage st m = Ok (st', out) → Spec.wf st'.
Proof.
  intros Hwf. destruct m; cbn.
  - intros [= <- _]. destruct Hwf. by split.
  - by apply wf_createBody.
  - by apply wf_removeBody.
  - by apply wf_update.
  - unfold applyForce. destruct (body_of st id) as [[r b]|];
      intros [= <- _]; [by apply wf_set_body | done].
  - unfold applyImpulse. destruct (body_of st id) as [[r b]|];
      intros [= <- _]; [by apply wf_set_body | done].
  - unfold setPosition. destruct (body_of st id) as [[r b]|];
      intros [= <- _]; [by apply wf_set_body | done].
  - unfold setVelocity. destruct (body_of st id) as [[r b]|];
      intros [= <- _]; [by apply wf_set_body | done].
  - unfold getBodyProps. destruct (body_of st id) as [[r b]|];
      by intros [= <- _].
  - by intros [= <- _].
Qed.

Lemma wf_deliver st m : Spec.wf st → Spec.wf (deliver st m).1.
Proof.
  intros Hwf. unfold deliver.
  destruct (handleMessage st m) as [[st' out]|e] eqn:Hh; [| done].
  by eapply wf_handleMessage.
Qed.

Lemma run_cons st m rest :
  run st (m :: rest)
  = ((run (deliver st m).1 rest).1,
     (deliver st m).2 ++ (run (deliver st m).1 rest).2).
Proof.
  simpl. destruct (deliver st m) as [st1 out1]. simpl.
  by destruct (run st1 rest) as [st2 out2].
Qed.

Lemma run_app st ms1 ms2 :
  run st (ms1 ++ ms2)
  = ((run (run st ms1).1 ms2).1, (run st ms1).2 ++ (run (run st ms1).1 ms2).2).
Proof.
  revert st. induction ms1 as [|m ms1 IH]; intros st.
  - simpl. by destruct (run st ms2).
  - rewrite <- app_comm_cons, !run_cons, IH. simpl.
    by rewrite app_assoc.
Qed.

Lemma wf_run st ms : Spec.wf st → Spec.wf (run st ms).1.
Proof.
  revert st. induction ms as [|m ms IH]; intros st Hwf; [done |].
  rewrite run_cons. cbn [fst]. by apply IH, wf_deliver.
Qed.

Lemma reachable_wf st : Spec.reachable st → Spec.wf st.
Proof. intros [ms <-]. apply wf_run, wf_new. Qed.

Lemma reachable_new : Spec.reachable new.
Proof. by exists []. Qed.

Lemma reachable_run st ms : Spec.reachable st → Spec.reachable (run st ms).1.
Proof. intros [ms0 <-]. exists (ms0 ++ ms). by rewrite run_app. Qed.

End methods.
End WorkerFacts.

(** ** The Worker: claims *)

Module WorkerClaims.
Import PhysicsWorker ArrayFacts WorkerFacts.

Section claims.
Context `{CannonEngine} `{Float32}.

Lemma entry3_lookup (l : list Q) i (t : list Q) :
  length t = 3 → (∀ k, k < 3 → l !! (i * 3 + k) = t !! k) →
  Spec.entry3 l i = t.
Proof.
  intros Ht Hl. unfold Spec.entry3. apply list_eq. intros k.
  destruct (decide (k < 3)) as [Hk|Hk].
  - rewrite lookup_take_lt, lookup_drop by done. by apply Hl.
  - rewrite lookup_take_ge by lia. symmetry. apply lookup_ge_None. lia.
Qed.

Lemma entry4_lookup (l : list Q) i (t : list Q) :
  length t = 4 → (∀ k, k < 4 → l !! (i * 4 + k) = t !! k) →
  Spec.entry4 l i = t.
Proof.
  intros Ht Hl. unfold Spec.entry4. apply list_eq. intros k.
  destruct (decide (k < 4)) as [Hk|Hk].
  - rewrite lookup_take_lt, lookup_drop by done. by apply Hl.
  - rewrite lookup_take_ge by lia. symmetry. apply lookup_ge_None. lia.
Qed.

(** The frame that [update] posts from a well-formed state. *)
Lemma update_frame st w dt :
  Spec.wf st → world st = Some w →
  ∃ st' p q,
    update st dt = Ok (st', [ESync p q])
    ∧ world st' = Some (World_step w (store st) dt).1
    ∧ store st' = (World_step w (store st) dt).2
    ∧ bodies st' = bodies st
    ∧ buffer p = buffer (positions st) ∧ buffer q = buffer (quaternions st)
    ∧ data p
      = Spec.frame_positions (store st') (JSMap.values (bodies st))
        ++ zeros (f32_length (positions st) - JSMap.size (bodies st) * 3)
    ∧ data q
      = Spec.frame_quaternions (store st') (JSMap.values (bodies st))
        ++ zeros (f32_length (quaternions st) - JSMap.size (bodies st) * 4)
    ∧ positions st'
      = mkF32 (next_buffer st) (zeros (JSMap.size (bodies st) * 3))
    ∧ quaternions st'
      = mkF32 (S (next_buffer st)) (zeros (JSMap.size (bodies st) * 4))
    ∧ next_buffer st' = S (S (next_buffer st)).
Proof.
  intros [Hk Hrefs Hw Hp Hq H3 H4 Hb3 Hb4] Hworld.
  rewrite (update_Some st w dt Hworld).
  eexists _, _, _. split; [reflexivity |]. fields.
  repeat split; try reflexivity.
  - pose proof (write_bodies_frame (World_step w (store st) dt).2
      (JSMap.values (bodies st)) 0 [] (data (positions st)) []
      (data (quaternions st))) as Hf.
    cbn [app] in Hf. rewrite Hf; clear Hf; try done.
    + fields. cbn [app]. rewrite Hp at 1. rewrite drop_zeros.
      unfold JSMap.values, JSMap.size. by rewrite length_fmap.
    + intros r Hr. rewrite length_World_step. by apply Hrefs.
    + unfold JSMap.values. rewrite length_fmap. apply H3.
    + unfold JSMap.values. rewrite length_fmap. apply H4.
  - pose proof (write_bodies_frame (World_step w (store st) dt).2
      (JSMap.values (bodies st)) 0 [] (data (positions st)) []
      (data (quaternions st))) as Hf.
    cbn [app] in Hf. rewrite Hf; clear Hf; try done.
    + fields. cbn [app]. rewrite Hq at 1. rewrite drop_zeros.
      unfold JSMap.values, JSMap.size. by rewrite length_fmap.
    + intros r Hr. rewrite length_World_step. by apply Hrefs.
    + unfold JSMap.values. rewrite length_fmap. apply H3.
    + unfold JSMap.values. rewrite length_fmap. apply H4.
Qed.

(** A buffer the Worker has given away stays away from it. *)
Lemma gone_handleMessage st m st' out b :
  Spec.wf st → Spec.gone st b → handleMessage st m = Ok (st', out) →
  Spec.gone st' b.
Proof.
  intros Hwf (Hn & Hp & Hq). unfold Spec.gone. destruct m; cbn.
  - by intros [= <- _].
  - intros Hc. apply createBody_Ok in Hc as (shape & w & _ & _ & _ & Hr).
    match type of Hr with resizeArrays ?s = _ =>
      destruct (resizeArrays_spec s)
        as (st1 & Hr1 & _ & _ & _ & _ & _ & Hn1 & Hbp & Hbq) end.
    rewrite Hr in Hr1. injection Hr1 as <-. fields. lia.
  - unfold removeBody. destruct (JSMap.get (bodies st) id);
      [destruct (world st); [| done] |]; by intros [= <- _].
  - destruct (world st) as [w|] eqn:Hworld.
    + rewrite (update_Some st w dt Hworld). intros [= <- _]. fields. lia.
    + unfold update. by rewrite Hworld.
  - unfold applyForce. destruct (body_of st id) as [[r b']|];
      by intros [= <- _].
  - unfold applyImpulse. destruct (body_of st id) as [[r b']|];
      by intros [= <- _].
  - unfold setPosition. destruct (body_of st id) as [[r b']|];
      by intros [= <- _].
  - unfold setVelocity. destruct (body_of st id) as [[r b']|];
      by intros [= <- _].
  - unfold getBodyProps. destruct (body_of st id) as [[r b']|];
      by intros [= <- _].
  - by intros [= <- _].
Qed.

Lemma gone_run st ms b :
  Spec.wf st → Spec.gone st b → Spec.gone (run st ms).1 b.
Proof.
  revert st. induction ms as [|m ms IH]; intros st Hwf Hg; [done |].
  rewrite run_cons. cbn [fst]. apply IH; [by apply wf_deliver |].
  unfold deliver. destruct (handleMessage st m) as [[st' out]|e] eqn:Hh;
    [| done].
  by eapply gone_handleMessage.
Qed.

(** C6. On an initialised Worker, [Update(dt)] steps the world exactly once,
    by [dt]; posts exactly one Sync frame, which holds the triples and the
    quadruples of the registry's bodies in iteration order (followed by
    zeros when the arrays are longer than the registry needs); hands over the
    buffers of the two arrays it held; replaces them by two new arrays of
    [3 * liveBodyCount] and [4 * liveBodyCount] zeros on fresh buffers; and
    whatever it handles afterwards, it never holds the two buffers again. *)
Theorem update_steps_once_and_syncs st w dt :
  Spec.reachable st → world st = Some w →
  ∃ st' p q,
    handleMessage st (MUpdate dt) = Ok (st', [ESync p q])
    ∧ world st' = Some (World_step w (store st) dt).1
    ∧ stepnumber (World_step w (store st) dt).1 = S (stepnumber w)
    ∧ store st' = (World_step w (store st) dt).2
    ∧ bodies st' = bodies st
    ∧ data p
      = Spec.frame_positions (store st') (JSMap.values (bodies st))
        ++ zeros (f32_length (positions st) - JSMap.size (bodies st) * 3)
    ∧ data q
      = Spec.frame_quaternions (store st') (JSMap.values (bodies st))
        ++ zeros (f32_length (quaternions st) - JSMap.size (bodies st) * 4)
    ∧ buffer p = buffer (positions st) ∧ buffer q = buffer (quaternions st)
    ∧ data (positions st') = zeros (JSMap.size (bodies st') * 3)
    ∧ data (quaternions st') = zeros (JSMap.size (bodies st') * 4)
    ∧ ∀ later, Spec.gone (run st' later).1 (buffer p)
               ∧ Spec.gone (run st' later).1 (buffer q).
Proof.
  intros Hreach Hworld. pose proof (reachable_wf st Hreach) as Hwf.
  destruct (update_frame st w dt Hwf Hworld)
    as (st' & p & q & Hu & Hw' & Hs' & Hb' & Hbp & Hbq & Hdp & Hdq
        & Hp' & Hq' & Hn').
  exists st', p, q. cbn [handleMessage].
  split_and!; try done.
  - by rewrite Hp', Hb'.
  - by rewrite Hq', Hb'.
  - intros later. split.
    + apply gone_run; [by eapply wf_update |].
      destruct Hwf. unfold Spec.gone. rewrite Hn', Hp', Hq', Hbp. fields. lia.
    + apply gone_run; [by eapply wf_update |].
      destruct Hwf. unfold Spec.gone. rewrite Hn', Hp', Hq', Hbq. fields. lia.
Qed.

Lemma make_shape_spec options :
  make_shape options
  = if Spec.rejected options then
      Throw (ConfigError
               match o_type options with
               | BOX => "Box shape requires size"
               | SPHERE => "Sphere shape requires radius"
               | PLANE => "Plane"
               | OTHER tag => "Unsupported shape type: " +:+ tag
               end)
    else new_Shape (Spec.shape_of options).
Proof.
  unfold make_shape, Spec.rejected, Spec.shape_of.
  destruct (o_type options); [| | done | done].
  - by destruct (o_size options).
  - by destruct (falsy (o_radius options)).
Qed.

(** The radius that the Worker's test lets through is above or below zero,
    and not both. *)
Lemma truthy_radius radius :
  falsy (Some radius) = false → above_zero radius = negb (below_zero radius).
Proof.
  destruct radius as [| | |q]; cbn; [done | done | done |].
  intros Hz. rewrite negb_involutive.
  destruct (Qle_bool 0 q) eqn:H0q; destruct (Qle_bool q 0) eqn:Hq0; cbn;
    try done.
  - apply Qle_bool_iff in H0q, Hq0.
    assert (Qeq_bool q 0 = true) as Hz'
      by by apply Qeq_bool_iff, Qle_antisym.
    congruence.
  - assert (¬ (0 <= q)%Q) as Hn0 by (rewrite <- Qle_bool_iff; congruence).
    assert (¬ (q <= 0)%Q) as Hn1 by (rewrite <- Qle_bool_iff; congruence).
    apply Qnot_le_lt, Qlt_le_weak in Hn0. done.
Qed.

Lemma falsy_radius radius :
  falsy (Some radius) = true → above_zero radius = false.
Proof.
  destruct radius as [| | |q]; cbn; [done | done | done |].
  intros Hz%Qeq_bool_iff. apply negb_false_iff, Qle_bool_iff.
  rewrite Hz. apply Qle_refl.
Qed.

Lemma below_zero_truthy radius :
  below_zero radius = true → falsy (Some radius) = false.
Proof.
  destruct radius as [| | |q]; cbn; [done | done | done |].
  intros Hb. destruct (Qeq_bool q 0) eqn:Hz; [| done].
  apply Qeq_bool_iff in Hz. apply negb_true_iff in Hb.
  assert (Qle_bool 0 q = true) as Hle
    by (apply Qle_bool_iff; rewrite Hz; apply Qle_refl).
  congruence.
Qed.

(** With the constructors of cannon-es no shape is built exactly for the
    options of [Spec.unbuildable]. *)
Lemma make_shape_cannon `{!CannonShapes} options :
  make_shape options
  = if Spec.unbuildable options then
      if Spec.rejected options then make_shape options else Throw EngineError
    else Ok (Spec.shape_of options).
Proof.
  rewrite make_shape_spec.
  unfold Spec.unbuildable, Spec.rejected, Spec.shape_of, new_Shape.
  destruct (o_type options); [| | by rewrite Plane_returns | done].
  - rewrite Box_returns. by destruct (o_size options).
  - destruct (o_radius options) as [radius|]; [| done].
    cbn [default from_option id]. rewrite Sphere_returns.
    destruct (falsy (Some radius)) eqn:Hf.
    + by rewrite (falsy_radius radius Hf).
    + rewrite (truthy_radius radius Hf). by destruct (below_zero radius).
Qed.

(** C3, as the code has it.  With the shape constructors of cannon-es,
    [CreateBody] raises an error while it builds the shape exactly for a
    box without a size, a sphere whose radius is not positive, and an
    unsupported shape tag: for a sphere, a plane and an unsupported tag that
    is exactly when the shape invariant is violated; a box that has a size
    is built whatever the size.  The error is the Worker's own configuration
    error for a missing size, a radius that is missing, [NaN] or zero, and
    an unsupported tag, and the error of the engine's constructor for a
    negative radius.  For all other options, on an initialised Worker,
    construction succeeds and the new body is in the registry under the
    given id. *)
Theorem createBody_configuration_error `{Hshapes : !CannonShapes} st id
    options :
  ((∃ e, handleMessage st (MAddBody id options) = Throw e
         ∧ Spec.shape_error e = true)
   ↔ Spec.unbuildable options = true)
  ∧ (o_type options ≠ BOX →
     Spec.unbuildable options = negb (Spec.shape_invariant options))
  ∧ (o_type options = BOX →
     Spec.unbuildable options = bool_decide (o_size options = None))
  ∧ ((∃ msg, handleMessage st (MAddBody id options) = Throw (ConfigError msg))
     ↔ Spec.rejected options = true)
  ∧ (handleMessage st (MAddBody id options) = Throw EngineError
     ↔ o_type options = SPHERE
       ∧ ∃ radius, o_radius options = Some radius
                   ∧ below_zero radius = true)
  ∧ (Spec.unbuildable options = false →
     is_Some (world st) →
     ∃ st',
       handleMessage st (MAddBody id options) = Ok (st', [])
       ∧ JSMap.get (bodies st') id = Some (length (store st))
       ∧ store st' !! length (store st)
         = Some (new_Body options (Spec.shape_of options))).
Proof.
  assert (∀ shape e,
            make_shape options = Ok shape →
            createBody st id options = Throw e → e = TypeError) as Hlate.
  { intros shape e Hs Hc. unfold createBody in Hc. rewrite Hs in Hc.
    cbn in Hc. destruct (world st) as [w|]; [| by injection Hc].
    match type of Hc with context [resizeArrays ?s] =>
      destruct (resizeArrays_spec s) as (st1 & Hr & _) end.
    by rewrite Hr in Hc. }
  assert (∀ e, make_shape options = Throw e →
               createBody st id options = Throw e) as Hearly.
  { intros e Hs. unfold createBody. by rewrite Hs. }
  pose proof (make_shape_cannon options) as Hshape.
  pose proof (make_shape_spec options) as Hspec.
  cbn [handleMessage]. split_and!.
  - destruct (Spec.unbuildable options).
    + split; [done | intros _].
      destruct (Spec.rejected options).
      * eexists. split; [apply Hearly, Hspec | done].
      * exists EngineError. split; [by apply Hearly | done].
    + split; [| done]. intros (e & Hc & He).
      rewrite (Hlate _ e Hshape Hc) in He. done.
  - unfold Spec.unbuildable, Spec.shape_invariant.
    destruct (o_type options); [done | | done | done].
    by destruct (o_radius options).
  - unfold Spec.unbuildable. by intros ->.
  - split.
    + intros [msg Hc]. destruct (Spec.rejected options); [done |].
      unfold new_Shape in Hspec.
      destruct (shape_accepted (Spec.shape_of options)).
      * by pose proof (Hlate _ _ Hspec Hc).
      * rewrite (Hearly _ Hspec) in Hc. done.
    + intros Hrej. rewrite Hrej in Hspec. eexists. apply Hearly, Hspec.
  - split.
    + intros Hc.
      destruct (Spec.unbuildable options) eqn:Hu;
        [| by pose proof (Hlate _ _ Hshape Hc)].
      destruct (Spec.rejected options) eqn:Hrej.
      { rewrite (Hearly _ Hspec) in Hc. done. }
      unfold Spec.unbuildable, Spec.rejected in Hu, Hrej.
      destruct (o_type options); [congruence | | done | done].
      split; [done |].
      destruct (o_radius options) as [radius|]; [| done].
      exists radius. split; [done |].
      rewrite (truthy_radius radius Hrej) in Hu.
      by destruct (below_zero radius).
    + intros (Htype & radius & Hradius & Hbelow). apply Hearly.
      unfold make_shape. rewrite Htype, Hradius.
      cbn [default from_option Datatypes.id].
      unfold new_Shape.
      by rewrite Sphere_returns, Hbelow, (below_zero_truthy radius Hbelow).
  - intros Hu [w Hw]. rewrite Hu in Hshape.
    destruct (createBody_returns st id options (Spec.shape_of options) w)
      as (st' & Hc & Hr); [done | done |].
    match type of Hr with resizeArrays ?s = _ =>
      destruct (resizeArrays_spec s)
        as (st1 & Hr1 & _ & Hb1 & Hs1 & _) end.
    rewrite Hr in Hr1. injection Hr1 as <-. fields.
    exists st'. split; [done |]. rewrite Hb1, Hs1. split.
    + apply JSMapFacts.get_set_eq.
    + by rewrite lookup_app_r, Nat.sub_diag.
Qed.

(** Before [INIT] the state is the constructor's. *)
Lemma before_init_new ms :
  forallb (λ m, negb (Spec.initializes m)) ms = true →
  run new ms = (new, []).
Proof.
  induction ms as [|m ms IH]; [done |]. cbn [forallb].
  intros [Hm Hms]%andb_true_iff. rewrite run_cons.
  assert (deliver new m = (new, [])) as ->.
  { unfold deliver. destruct m; try done; cbn.
    - unfold createBody. by destruct (make_shape options). }
  cbn [fst snd]. by rewrite IH.
Qed.

(** C4, as the code has it.  However many commands other than [Initialize]
    the Worker has been sent, it is still in the state of its constructor and
    has posted nothing; there, [CreateBody] and [Update] raise an error, and
    every other command other than [Initialize] returns without an error,
    without a message and without any effect. *)
Theorem before_initialize ms m :
  forallb (λ m, negb (Spec.initializes m)) ms = true →
  Spec.initializes m = false →
  run new ms = (new, [])
  ∧ if Spec.needs_world m
    then ∃ e, handleMessage (run new ms).1 m = Throw e
    else handleMessage (run new ms).1 m = Ok ((run new ms).1, []).
Proof.
  intros Hms Hm. rewrite (before_init_new ms Hms). split; [done |].
  destruct m; try done; cbn.
  - unfold createBody. destruct (make_shape options); by eexists.
  - by eexists.
Qed.

(** C7. For a live body, [SetPosition(id, p)] followed at once by
    [GetBodyProperties(id)] yields exactly one response, whose position is
    [p]; the body's previous and interpolated positions are [p] too. *)
Theorem setPosition_then_getBodyProps st id p requestId r :
  Spec.reachable st → JSMap.get (bodies st) id = Some r →
  ∃ st1 props body,
    handleMessage st (MSetPosition id p) = Ok (st1, [])
    ∧ handleMessage st1 (MGetBodyProps id requestId)
      = Ok (st1, [EBodyProps props])
    ∧ p_position props = p
    ∧ p_requestId props = requestId
    ∧ body_of st1 id = Some (r, body)
    ∧ position body = p
    ∧ previousPosition body = p
    ∧ interpolatedPosition body = p.
Proof.
  intros Hreach Hget. pose proof (reachable_wf st Hreach) as Hwf.
  destruct (lookup_lt_is_Some_2 (store st) r) as [b Hb].
  { eapply Spec.wf_refs; [done |]. by eapply JSMapFacts.get_Some_values. }
  assert (body_of st id = Some (r, b)) as Hbody by by apply body_of_Some.
  cbn [handleMessage]. unfold setPosition. rewrite Hbody.
  eexists _, _, _. split; [reflexivity |].
  match goal with |- context [set_body st r ?b'] =>
    assert (body_of (set_body st r b') id = Some (r, b')) as Hbody' end.
  { apply body_of_Some. split; [done |]. cbn.
    apply list_lookup_insert_eq. by eapply lookup_lt_Some. }
  unfold getBodyProps. rewrite Hbody'. by split_and!.
Qed.

(** C8. [RemoveBody] for an id that is not in the registry returns without
    an error and leaves the whole state, the world included, as it was; and
    handling [RemoveBody(id)] twice leaves the Worker in the state that
    handling it once does. *)
Theorem removeBody_unknown_and_idempotent st id :
  (JSMap.get (bodies st) id = None →
   handleMessage st (MRemoveBody id) = Ok (st, []))
  ∧ run st [MRemoveBody id; MRemoveBody id] = run st [MRemoveBody id].
Proof.
  assert (∀ st', JSMap.get (bodies st') id = None →
                 removeBody st' id = Ok (st', [])) as Hnone.
  { intros st' Hg. unfold removeBody. by rewrite Hg. }
  split; [apply Hnone |].
  rewrite (run_cons st (MRemoveBody id) [MRemoveBody id]).
  destruct (deliver st (MRemoveBody id)) as [st1 out1] eqn:Hd. cbn [fst snd].
  assert (out1 = [] ∧ deliver st1 (MRemoveBody id) = (st1, [])) as [-> Hd1].
  { revert Hd. unfold deliver at 1. cbn [handleMessage].
    unfold removeBody at 1.
    destruct (JSMap.get (bodies st) id) as [r|] eqn:Hg.
    - destruct (world st) as [w|] eqn:Hw.
      + intros [= <- <-]. split; [done |]. unfold deliver. cbn [handleMessage].
        rewrite Hnone; [done |]. apply JSMapFacts.get_delete_eq.
      + intros [= <- <-]. split; [done |]. unfold deliver. cbn [handleMessage].
        unfold removeBody. by rewrite Hg, Hw.
    - intros [= <- <-]. split; [done |]. unfold deliver. cbn [handleMessage].
      by rewrite Hnone. }
  rewrite !run_cons, Hd1, Hd. by cbn.
Qed.

(** C9. When [CreateBody] returns, on any state of the Worker and whatever
    the arrays hold, the two arrays are at least [3 * liveBodyCount] and
    [4 * liveBodyCount] long and no shorter than they were, and they hold
    what they held, entry for entry, followed by zeros.  On a state that the
    Worker can be in, every body that was in the registry under another id
    keeps its entry: in the frame of the next [Update] its triple and its
    quadruple are at the index it had. *)
Theorem createBody_grows_arrays st id options st' out :
  handleMessage st (MAddBody id options) = Ok (st', out) →
  JSMap.size (bodies st') * 3 ≤ f32_length (positions st')
  ∧ JSMap.size (bodies st') * 4 ≤ f32_length (quaternions st')
  ∧ f32_length (positions st) ≤ f32_length (positions st')
  ∧ f32_length (quaternions st) ≤ f32_length (quaternions st')
  ∧ data (positions st) `prefix_of` data (positions st')
  ∧ data (quaternions st) `prefix_of` data (quaternions st')
  ∧ data (positions st')
    = data (positions st)
      ++ zeros (f32_length (positions st') - f32_length (positions st))
  ∧ data (quaternions st')
    = data (quaternions st)
      ++ zeros (f32_length (quaternions st') - f32_length (quaternions st))
  ∧ (∀ k x, data (positions st) !! k = Some x →
            data (positions st') !! k = Some x)
  ∧ (∀ k x, data (quaternions st) !! k = Some x →
            data (quaternions st') !! k = Some x)
  ∧ (Spec.reachable st →
     ∀ i id' r dt,
       bodies st !! i = Some (id', r) → id' ≠ id →
       bodies st' !! i = Some (id', r)
       ∧ ∃ st'' p q body,
           handleMessage st' (MUpdate dt) = Ok (st'', [ESync p q])
           ∧ store st'' !! r = Some body
           ∧ Spec.entry3 (data p) i = Spec.triple body
           ∧ Spec.entry4 (data q) i = Spec.quadruple body).
Proof.
  intros Hc. cbn [handleMessage] in *. pose proof Hc as Hc0.
  apply createBody_Ok in Hc as (shape & w & _ & Hworld & _ & Hr).
  match type of Hr with resizeArrays ?s = _ =>
    destruct (resizeArrays_spec s)
      as (st1 & Hr1 & Hw1 & Hb1 & Hs1 & Hp1 & Hq1 & _) end.
  rewrite Hr in Hr1. injection Hr1 as <-. fields.
  unfold f32_length.
  assert (length (data (positions st'))
          = length (data (positions st))
            + (JSMap.size (bodies st') * 3 - length (data (positions st))))
    as Hlp by (rewrite Hp1, length_app, length_zeros, Hb1; done).
  assert (length (data (quaternions st'))
          = length (data (quaternions st))
            + (JSMap.size (bodies st') * 4 - length (data (quaternions st))))
    as Hlq by (rewrite Hq1, length_app, length_zeros, Hb1; done).
  split_and!.
  - lia.
  - lia.
  - lia.
  - lia.
  - rewrite Hp1. by eexists.
  - rewrite Hq1. by eexists.
  - rewrite Hp1 at 1. f_equal. f_equal. rewrite Hb1 in Hlp.
    unfold f32_length. lia.
  - rewrite Hq1 at 1. f_equal. f_equal. rewrite Hb1 in Hlq.
    unfold f32_length. lia.
  - intros k x Hk. rewrite Hp1. by apply lookup_app_l_Some.
  - intros k x Hk. rewrite Hq1. by apply lookup_app_l_Some.
  - intros Hreach i id' r dt Hi Hne.
    pose proof (reachable_wf st Hreach) as Hwf.
    pose proof (wf_createBody st id options st' out Hwf Hc0) as Hwf'.
    assert (bodies st' !! i = Some (id', r)) as Hi'.
    { rewrite Hb1. clear -Hi Hne. revert i Hi.
      induction (bodies st) as [|[k v] m IH]; intros i Hi; [done |].
      cbn [JSMap.set]. destruct i as [|i]; cbn in Hi.
      - injection Hi as -> ->. by rewrite decide_False.
      - destruct (decide (k = id)); [done |]. cbn. by apply IH. }
    split; [done |].
    destruct (update_frame st' (World_addBody w (length (store st))) dt Hwf' Hw1)
      as (st'' & p & q & Hu & _ & Hs'' & _ & _ & _ & Hdp & Hdq & _).
    assert (JSMap.values (bodies st') !! i = Some r) as Hvi.
    { unfold JSMap.values. by rewrite list_lookup_fmap, Hi'. }
    assert (∀ r0, r0 ∈ JSMap.values (bodies st') → r0 < length (store st''))
      as Hrefs.
    { intros r0 Hr0. rewrite Hs'', length_World_step.
      by apply (Spec.wf_refs _ Hwf'). }
    destruct (lookup_lt_is_Some_2 (store st'') r) as [body Hbody].
    { apply Hrefs. eapply list_elem_of_lookup_2, Hvi. }
    exists st'', p, q, body. split_and!; [done | done | |].
    + apply entry3_lookup; [done |]. intros k Hk. rewrite Hdp.
      rewrite lookup_app_l.
      * by eapply frame_positions_entry.
      * rewrite length_frame_positions by done.
        apply lookup_lt_Some in Hvi. lia.
    + apply entry4_lookup; [done |]. intros k Hk. rewrite Hdq.
      rewrite lookup_app_l.
      * by eapply frame_quaternions_entry.
      * rewrite length_frame_quaternions by done.
        apply lookup_lt_Some in Hvi. lia.
Qed.

(** The Worker's half of C5: a query for an id that is not in the registry
    posts nothing, and a query for an id that is posts exactly one response,
    with the request identifier of the query. *)
Lemma getBodyProps_unknown st id requestId :
  JSMap.get (bodies st) id = None →
  handleMessage st (MGetBodyProps id requestId) = Ok (st, []).
Proof.
  intros Hg. cbn. unfold getBodyProps. by rewrite body_of_None.
Qed.

Lemma getBodyProps_known st id requestId r :
  Spec.reachable st → JSMap.get (bodies st) id = Some r →
  ∃ props,
    handleMessage st (MGetBodyProps id requestId) = Ok (st, [EBodyProps props])
    ∧ p_requestId props = requestId.
Proof.
  intros Hreach Hget. pose proof (reachable_wf st Hreach) as Hwf.
  destruct (lookup_lt_is_Some_2 (store st) r) as [b Hb].
  { eapply Spec.wf_refs; [done |]. by eapply JSMapFacts.get_Some_values. }
  assert (body_of st id = Some (r, b)) as Hbody by by apply body_of_Some.
  cbn. unfold getBodyProps. rewrite Hbody. by eexists.
Qed.

(** A response carries the request identifier of a query that was handled. *)
Lemma run_answers st ms requestId :
  (∀ id, MGetBodyProps id requestId ∉ ms) →
  ∀ e, e ∈ (run st ms).2 → Spec.answers requestId e = false.
Proof.
  revert st. induction ms as [|m ms IH]; intros st Hms e He.
  - by apply elem_of_nil in He.
  - rewrite run_cons in He. cbn [snd] in He.
    apply elem_of_app in He as [He|He].
    + assert (∀ id, m ≠ MGetBodyProps id requestId) as Hm.
      { intros id' ->. eapply Hms, list_elem_of_here. }
      revert He. unfold deliver.
      destruct (handleMessage st m) as [[st' out]|err] eqn:Hh;
        [| by intros ?%elem_of_nil].
      cbn [snd]. destruct m; cbn in Hh.
      * injection Hh as <- <-. by intros ?%elem_of_nil.
      * apply createBody_Ok in Hh as (? & ? & _ & _ & -> & _).
        by intros ?%elem_of_nil.
      * unfold removeBody in Hh. destruct (JSMap.get (bodies st) id);
          [destruct (world st); [| done] |]; injection Hh as <- <-;
          by intros ?%elem_of_nil.
      * destruct (world st) as [w|] eqn:Hw.
        -- rewrite (update_Some st w dt Hw) in Hh. injection Hh as <- <-.
           by intros ->%list_elem_of_singleton.
        -- unfold update in Hh. by rewrite Hw in Hh.
      * unfold applyForce in Hh. destruct (body_of st id) as [[? ?]|];
          injection Hh as <- <-; by intros ?%elem_of_nil.
      * unfold applyImpulse in Hh. destruct (body_of st id) as [[? ?]|];
          injection Hh as <- <-; by intros ?%elem_of_nil.
      * unfold setPosition in Hh. destruct (body_of st id) as [[? ?]|];
          injection Hh as <- <-; by intros ?%elem_of_nil.
      * unfold setVelocity in Hh. destruct (body_of st id) as [[? ?]|];
          injection Hh as <- <-; by intros ?%elem_of_nil.
      * unfold getBodyProps in Hh. destruct (body_of st id) as [[? ?]|];
          injection Hh as <- <-.
        -- intros ->%list_elem_of_singleton. cbn.
           apply bool_decide_eq_false. intros ->. by eapply Hm.
        -- by intros ?%elem_of_nil.
      * injection Hh as <- <-. by intros ?%elem_of_nil.
    + eapply IH; [| done]. intros id' Hin. eapply Hms, list_elem_of_further, Hin.
Qed.

End claims.
End WorkerClaims.

(** ** The Coordinator *)

Module CoordinatorFacts.
Import PhysicsWorld.

Lemma coordinator_cons ps a rest :
  Protocol.coordinator ps (a :: rest)
  = ((Protocol.coordinator (Protocol.act ps a).1 rest).1,
     (Protocol.act ps a).2
     ++ (Protocol.coordinator (Protocol.act ps a).1 rest).2).
Proof.
  simpl. destruct (Protocol.act ps a) as [ps1 out1]. simpl.
  by destruct (Protocol.coordinator ps1 rest) as [ps2 out2].
Qed.

Lemma coordinator_app ps as1 as2 :
  Protocol.coordinator ps (as1 ++ as2)
  = ((Protocol.coordinator (Protocol.coordinator ps as1).1 as2).1,
     (Protocol.coordinator ps as1).2
     ++ (Protocol.coordinator (Protocol.coordinator ps as1).1 as2).2).
Proof.
  revert ps. induction as1 as [|a as1 IH]; intros ps.
  - simpl. by destruct (Protocol.coordinator ps as2).
  - rewrite <- app_comm_cons, !coordinator_cons, IH. simpl.
    by rewrite app_assoc.
Qed.

(** *** [update] *)

Lemma capped_dt_spec now last :
  ((now - last) / 1000 <= 1 / 30 →
   capped_dt now last = ((now - last) / 1000)%Q)%Q
  ∧ (1 / 30 < (now - last) / 1000 → capped_dt now last = (1 / 30)%Q)%Q
  ∧ (capped_dt now last <= 1 / 30)%Q.
Proof.
  unfold capped_dt.
  destruct (Qle_bool ((now - last) / 1000) (1 / 30)) eqn:Hle; cbn [negb].
  - apply Qle_bool_iff in Hle. split_and!; [done | | done].
    intros Hlt. by apply Qlt_not_le in Hlt.
  - assert (¬ ((now - last) / 1000 <= 1 / 30)%Q) as Hnle.
    { intros Hle'%Qle_bool_iff. congruence. }
    split_and!; [done | done |]. apply Qle_refl.
Qed.

Lemma act_lastUpdateTime ps a :
  Spec.updates a = false →
  lastUpdateTime (Protocol.act ps a).1.1 = lastUpdateTime ps.1.
Proof.
  destruct ps as [pw scene]. destruct a as [c|e]; cbn.
  - destruct c; try done.
  - intros _. destruct e; try done. cbn.
    by destruct (bodyPropsCallbacks pw !! p_requestId props).
Qed.

Lemma coordinator_lastUpdateTime ps actions :
  forallb (λ a, negb (Spec.updates a)) actions = true →
  lastUpdateTime (Protocol.coordinator ps actions).1.1 = lastUpdateTime ps.1.
Proof.
  revert ps. induction actions as [|a actions IH]; intros ps; [done |].
  cbn [forallb]. intros [Ha Has]%andb_true_iff. apply negb_true_iff in Ha.
  rewrite coordinator_cons. cbn [fst]. rewrite IH by done.
  by apply act_lastUpdateTime.
Qed.

(** C2. The [dt] that [update] sends is the time read from the clock minus
    the time read at the previous [update], in seconds, whatever the
    Coordinator did in between, unless that exceeds 1/30, and then it is
    1/30; no [update], the first included, sends more than 1/30. *)
Theorem update_dt_capped ps t1 between t2 :
  forallb (λ a, negb (Spec.updates a)) between = true →
  let ps1 := (Protocol.act ps (Protocol.Invoke (Protocol.Update t1))).1 in
  let ps2 := (Protocol.coordinator ps1 between).1 in
  let elapsed := ((t2 - t1) / 1000)%Q in
  (∃ dt1,
     (Protocol.act ps (Protocol.Invoke (Protocol.Update t1))).2 = [MUpdate dt1]
     ∧ (dt1 <= 1 / 30)%Q)
  ∧ lastUpdateTime ps2.1 = t1
  ∧ ∃ dt,
      (Protocol.act ps2 (Protocol.Invoke (Protocol.Update t2))).2
      = [MUpdate dt]
      ∧ ((elapsed <= 1 / 30)%Q → dt = elapsed)
      ∧ ((1 / 30 < elapsed)%Q → dt = (1 / 30)%Q)
      ∧ (dt <= 1 / 30)%Q.
Proof.
  intros Hbetween ps1 ps2 elapsed.
  assert (lastUpdateTime ps2.1 = t1) as Hlast.
  { unfold ps2. by rewrite coordinator_lastUpdateTime. }
  split_and!; [| done |].
  - exists (capped_dt t1 (lastUpdateTime ps.1)). split.
    + by destruct ps.
    + apply capped_dt_spec.
  - exists (capped_dt t2 t1). split.
    + cbn. unfold update. by rewrite Hlast.
    + apply capped_dt_spec.
Qed.

(** *** [updateObjects] *)

Lemma length_update_object P Q scene o i :
  length (update_object P Q scene o i) = length scene.
Proof.
  unfold update_object. case_decide; [apply length_insert | done].
Qed.

Lemma length_update_from P Q refs : ∀ i scene,
  length (update_from P Q refs i scene) = length scene.
Proof.
  induction refs as [|o refs IH]; intros i scene; [done |].
  cbn [update_from]. by rewrite IH, length_update_object.
Qed.

Lemma update_object_ne P Q scene o i o' :
  o ≠ o' → update_object P Q scene o i !! o' = scene !! o'.
Proof.
  intros Hne. unfold update_object. case_decide; [| done].
  by apply list_lookup_insert_ne.
Qed.

Lemma update_object_eq P Q scene o i :
  o < length scene →
  update_object P Q scene o i !! o
  = if decide (i * 3 < length P ∧ i * 4 < length Q)
    then Some (Spec.rendered P Q i)
    else scene !! o.
Proof.
  intros Ho. unfold update_object. case_decide; [| done].
  by apply list_lookup_insert_eq.
Qed.

(** Objects that are not in the registry are not touched. *)
Lemma update_from_other P Q refs o : ∀ i scene,
  o ∉ refs → update_from P Q refs i scene !! o = scene !! o.
Proof.
  induction refs as [|r refs IH]; intros i scene Ho; [done |].
  apply not_elem_of_cons in Ho as [Hne Ho].
  cbn [update_from]. rewrite IH by done. by apply update_object_ne.
Qed.

(** The object at index [j] of a registry of distinct objects gets entry
    [i + j], if the frame has it. *)
Lemma update_from_at P Q refs : ∀ i scene j o,
  NoDup refs → refs !! j = Some o → o < length scene →
  update_from P Q refs i scene !! o
  = if decide ((i + j) * 3 < length P ∧ (i + j) * 4 < length Q)
    then Some (Spec.rendered P Q (i + j))
    else scene !! o.
Proof.
  induction refs as [|r refs IH]; intros i scene j o Hnd Hj Ho; [done |].
  apply NoDup_cons in Hnd as [Hr Hnd]. cbn [update_from].
  destruct j as [|j]; cbn in Hj.
  - injection Hj as ->. rewrite update_from_other by done.
    rewrite Nat.add_0_r. by apply update_object_eq.
  - assert (r ≠ o) as Hne.
    { intros ->. apply Hr. by eapply list_elem_of_lookup_2. }
    rewrite (IH (S i) _ j o) by (by rewrite ?length_update_object).
    replace (S i + j) with (i + S j) by lia.
    by rewrite update_object_ne.
Qed.

Lemma rendered_defined P Q i :
  i * 3 + 2 < length P → i * 4 + 3 < length Q →
  Spec.defined (Spec.rendered P Q i).
Proof.
  intros H3 H4. unfold Spec.defined, Spec.rendered. cbn.
  split_and!; apply lookup_lt_is_Some_2; lia.
Qed.

(** C10. When the frame has [K] entries, every object that the registry
    holds at an index below [K] gets the entry of its index, each component
    of which is an element of the arrays; every object at index [K] or
    beyond, and every object that is not in the registry, is left as it
    was.  The objects of the registry are distinct and exist. *)
Theorem updateObjects_short_frame pw p q scene K :
  f32_length p = K * 3 → f32_length q = K * 4 →
  NoDup (JSMap.values (objects pw)) →
  (∀ i o, JSMap.values (objects pw) !! i = Some o →
     o < length scene →
     (i < K →
      (handleMessage pw scene (ESync p q)).2 !! o
      = Some (Spec.rendered (data p) (data q) i)
      ∧ Spec.defined (Spec.rendered (data p) (data q) i))
     ∧ (K ≤ i → (handleMessage pw scene (ESync p q)).2 !! o = scene !! o))
  ∧ (∀ o, o ∉ JSMap.values (objects pw) →
       (handleMessage pw scene (ESync p q)).2 !! o = scene !! o)
  ∧ (handleMessage pw scene (ESync p q)).1 = pw.
Proof.
  unfold f32_length. intros Hp Hq Hnd. cbn [handleMessage fst snd].
  unfold updateObjects. split_and!; [| | done].
  - intros i o Hi Ho.
    rewrite (update_from_at _ _ _ 0 scene i o) by done. cbn [Nat.add].
    split.
    + intros HiK. rewrite decide_True by lia. split; [done |].
      apply rendered_defined; lia.
    + intros HiK. rewrite decide_False; [done | lia].
  - intros o Ho. by apply update_from_other.
Qed.

(** *** The pending queries *)

Lemma callbacks_wf_new : Spec.callbacks_wf new.1.
Proof. intros k q. cbn. by rewrite lookup_empty. Qed.

Lemma callbacks_wf_act ps a :
  Spec.callbacks_wf ps.1 → Spec.callbacks_wf (Protocol.act ps a).1.1.
Proof.
  destruct ps as [pw scene]. unfold Spec.callbacks_wf. intros Hwf.
  cbn [fst] in Hwf. destruct a as [c|e]; cbn.
  - destruct c; cbn; try done.
    intros k q. rewrite length_app. cbn. intros Hk.
    apply lookup_insert_Some in Hk as [[_ <-]|[_ Hk]]; [lia |].
    apply Hwf in Hk. lia.
  - destruct e; cbn; try done.
    destruct (bodyPropsCallbacks pw !! p_requestId props) as [cb|] eqn:Hcb;
      cbn; [| done].
    intros k q Hk. rewrite length_insert.
    apply lookup_delete_Some in Hk as [_ Hk]. by eapply Hwf.
Qed.

Lemma callbacks_wf_coordinator ps actions :
  Spec.callbacks_wf ps.1 →
  Spec.callbacks_wf (Protocol.coordinator ps actions).1.1.
Proof.
  revert ps. induction actions as [|a actions IH]; intros ps Hwf; [done |].
  rewrite coordinator_cons. cbn [fst]. by apply IH, callbacks_wf_act.
Qed.

(** The query registers its callback for a new, pending promise. *)
Lemma waiting_query pw scene id rid :
  Spec.callbacks_wf pw →
  Spec.waiting
    (Protocol.act (pw, scene)
       (Protocol.Invoke (Protocol.GetBodyProperties id rid))).1.1
    rid (length (promises pw)).
Proof.
  intros Hwf. cbn. split; cbn.
  - apply lookup_insert_eq.
  - by rewrite lookup_app_r, Nat.sub_diag.
  - intros k Hk. apply lookup_insert_Some in Hk as [[? _]|[_ Hk]]; [done |].
    apply Hwf in Hk. lia.
  - apply (callbacks_wf_act (pw, scene)
             (Protocol.Invoke (Protocol.GetBodyProperties id rid)) Hwf).
Qed.

(** It keeps waiting as long as no response to it arrives and its
    identifier is not used again. *)
Lemma waiting_act ps a rid promise :
  Spec.queries rid a = false →
  match a with Protocol.Receive e => Spec.answers rid e = false | _ => True end →
  Spec.waiting ps.1 rid promise →
  Spec.waiting (Protocol.act ps a).1.1 rid promise.
Proof.
  destruct ps as [pw scene]. intros Hq Ha Hw.
  pose proof Hw as [Hcb Hpend Honly Hwf].
  split; [| | | by apply (callbacks_wf_act (pw, scene) a)];
    destruct a as [c|e]; cbn in *.
  - destruct c; cbn; try done. apply bool_decide_eq_false in Hq.
    by rewrite lookup_insert_ne.
  - destruct e; cbn; try done. apply bool_decide_eq_false in Ha.
    destruct (bodyPropsCallbacks pw !! p_requestId props); cbn; [| done].
    by rewrite lookup_delete_ne.
  - destruct c; cbn; try done. rewrite lookup_app_l; [done |].
    by eapply lookup_lt_Some.
  - destruct e; cbn; try done. apply bool_decide_eq_false in Ha.
    destruct (bodyPropsCallbacks pw !! p_requestId props) as [cb|] eqn:Hcb';
      cbn; [| done].
    rewrite list_lookup_insert_ne; [done |].
    intros ->. by apply Honly in Hcb'.
  - destruct c; cbn; try done. apply bool_decide_eq_false in Hq.
    intros k Hk. apply lookup_insert_Some in Hk as [[_ Hk]|[_ Hk]].
    + apply lookup_lt_Some in Hpend. lia.
    + by apply Honly.
  - destruct e; cbn; try done.
    destruct (bodyPropsCallbacks pw !! p_requestId props); cbn; [| done].
    intros k Hk. apply lookup_delete_Some in Hk as [_ Hk]. by apply Honly.
Qed.

Lemma waiting_coordinator actions : ∀ ps rid promise,
  forallb (λ a, negb (Spec.queries rid a)) actions = true →
  (∀ e, e ∈ Protocol.received actions → Spec.answers rid e = false) →
  Spec.waiting ps.1 rid promise →
  Spec.waiting (Protocol.coordinator ps actions).1.1 rid promise.
Proof.
  induction actions as [|a actions IH]; intros ps rid promise Hq Hr Hw;
    [done |].
  cbn [forallb] in Hq. apply andb_true_iff in Hq as [Ha Hq].
  apply negb_true_iff in Ha.
  rewrite coordinator_cons. cbn [fst]. apply IH; [done | |].
  - intros e He. apply Hr. unfold Protocol.received. cbn [omap].
    destruct a; [done |]. by apply list_elem_of_further.
  - apply waiting_act; [done | | done].
    destruct a as [c|e]; [done |]. apply Hr. unfold Protocol.received.
    cbn [omap]. apply list_elem_of_here.
Qed.

End CoordinatorFacts.

(** ** The two contexts together *)

Module ProtocolClaims.
Import ArrayFacts WorkerFacts WorkerClaims CoordinatorFacts.

Section claims.
Context `{CannonEngine} `{Float32}.

Lemma session_eq scene actions :
  Spec.session scene actions
  = ((Protocol.coordinator (PhysicsWorld.new.1, scene) actions).1,
     PhysicsWorld.new.2
     ++ (Protocol.coordinator (PhysicsWorld.new.1, scene) actions).2).
Proof.
  unfold Spec.session.
  by destruct (Protocol.coordinator (PhysicsWorld.new.1, scene) actions).
Qed.

Lemma session_app scene as1 as2 :
  Spec.session scene (as1 ++ as2)
  = ((Protocol.coordinator (Spec.session scene as1).1 as2).1,
     (Spec.session scene as1).2
     ++ (Protocol.coordinator (Spec.session scene as1).1 as2).2).
Proof.
  rewrite !session_eq, coordinator_app. cbn [fst snd]. by rewrite app_assoc.
Qed.

Lemma worker_of_app scene as1 as2 :
  Spec.worker_of scene (as1 ++ as2)
  = ((PhysicsWorker.run (Spec.worker_of scene as1).1
        (Protocol.coordinator (Spec.session scene as1).1 as2).2).1,
     (Spec.worker_of scene as1).2
     ++ (PhysicsWorker.run (Spec.worker_of scene as1).1
           (Protocol.coordinator (Spec.session scene as1).1 as2).2).2).
Proof.
  unfold Spec.worker_of. rewrite session_app. cbn [snd]. by rewrite run_app.
Qed.

Lemma reachable_worker_of scene actions :
  Spec.reachable (Spec.worker_of scene actions).1.
Proof. by eexists. Qed.

(** *** Queries *)

(** The Coordinator posts a query for [rid] only when it is asked to. *)
Lemma coordinator_queries actions : ∀ ps rid,
  forallb (λ a, negb (Spec.queries rid a)) actions = true →
  ∀ id, MGetBodyProps id rid ∉ (Protocol.coordinator ps actions).2.
Proof.
  induction actions as [|a actions IH]; intros ps rid Hq id.
  - apply not_elem_of_nil.
  - cbn [forallb] in Hq. apply andb_true_iff in Hq as [Ha Hq].
    apply negb_true_iff in Ha. rewrite coordinator_cons. cbn [snd].
    rewrite elem_of_app. intros [Hin|Hin]; [| by eapply IH].
    destruct ps as [pw scene]. destruct a as [c|e]; cbn in Hin.
    + destruct c; cbn in Hin; apply list_elem_of_singleton in Hin;
        try discriminate Hin.
      injection Hin as -> ->. cbn in Ha. by apply bool_decide_eq_false in Ha.
    + by apply elem_of_nil in Hin.
Qed.

Lemma session_queries scene actions rid :
  forallb (λ a, negb (Spec.queries rid a)) actions = true →
  ∀ id, MGetBodyProps id rid ∉ (Spec.session scene actions).2.
Proof.
  intros Hq id. rewrite session_eq. cbn [snd]. rewrite elem_of_app.
  intros [Hin|Hin].
  - cbn in Hin. by apply list_elem_of_singleton in Hin.
  - by eapply coordinator_queries.
Qed.

Lemma filter_answers_nil rid (events : list PhysicsWorkerOutgoingMessage) :
  (∀ e, e ∈ events → Spec.answers rid e = false) →
  filter (λ e, Spec.answers rid e) events = [].
Proof.
  induction events as [|e events IH]; intros Hall; [done |].
  rewrite filter_cons_False.
  - apply IH. intros e' He'. by apply Hall, list_elem_of_further.
  - rewrite (Hall e); [by intros [] | apply list_elem_of_here].
Qed.

(** C5. A query whose request identifier no other query uses.  If its id
    is not in the registry when the Worker takes it, the Worker posts
    nothing for it, then or ever, so that, whatever the Coordinator does
    and receives afterwards, the callback stays in the table and the promise
    stays pending.  If its id is in the registry, the Worker posts exactly
    one response with the request identifier, and no other ever. *)
Theorem getBodyProperties_response scene before id rid after :
  forallb (λ a, negb (Spec.queries rid a)) (before ++ after) = true →
  let actions :=
    before ++ Protocol.Invoke (Protocol.GetBodyProperties id rid) :: after in
  (∀ e, e ∈ Protocol.received actions →
        e ∈ (Spec.worker_of scene actions).2) →
  let wk := (Spec.worker_of scene before).1 in
  let pw := (Spec.session scene actions).1.1 in
  let promise :=
    length (PhysicsWorld.promises (Spec.session scene before).1.1) in
  match JSMap.get (PhysicsWorker.bodies wk) id with
  | None =>
      PhysicsWorker.handleMessage wk (MGetBodyProps id rid) = Ok (wk, [])
      ∧ filter (λ e, Spec.answers rid e) (Spec.worker_of scene actions).2 = []
      ∧ PhysicsWorld.bodyPropsCallbacks pw !! rid = Some promise
      ∧ PhysicsWorld.promises pw !! promise = Some None
  | Some _ =>
      ∃ props,
        PhysicsWorker.handleMessage wk (MGetBodyProps id rid)
        = Ok (wk, [EBodyProps props])
        ∧ p_requestId props = rid
        ∧ filter (λ e, Spec.answers rid e) (Spec.worker_of scene actions).2
          = [EBodyProps props]
  end.
Proof.
  intros Hfresh actions Hrecv wk pw promise.
  rewrite forallb_app in Hfresh. apply andb_true_iff in Hfresh as [Hb Ha].
  set (query := Protocol.Invoke (Protocol.GetBodyProperties id rid)) in *.
  (* the Worker's messages, in three parts *)
  assert (Spec.worker_of scene actions
          = ((PhysicsWorker.run (PhysicsWorker.deliver wk
                                   (MGetBodyProps id rid)).1
                (Protocol.coordinator
                   (Protocol.act (Spec.session scene before).1 query).1
                   after).2).1,
             (Spec.worker_of scene before).2
             ++ (PhysicsWorker.deliver wk (MGetBodyProps id rid)).2
             ++ (PhysicsWorker.run (PhysicsWorker.deliver wk
                                      (MGetBodyProps id rid)).1
                   (Protocol.coordinator
                      (Protocol.act (Spec.session scene before).1 query).1
                      after).2).2)) as Hevents.
  { unfold actions. rewrite worker_of_app, coordinator_cons. cbn [fst snd].
    assert (∀ ps, (Protocol.act ps query).2 = [MGetBodyProps id rid]) as ->
      by by intros [? ?].
    cbn [app]. by rewrite run_cons. }
  assert (∀ e, e ∈ (Spec.worker_of scene before).2 →
               Spec.answers rid e = false) as Hev1.
  { apply run_answers. by apply session_queries. }
  assert (∀ st e,
            e ∈ (PhysicsWorker.run st
                   (Protocol.coordinator
                      (Protocol.act (Spec.session scene before).1 query).1
                      after).2).2 →
            Spec.answers rid e = false) as Hev3.
  { intros st. apply run_answers. by apply coordinator_queries. }
  destruct (JSMap.get (PhysicsWorker.bodies wk) id) as [r|] eqn:Hget.
  - destruct (getBodyProps_known wk id rid r) as (props & Hh & Hrid);
      [apply reachable_worker_of | done |].
    exists props. split_and!; [done | done |].
    rewrite Hevents. cbn [snd]. unfold PhysicsWorker.deliver. rewrite Hh.
    cbn [fst snd]. rewrite !filter_app.
    rewrite (filter_answers_nil rid (Spec.worker_of scene before).2) by done.
    rewrite (filter_answers_nil rid (PhysicsWorker.run _ _).2)
      by apply Hev3.
    rewrite filter_cons_True; [done |].
    cbn. by rewrite Hrid, bool_decide_true.
  - pose proof (getBodyProps_unknown wk id rid Hget) as Hh.
    assert (∀ e, e ∈ (Spec.worker_of scene actions).2 →
                 Spec.answers rid e = false) as Hnone.
    { intros e. rewrite Hevents. cbn [snd]. unfold PhysicsWorker.deliver.
      rewrite Hh. cbn [fst snd app]. rewrite elem_of_app. intros [?|?]; eauto. }
    assert (Spec.waiting pw rid promise) as [Hcb Hpend _ _].
    { unfold pw, actions. rewrite session_app, coordinator_cons. cbn [fst].
      apply waiting_coordinator; [done | |].
      - intros e He. apply Hnone, Hrecv. unfold actions, Protocol.received.
        rewrite omap_app. apply elem_of_app. right. cbn [omap]. exact He.
      - unfold promise.
        destruct (Spec.session scene before).1 as [pw0 sc0] eqn:Hs0.
        apply waiting_query.
        replace pw0 with (Spec.session scene before).1.1 by by rewrite Hs0.
        rewrite session_eq. cbn [fst].
        apply callbacks_wf_coordinator, callbacks_wf_new. }
    split_and!; [done | by apply filter_answers_nil | done | done].
Qed.

(** *** The two registries *)

Lemma added_cons a rest :
  Spec.added (a :: rest) = Spec.added [a] ++ Spec.added rest.
Proof. unfold Spec.added. cbn [omap]. by destruct a as [[]|]. Qed.









Lemma length_scene_act ps a : length (Protocol.act ps a).1.2 = length ps.2.
Proof.
  destruct ps as [pw scene]. destruct a as [c|e]; cbn.
  - by destruct c.
  - destruct e; cbn; try done.
    + apply length_update_from.
    + by destruct (PhysicsWorld.bodyPropsCallbacks pw !! p_requestId props).
Qed.

Lemma length_scene_coordinator actions : ∀ ps,
  length (Protocol.coordinator ps actions).1.2 = length ps.2.
Proof.
  induction actions as [|a actions IH]; intros ps; [done |].
  rewrite coordinator_cons. cbn [fst]. by rewrite IH, length_scene_act.
Qed.

Lemma rendered_shows p q i body :
  (∀ k, k < 3 → p !! (i * 3 + k) = Spec.triple body !! k) →
  (∀ k, k < 4 → q !! (i * 4 + k) = Spec.quadruple body !! k) →
  Spec.rendered p q i = Spec.shows body.
Proof.
  intros Hp Hq. unfold Spec.rendered, Spec.shows.
  pose proof (Hp 0) as Hp0. pose proof (Hq 0) as Hq0.
  rewrite Nat.add_0_r in Hp0, Hq0.
  rewrite Hp0, (Hp 1), (Hp 2), Hq0, (Hq 1), (Hq 2), (Hq 3) by lia.
  done.
Qed.


End claims.
End ProtocolClaims.

(** * More properties *)

Lemma filter_all {A} (P : A → Prop) `{∀ x, Decision (P x)} (l : list A) :
  (∀ x, x ∈ l → P x) → filter P l = l.
Proof.
  induction l as [|x l IH]; intros Hall; [done |].
  rewrite filter_cons_True by apply Hall, list_elem_of_here.
  f_equal. apply IH. intros y Hy. by apply Hall, list_elem_of_further.
Qed.

(** ** More about the [Map] operations *)

Module JSMapMore.
Section facts.
Context {K V : Type} `{EqDecision K}.
Implicit Types (m : list (K * V)) (k : K) (v : V).

Lemma get_delete_ne m k k' :
  k ≠ k' → JSMap.get (JSMap.delete m k) k' = JSMap.get m k'.
Proof.
  intros Hne. induction m as [|[k0 v0] m IH]; [done |].
  cbn [JSMap.delete JSMap.get]. destruct (decide (k0 = k)) as [->|Hk].
  - by rewrite decide_False.
  - cbn [JSMap.get]. by rewrite IH.
Qed.

Lemma delete_set_fresh m k v :
  JSMap.get m k = None → JSMap.delete (JSMap.set m k v) k = m.
Proof.
  induction m as [|[k0 v0] m IH]; cbn [JSMap.get JSMap.set JSMap.delete].
  - by rewrite decide_True.
  - destruct (decide (k0 = k)) as [->|Hk]; [done |]. intros Hg.
    cbn [JSMap.delete]. rewrite decide_False by done. by rewrite IH.
Qed.

Lemma get_Some_keys m k v : JSMap.get m k = Some v → k ∈ JSMap.keys m.
Proof.
  intros Hg. destruct (decide (k ∈ JSMap.keys m)) as [|Hn]; [done |].
  apply JSMapFacts.get_None in Hn. congruence.
Qed.

Lemma get_lookup m k v :
  JSMap.get m k = Some v → ∃ i, m !! i = Some (k, v).
Proof.
  induction m as [|[k0 v0] m IH]; cbn [JSMap.get]; [done |].
  destruct (decide (k0 = k)) as [->|Hk].
  - intros [= ->]. by exists 0.
  - intros Hg. destruct (IH Hg) as [i Hi]. by exists (S i).
Qed.

Lemma lookup_get m i k v :
  NoDup (JSMap.keys m) → m !! i = Some (k, v) → JSMap.get m k = Some v.
Proof.
  revert i. induction m as [|[k0 v0] m IH]; intros i Hnd Hi; [done |].
  unfold JSMap.keys in Hnd. rewrite fmap_cons in Hnd.
  apply NoDup_cons in Hnd as [Hk0 Hnd]. cbn [JSMap.get].
  destruct i as [|i]; cbn in Hi.
  - injection Hi as -> ->. by rewrite decide_True.
  - rewrite decide_False; [by eapply IH |].
    intros ->. apply Hk0.
    apply list_elem_of_lookup_2 in Hi.
    by apply (list_elem_of_fmap_2 fst) in Hi.
Qed.

Lemma size_delete m k v :
  NoDup (JSMap.keys m) → JSMap.get m k = Some v →
  S (JSMap.size (JSMap.delete m k)) = JSMap.size m.
Proof.
  unfold JSMap.size, JSMap.keys.
  induction m as [|[k0 v0] m IH]; cbn [JSMap.get JSMap.delete]; [done |].
  rewrite fmap_cons. intros [Hk0 Hnd]%NoDup_cons.
  destruct (decide (k0 = k)) as [->|Hk].
  - intros _. rewrite JSMapFacts.delete_absent; [done |].
    by apply JSMapFacts.get_None.
  - intros Hg. cbn [length]. by rewrite IH.
Qed.

Lemma values_set_old m k v r :
  r ∈ JSMap.values m → JSMap.get m k ≠ Some r →
  NoDup (JSMap.keys m) → r ∈ JSMap.values (JSMap.set m k v).
Proof.
  unfold JSMap.values, JSMap.keys.
  induction m as [|[k0 v0] m IH]; cbn [JSMap.get JSMap.set];
    [by intros ?%elem_of_nil |].
  rewrite !fmap_cons. cbn [fst snd]. intros Hr Hg [Hk0 Hnd]%NoDup_cons.
  destruct (decide (k0 = k)) as [->|Hk].
  - rewrite fmap_cons. cbn [snd]. apply elem_of_cons in Hr as [->|Hr];
      [congruence | by apply list_elem_of_further].
  - rewrite fmap_cons. cbn [snd]. apply elem_of_cons in Hr as [->|Hr].
    + apply list_elem_of_here.
    + apply list_elem_of_further. by apply IH.
Qed.

Lemma NoDup_values_set m k v :
  v ∉ JSMap.values m → NoDup (JSMap.values m) →
  NoDup (JSMap.values (JSMap.set m k v)).
Proof.
  unfold JSMap.values.
  induction m as [|[k0 v0] m IH]; cbn [JSMap.set].
  - intros _ _. apply NoDup_singleton.
  - rewrite fmap_cons. cbn [snd].
    intros [Hne Hv]%not_elem_of_cons [Hv0 Hnd]%NoDup_cons.
    destruct (decide (k0 = k)) as [->|Hk]; rewrite fmap_cons; cbn [snd];
      apply NoDup_cons.
    + done.
    + split; [| by apply IH].
      intros Hin. apply JSMapFacts.values_set in Hin as [->|Hin]; done.
Qed.

Lemma NoDup_values_delete m k :
  NoDup (JSMap.values m) → NoDup (JSMap.values (JSMap.delete m k)).
Proof.
  unfold JSMap.values.
  induction m as [|[k0 v0] m IH]; cbn [JSMap.delete]; [done |].
  rewrite fmap_cons. cbn [snd]. intros [Hv0 Hnd]%NoDup_cons.
  destruct (decide (k0 = k)); [by apply IH |].
  rewrite fmap_cons. cbn [snd]. apply NoDup_cons. split; [| by apply IH].
  intros Hin. by apply JSMapFacts.values_delete in Hin.
Qed.

(** A value that is not the one deleted stays. *)
Lemma values_delete_other m k r :
  NoDup (JSMap.keys m) → r ∈ JSMap.values m → JSMap.get m k ≠ Some r →
  r ∈ JSMap.values (JSMap.delete m k).
Proof.
  unfold JSMap.values, JSMap.keys.
  induction m as [|[k0 v0] m IH]; cbn [JSMap.get JSMap.delete]; [done |].
  rewrite !fmap_cons. cbn [fst snd]. intros [Hk0 Hnd]%NoDup_cons Hr Hg.
  destruct (decide (k0 = k)) as [->|Hk].
  - apply elem_of_cons in Hr as [->|Hr]; [congruence |].
    rewrite JSMapFacts.delete_absent; [done |].
    by apply JSMapFacts.get_None.
  - rewrite fmap_cons. cbn [snd]. apply elem_of_cons in Hr as [->|Hr].
    + apply list_elem_of_here.
    + apply list_elem_of_further. by apply IH.
Qed.

(** The value deleted is gone, when values are distinct. *)
Lemma values_delete_gone m k r :
  NoDup (JSMap.values m) → JSMap.get m k = Some r →
  r ∉ JSMap.values (JSMap.delete m k).
Proof.
  unfold JSMap.values.
  induction m as [|[k0 v0] m IH]; cbn [JSMap.get JSMap.delete]; [done |].
  rewrite fmap_cons. cbn [snd]. intros [Hv0 Hnd]%NoDup_cons.
  destruct (decide (k0 = k)) as [->|Hk].
  - intros [= ->] Hin. by apply JSMapFacts.values_delete in Hin.
  - intros Hg. rewrite fmap_cons. cbn [snd]. apply not_elem_of_cons.
    split; [| by apply IH].
    intros ->. apply Hv0. by eapply JSMapFacts.get_Some_values.
Qed.

(** The value replaced is gone, when values are distinct. *)
Lemma values_set_gone m k v r :
  NoDup (JSMap.values m) → JSMap.get m k = Some r → v ≠ r →
  r ∉ JSMap.values (JSMap.set m k v).
Proof.
  unfold JSMap.values.
  induction m as [|[k0 v0] m IH]; cbn [JSMap.get JSMap.set]; [done |].
  rewrite fmap_cons. cbn [snd]. intros [Hv0 Hnd]%NoDup_cons.
  destruct (decide (k0 = k)) as [Hk|Hk].
  - intros [= ->] Hne. rewrite fmap_cons. cbn [snd].
    apply not_elem_of_cons. by split.
  - intros Hg Hne. rewrite fmap_cons. cbn [snd]. apply not_elem_of_cons.
    split; [| by apply IH].
    intros ->. apply Hv0. by eapply JSMapFacts.get_Some_values.
Qed.

(** Distinct values have distinct keys. *)
Lemma delete_at m : ∀ j k v,
  NoDup (JSMap.keys m) → m !! j = Some (k, v) →
  JSMap.delete m k = take j m ++ drop (S j) m.
Proof.
  unfold JSMap.keys.
  induction m as [|[k' v'] m IH]; intros j k v Hnd Hj; [done |].
  rewrite fmap_cons in Hnd. apply NoDup_cons in Hnd as [Hk' Hnd].
  destruct j as [|j]; cbn in Hj.
  - injection Hj as -> ->. cbn. rewrite decide_True by done.
    rewrite drop_0. apply JSMapFacts.delete_absent.
    by apply JSMapFacts.get_None.
  - assert (k' ≠ k) as Hne.
    { intros ->. apply Hk'.
      apply (list_elem_of_fmap_2 fst _ (k, v)).
      by eapply list_elem_of_lookup_2. }
    cbn. rewrite decide_False by done. f_equal. by eapply IH.
Qed.

Lemma get_inj m k k' v :
  NoDup (JSMap.values m) →
  JSMap.get m k = Some v → JSMap.get m k' = Some v → k = k'.
Proof.
  unfold JSMap.values.
  induction m as [|[k0 v0] m IH]; cbn [JSMap.get]; [done |].
  rewrite fmap_cons. cbn [snd]. intros [Hv0 Hnd]%NoDup_cons.
  destruct (decide (k0 = k)) as [Hk|Hk]; destruct (decide (k0 = k')) as [Hk'|Hk'].
  - congruence.
  - intros [= ->] Hg. destruct Hv0. by eapply JSMapFacts.get_Some_values.
  - intros Hg [= ->]. destruct Hv0. by eapply JSMapFacts.get_Some_values.
  - by apply IH.
Qed.

End facts.
End JSMapMore.

(** ** More about the Worker *)

Module WorkerMore.
Import PhysicsWorker ArrayFacts WorkerFacts.

Section more.
Context `{CannonEngine} `{Float32}.

(** The arrays that [resizeArrays] replaces get two different buffers. *)
Lemma resizeArrays_buffers st st' :
  resizeArrays st = Ok st' →
  buffer (positions st) < next_buffer st →
  buffer (quaternions st) < next_buffer st →
  buffer (positions st) ≠ buffer (quaternions st) →
  buffer (positions st') ≠ buffer (quaternions st').
Proof.
  unfold resizeArrays, f32_length.
  destruct (decide (length (data (positions st)) < JSMap.size (bodies st) * 3))
    as [H3|H3].
  - rewrite typed_set_zeros by lia. cbn.
    destruct (decide (length (data (quaternions st))
                      < JSMap.size (bodies st) * 4)) as [H4|H4].
    + rewrite typed_set_zeros by lia. cbn. intros [= <-]. cbn. lia.
    + intros [= <-]. cbn. lia.
  - cbn.
    destruct (decide (length (data (quaternions st))
                      < JSMap.size (bodies st) * 4)) as [H4|H4].
    + rewrite typed_set_zeros by lia. cbn. intros [= <-]. cbn. lia.
    + by intros [= <-].
Qed.

Lemma sound_new : Props.sound new.
Proof.
  split; cbn; try done.
  - apply NoDup_nil_2.
  - by exists 0.
Qed.

Lemma sound_set_body st r b : Props.sound st → Props.sound (set_body st r b).
Proof.
  intros [? Hw ? ?]. split; cbn; try done.
  intros w r' Hworld Hr'. rewrite length_insert. by eapply Hw.
Qed.

Lemma sound_createBody st id options st' out :
  Spec.wf st → Props.sound st →
  createBody st id options = Ok (st', out) → Props.sound st'.
Proof.
  intros Hwf [Hv Hw (k & Hk3 & Hk4) Hbuf] Hc.
  pose proof Hwf as [_ Hrefs _ _ _ _ _ Hb3 Hb4].
  apply createBody_Ok in Hc as (shape & w & _ & Hworld & _ & Hr).
  pose proof (resizeArrays_buffers _ _ Hr) as Hbuf'.
  match type of Hr with resizeArrays ?s = _ =>
    destruct (resizeArrays_spec s)
      as (st1 & Hr1 & Hw1 & Hb1 & Hs1 & Hp1 & Hq1 & _) end.
  rewrite Hr in Hr1. injection Hr1 as <-. fields.
  split.
  - rewrite Hb1. apply JSMapMore.NoDup_values_set; [| done].
    intros Hin. apply Hrefs in Hin. lia.
  - rewrite Hw1, Hs1. intros w' r [= <-] Hr'. rewrite length_app. cbn.
    apply elem_of_app in Hr' as [Hr'|Hr'].
    + pose proof (Hw w r Hworld Hr'). lia.
    + apply list_elem_of_singleton in Hr' as ->. lia.
  - unfold f32_length in *. rewrite Hp1, Hq1, !length_app, !length_zeros.
    set (n := JSMap.size (JSMap.set (bodies st) id (length (store st)))).
    exists (k `max` n). lia.
  - by apply Hbuf'.
Qed.

Lemma sound_removeBody st id st' out :
  Props.sound st → removeBody st id = Ok (st', out) → Props.sound st'.
Proof.
  intros [Hv Hw Hk Hbuf]. unfold removeBody.
  destruct (JSMap.get (bodies st) id) as [r|]; [| by intros [= <- _]].
  destruct (world st) as [w|] eqn:Hworld; [| done]. intros [= <- _].
  split; fields; try done.
  - by apply JSMapMore.NoDup_values_delete.
  - intros w' r' [= <-] Hr'. cbn in Hr'.
    apply list_elem_of_filter in Hr' as [_ Hr']. by eapply Hw.
Qed.

Lemma sound_update st dt st' out :
  Props.sound st → update st dt = Ok (st', out) → Props.sound st'.
Proof.
  intros [Hv Hw Hk Hbuf].
  destruct (world st) as [w|] eqn:Hworld.
  - rewrite (update_Some st w dt Hworld). intros [= <- _].
    split; fields; try done.
    + intros w' r [= <-] Hr. cbn in Hr. rewrite length_imap. by eapply Hw.
    + exists (JSMap.size (bodies st)). unfold f32_length. cbn.
      by rewrite !length_zeros.
  - unfold update. by rewrite Hworld.
Qed.

Lemma sound_handleMessage st m st' out :
  Spec.wf st → Props.sound st →
  handleMessage st m = Ok (st', out) → Props.sound st'.
Proof.
  intros Hwf Hsd. destruct m; cbn.
  - intros [= <- _]. destruct Hsd. split; fields; try done.
    intros w r [= <-] Hr. by apply elem_of_nil in Hr.
  - by apply sound_createBody.
  - by apply sound_removeBody.
  - by apply sound_update.
  - unfold applyForce. destruct (body_of st id) as [[r b]|];
      intros [= <- _]; [by apply sound_set_body | done].
  - unfold applyImpulse. destruct (body_of st id) as [[r b]|];
      intros [= <- _]; [by apply sound_set_body | done].
  - unfold setPosition. destruct (body_of st id) as [[r b]|];
      intros [= <- _]; [by apply sound_set_body | done].
  - unfold setVelocity. destruct (body_of st id) as [[r b]|];
      intros [= <- _]; [by apply sound_set_body | done].
  - unfold getBodyProps. destruct (body_of st id) as [[r b]|];
      by intros [= <- _].
  - by intros [= <- _].
Qed.

Lemma sound_deliver st m :
  Spec.wf st → Props.sound st → Props.sound (deliver st m).1.
Proof.
  intros Hwf Hsd. unfold deliver.
  destruct (handleMessage st m) as [[st' out]|e] eqn:Hh; [| done].
  by eapply sound_handleMessage.
Qed.

Lemma sound_run st ms :
  Spec.wf st → Props.sound st → Props.sound (run st ms).1.
Proof.
  revert st. induction ms as [|m ms IH]; intros st Hwf Hsd; [done |].
  rewrite run_cons. cbn [fst]. apply IH; [by apply wf_deliver |].
  by apply sound_deliver.
Qed.

Lemma reachable_sound st : Spec.reachable st → Props.sound st.
Proof. intros [ms <-]. apply sound_run; [apply wf_new | apply sound_new]. Qed.

(** A registry that is not empty has a world. *)
Lemma live_world st id r :
  Spec.wf st → JSMap.get (bodies st) id = Some r → is_Some (world st).
Proof.
  intros Hwf Hg. destruct (world st) as [w|] eqn:Hw; [by eexists |].
  apply (Spec.wf_world _ Hwf) in Hw. by rewrite Hw in Hg.
Qed.

Lemma live_body st id r :
  Spec.wf st → JSMap.get (bodies st) id = Some r →
  ∃ b, store st !! r = Some b ∧ body_of st id = Some (r, b).
Proof.
  intros Hwf Hg. destruct (lookup_lt_is_Some_2 (store st) r) as [b Hb].
  { eapply Spec.wf_refs; [done |]. by eapply JSMapFacts.get_Some_values. }
  exists b. split; [done |]. by apply body_of_Some.
Qed.

(** X1. Once the Worker is initialised it stays so, and the only command
    that can raise is [CreateBody] with options whose shape is not built:
    every other command, whatever its id, returns. *)
Theorem initialised_worker_returns st m :
  Spec.reachable st → is_Some (world st) →
  ((∃ e, handleMessage st m = Throw e)
   ↔ (∃ id options, m = MAddBody id options
                    ∧ Spec.creatable options = false))
  ∧ ∀ st' out, handleMessage st m = Ok (st', out) → is_Some (world st').
Proof.
  intros Hreach [w Hw]. pose proof (reachable_wf st Hreach) as Hwf.
  destruct m; cbn [handleMessage].
  - split; [split; [by intros [e ?] | by intros (? & ? & ? & _)] |].
    intros st' out [= <- _]. by eexists.
  - split; [split |].
    + intros [e He]. exists id, options. split; [done |].
      unfold Spec.creatable.
      destruct (make_shape options) as [shape|e'] eqn:Hs; [| done].
      destruct (createBody_returns st id options shape w Hs Hw)
        as (st' & Hc & _).
      by rewrite Hc in He.
    + intros (id' & options' & [= <- <-] & Hc). unfold Spec.creatable in Hc.
      unfold createBody.
      destruct (make_shape options) as [shape|e'] eqn:Hs; [done |].
      by exists e'.
    + intros st' out Hc.
      apply createBody_Ok in Hc as (shape & w' & _ & _ & _ & Hr).
      match type of Hr with resizeArrays ?s = _ =>
        destruct (resizeArrays_spec s) as (st1 & Hr1 & Hw1 & _) end.
      rewrite Hr in Hr1. injection Hr1 as <-. rewrite Hw1. by eexists.
  - unfold removeBody. rewrite Hw.
    split; [split; [| by intros (? & ? & ? & _)] |].
    + intros [e He]. by destruct (JSMap.get (bodies st) id).
    + intros st' out. destruct (JSMap.get (bodies st) id);
        intros [= <- _]; by eexists.
  - rewrite (update_Some st w dt Hw).
    split; [split; [by intros [e ?] | by intros (? & ? & ? & _)] |].
    intros st' out [= <- _]. by eexists.
  - unfold applyForce.
    split; [split; [| by intros (? & ? & ? & _)] |].
    + intros [e He]. by destruct (body_of st id) as [[? ?]|].
    + intros st' out. destruct (body_of st id) as [[? ?]|];
        intros [= <- _]; by eexists.
  - unfold applyImpulse.
    split; [split; [| by intros (? & ? & ? & _)] |].
    + intros [e He]. by destruct (body_of st id) as [[? ?]|].
    + intros st' out. destruct (body_of st id) as [[? ?]|];
        intros [= <- _]; by eexists.
  - unfold setPosition.
    split; [split; [| by intros (? & ? & ? & _)] |].
    + intros [e He]. by destruct (body_of st id) as [[? ?]|].
    + intros st' out. destruct (body_of st id) as [[? ?]|];
        intros [= <- _]; by eexists.
  - unfold setVelocity.
    split; [split; [| by intros (? & ? & ? & _)] |].
    + intros [e He]. by destruct (body_of st id) as [[? ?]|].
    + intros st' out. destruct (body_of st id) as [[? ?]|];
        intros [= <- _]; by eexists.
  - unfold getBodyProps.
    split; [split; [| by intros (? & ? & ? & _)] |].
    + intros [e He]. by destruct (body_of st id) as [[? ?]|].
    + intros st' out. destruct (body_of st id) as [[? ?]|];
        intros [= <- _]; by eexists.
  - split; [split; [by intros [e ?] | by intros (? & ? & ? & _)] |].
    intros st' out [= <- _]. by eexists.
Qed.

(** What the four commands that change one body have in common. *)
Lemma addressed_set_body st m id :
  Props.addressed m = Some id →
  match body_of st id with
  | Some (r, b) => ∃ b', handleMessage st m = Ok (set_body st r b', [])
  | None => handleMessage st m = Ok (st, [])
  end.
Proof.
  destruct m; cbn [Props.addressed]; try done; intros [= ->];
    cbn [handleMessage];
    unfold applyForce, applyImpulse, setPosition, setVelocity;
    destruct (body_of st id) as [[r b]|]; by eauto.
Qed.

(** X2. [ApplyForce], [ApplyImpulse], [SetPosition] and [SetVelocity] never
    raise and post nothing; they leave the world, the registry and the
    arrays as they were, and every body other than the one addressed keeps
    all its properties; for an id that is not in the registry nothing
    changes at all. *)
Theorem command_changes_only_its_body st m id :
  Spec.reachable st → Props.addressed m = Some id →
  ∃ st',
    handleMessage st m = Ok (st', [])
    ∧ world st' = world st
    ∧ bodies st' = bodies st
    ∧ positions st' = positions st
    ∧ quaternions st' = quaternions st
    ∧ length (store st') = length (store st)
    ∧ (∀ id', id' ≠ id → body_of st' id' = body_of st id')
    ∧ (JSMap.get (bodies st) id = None → st' = st).
Proof.
  intros Hreach Hm. pose proof (reachable_sound st Hreach) as [Hv _ _ _].
  pose proof (addressed_set_body st m id Hm) as Hh.
  destruct (body_of st id) as [[r b]|] eqn:Hbody.
  - destruct Hh as [b' Hh]. apply body_of_Some in Hbody as [Hget Hb].
    exists (set_body st r b'). split_and!; try done.
    + cbn. apply length_insert.
    + intros id' Hne. unfold body_of. cbn.
      destruct (JSMap.get (bodies st) id') as [r'|] eqn:Hget'; [| done].
      cbn. rewrite list_lookup_insert_ne; [done |].
      intros ->. apply Hne. by eapply JSMapMore.get_inj.
    + intros Hnone. congruence.
  - exists st. by split_and!.
Qed.

(** X3. For a live body, [SetVelocity(id, v)] followed at once by
    [GetBodyProperties(id)] yields one response whose velocity is [v] and
    whose other properties are those the body had. *)
Theorem setVelocity_then_getBodyProps st id v requestId r b :
  Spec.reachable st → JSMap.get (bodies st) id = Some r →
  store st !! r = Some b →
  ∃ st1 props,
    handleMessage st (MSetVelocity id v) = Ok (st1, [])
    ∧ handleMessage st1 (MGetBodyProps id requestId)
      = Ok (st1, [EBodyProps props])
    ∧ p_velocity props = v
    ∧ p_position props = position b
    ∧ p_quaternion props = quaternion b
    ∧ p_angularVelocity props = angularVelocity b
    ∧ p_mass props = mass b
    ∧ p_requestId props = requestId.
Proof.
  intros Hreach Hget Hb.
  assert (body_of st id = Some (r, b)) as Hbody by by apply body_of_Some.
  cbn [handleMessage]. unfold setVelocity. rewrite Hbody.
  eexists _, _. split; [reflexivity |].
  match goal with |- context [set_body st r ?b'] =>
    assert (body_of (set_body st r b') id = Some (r, b')) as Hbody' end.
  { apply body_of_Some. split; [done |]. cbn.
    apply list_lookup_insert_eq. by eapply lookup_lt_Some. }
  unfold getBodyProps. rewrite Hbody'. by split_and!.
Qed.

(** X4. [RemoveBody] for a live id returns and posts nothing; it takes that
    id, and no other, out of the registry, the others keeping their order;
    the count goes down by one; the body leaves the world; the arrays and
    the bodies themselves are left as they were; and a query for the id
    gets no response afterwards. *)
Theorem removeBody_live st id r :
  Spec.reachable st → JSMap.get (bodies st) id = Some r →
  ∃ st' w w',
    handleMessage st (MRemoveBody id) = Ok (st', [])
    ∧ JSMap.keys (bodies st') = filter (λ k, k ≠ id) (JSMap.keys (bodies st))
    ∧ S (JSMap.size (bodies st')) = JSMap.size (bodies st)
    ∧ JSMap.get (bodies st') id = None
    ∧ (∀ id', id' ≠ id →
         JSMap.get (bodies st') id' = JSMap.get (bodies st) id')
    ∧ world st = Some w ∧ world st' = Some w'
    ∧ (r ∉ wbodies w')
    ∧ (∀ r', r' ≠ r → r' ∈ wbodies w → r' ∈ wbodies w')
    ∧ positions st' = positions st
    ∧ quaternions st' = quaternions st
    ∧ store st' = store st
    ∧ ∀ requestId,
        handleMessage st' (MGetBodyProps id requestId) = Ok (st', []).
Proof.
  intros Hreach Hget. pose proof (reachable_wf st Hreach) as Hwf.
  destruct (live_world st id r Hwf Hget) as [w Hw].
  cbn [handleMessage]. unfold removeBody. rewrite Hget, Hw.
  eexists _, w, _. split; [reflexivity |]. fields. split_and!; try done.
  - apply JSMapFacts.keys_delete.
  - eapply JSMapMore.size_delete; [apply Hwf | done].
  - apply JSMapFacts.get_delete_eq.
  - intros id' Hne. by apply JSMapMore.get_delete_ne.
  - cbn. by intros [Hne _]%list_elem_of_filter.
  - intros r' Hne Hin. cbn. by apply list_elem_of_filter.
  - intros requestId. unfold getBodyProps. rewrite body_of_None; [done |].
    cbn. apply JSMapFacts.get_delete_eq.
Qed.

(** X5. [CreateBody] under a new id followed by [RemoveBody] of that id
    posts nothing and leaves the registry and the world as they were before
    the pair, on every state whose world holds bodies that exist (every
    state the Worker can be in is one) and whatever the arrays hold.  Each
    array holds what it held, entry for entry, followed by the zeros that
    make room for one body more than before the pair: the room gained by
    the creation is not given back by the removal. *)
Theorem createBody_then_removeBody st id options :
  Props.sound st → is_Some (world st) →
  JSMap.get (bodies st) id = None → Spec.creatable options = true →
  let st'' := (run st [MAddBody id options; MRemoveBody id]).1 in
  (run st [MAddBody id options; MRemoveBody id]).2 = []
  ∧ bodies st'' = bodies st
  ∧ world st'' = world st
  ∧ length (store st'') = S (length (store st))
  ∧ data (positions st'')
    = data (positions st)
      ++ zeros ((JSMap.size (bodies st) + 1) * 3 - f32_length (positions st))
  ∧ data (quaternions st'')
    = data (quaternions st)
      ++ zeros ((JSMap.size (bodies st) + 1) * 4
                - f32_length (quaternions st))
  ∧ (∀ k x, data (positions st) !! k = Some x →
            data (positions st'') !! k = Some x)
  ∧ (∀ k x, data (quaternions st) !! k = Some x →
            data (quaternions st'') !! k = Some x)
  ∧ (JSMap.size (bodies st) + 1) * 3 ≤ f32_length (positions st'')
  ∧ (JSMap.size (bodies st) + 1) * 4 ≤ f32_length (quaternions st'')
  ∧ f32_length (positions st) ≤ f32_length (positions st'')
  ∧ f32_length (quaternions st) ≤ f32_length (quaternions st'').
Proof.
  intros [_ Hworld _ _] [w Hw] Hfresh Hc st''.
  unfold Spec.creatable in Hc.
  destruct (make_shape options) as [shape|] eqn:Hs; [clear Hc | done].
  destruct (createBody_returns st id options shape w Hs Hw)
    as (st' & Hcreate & Hr).
  match type of Hr with resizeArrays ?s = _ =>
    destruct (resizeArrays_spec s)
      as (st1 & Hr1 & Hw1 & Hb1 & Hs1 & Hp1 & Hq1 & _) end.
  rewrite Hr in Hr1. injection Hr1 as <-. fields.
  rewrite JSMapFacts.size_set, Hfresh in Hp1, Hq1.
  assert (deliver st (MAddBody id options) = (st', [])) as Hd1.
  { unfold deliver. cbn [handleMessage]. by rewrite Hcreate. }
  assert (deliver st' (MRemoveBody id)
          = ({| world := Some (World_removeBody
                                 (World_addBody w (length (store st)))
                                 (length (store st)));
                bodies := JSMap.delete (bodies st') id;
                positions := positions st'; quaternions := quaternions st';
                store := store st'; next_buffer := next_buffer st' |}, []))
    as Hd2.
  { unfold deliver. cbn [handleMessage]. unfold removeBody.
    by rewrite Hb1, JSMapFacts.get_set_eq, Hw1. }
  assert (run st [MAddBody id options; MRemoveBody id]
          = ((deliver st' (MRemoveBody id)).1, [])) as Hrun.
  { rewrite !run_cons, Hd1. cbn [fst snd]. rewrite Hd2. by cbn. }
  unfold st''. rewrite Hrun, Hd2. fields. split_and!.
  - done.
  - rewrite Hb1. by apply JSMapMore.delete_set_fresh.
  - rewrite Hw. f_equal. destruct w as [g it sl wb sn].
    unfold World_removeBody, World_addBody. cbn. f_equal.
    rewrite filter_app, filter_cons_False, filter_nil, app_nil_r by (by intros ?).
    apply filter_all. intros r Hr' ->.
    pose proof (Hworld _ _ Hw Hr'). cbn in *. lia.
  - rewrite Hs1, length_app. cbn. lia.
  - rewrite Hp1. do 2 f_equal. lia.
  - rewrite Hq1. do 2 f_equal. lia.
  - intros k x Hk. rewrite Hp1. by apply lookup_app_l_Some.
  - intros k x Hk. rewrite Hq1. by apply lookup_app_l_Some.
  - unfold f32_length in *. rewrite Hp1, length_app, length_zeros. lia.
  - unfold f32_length in *. rewrite Hq1, length_app, length_zeros. lia.
  - unfold f32_length in *. rewrite Hp1, length_app. lia.
  - unfold f32_length in *. rewrite Hq1, length_app. lia.
Qed.

(** An orphan stays one under every command but [INIT]. *)
Lemma orphan_handleMessage st m st' out r :
  Spec.wf st → Props.orphan st r → Spec.initializes m = false →
  handleMessage st m = Ok (st', out) → Props.orphan st' r.
Proof.
  intros Hwf ((w & Hw & Hin) & Hnot & Hlt) Hm.
  assert (∀ r0 b, Props.orphan (set_body st r0 b) r) as Hset.
  { intros r0 b. split_and!; cbn; [by exists w | done |].
    by rewrite length_insert. }
  destruct m; try done; cbn [handleMessage].
  - intros Hc. apply createBody_Ok in Hc as (shape & w' & _ & Hw' & _ & Hr).
    rewrite Hw in Hw'. injection Hw' as <-.
    match type of Hr with resizeArrays ?s = _ =>
      destruct (resizeArrays_spec s)
        as (st1 & Hr1 & Hw1 & Hb1 & Hs1 & _) end.
    rewrite Hr in Hr1. injection Hr1 as <-. fields.
    split_and!.
    + eexists. split; [done |]. cbn. apply elem_of_app. by left.
    + rewrite Hb1. intros [->|Hv]%JSMapFacts.values_set; [lia | done].
    + rewrite Hs1, length_app. lia.
  - unfold removeBody. rewrite Hw.
    destruct (JSMap.get (bodies st) id) as [r'|] eqn:Hg; intros [= <- _];
      [| by split_and!; [exists w | |]].
    split_and!; fields.
    + eexists. split; [done |]. cbn. apply list_elem_of_filter.
      split; [| done]. intros ->. apply Hnot.
      by eapply JSMapFacts.get_Some_values.
    + intros Hv. by apply JSMapFacts.values_delete in Hv.
    + done.
  - rewrite (update_Some st w dt Hw). intros [= <- _].
    split_and!; fields.
    + eexists. by split.
    + done.
    + by rewrite length_imap.
  - unfold applyForce. destruct (body_of st id) as [[? ?]|];
      intros [= <- _]; [apply Hset | by split_and!; [exists w | |]].
  - unfold applyImpulse. destruct (body_of st id) as [[? ?]|];
      intros [= <- _]; [apply Hset | by split_and!; [exists w | |]].
  - unfold setPosition. destruct (body_of st id) as [[? ?]|];
      intros [= <- _]; [apply Hset | by split_and!; [exists w | |]].
  - unfold setVelocity. destruct (body_of st id) as [[? ?]|];
      intros [= <- _]; [apply Hset | by split_and!; [exists w | |]].
  - unfold getBodyProps. destruct (body_of st id) as [[? ?]|];
      intros [= <- _]; by split_and!; [exists w | |].
  - intros [= <- _]. by split_and!; [exists w | |].
Qed.

Lemma orphan_run ms : ∀ st r,
  Spec.wf st → Props.orphan st r →
  forallb (λ m, negb (Spec.initializes m)) ms = true →
  Props.orphan (run st ms).1 r.
Proof.
  induction ms as [|m ms IH]; intros st r Hwf Ho Hms; [done |].
  cbn [forallb] in Hms. apply andb_true_iff in Hms as [Hm Hms].
  apply negb_true_iff in Hm. rewrite run_cons. cbn [fst].
  apply IH; [by apply wf_deliver | | done].
  unfold deliver. destruct (handleMessage st m) as [[st' out]|e] eqn:Hh;
    [| done].
  by eapply orphan_handleMessage.
Qed.

(** X6. [CreateBody] with an id that is already in the registry replaces
    the body under that id in place: same ids in the same order, arrays
    untouched.  The body it replaces stays in the world with no id naming
    it, and no later command other than [Initialize] takes it out. *)
Theorem createBody_existing_id st id options r w :
  Spec.reachable st → JSMap.get (bodies st) id = Some r →
  world st = Some w → r ∈ wbodies w → Spec.creatable options = true →
  ∃ st',
    handleMessage st (MAddBody id options) = Ok (st', [])
    ∧ JSMap.keys (bodies st') = JSMap.keys (bodies st)
    ∧ JSMap.get (bodies st') id = Some (length (store st))
    ∧ (∀ id', id' ≠ id →
         JSMap.get (bodies st') id' = JSMap.get (bodies st) id')
    ∧ data (positions st') = data (positions st)
    ∧ data (quaternions st') = data (quaternions st)
    ∧ ∀ later,
        forallb (λ m, negb (Spec.initializes m)) later = true →
        Props.orphan (run st' later).1 r.
Proof.
  intros Hreach Hget Hw Hin Hc.
  pose proof (reachable_wf st Hreach) as Hwf.
  pose proof (reachable_sound st Hreach) as [Hv _ _ _].
  unfold Spec.creatable in Hc.
  destruct (make_shape options) as [shape|] eqn:Hs; [clear Hc | done].
  destruct (createBody_returns st id options shape w Hs Hw)
    as (st' & Hcreate & Hr).
  pose proof (wf_createBody st id options st' [] Hwf Hcreate) as Hwf'.
  match type of Hr with resizeArrays ?s = _ =>
    destruct (resizeArrays_spec s)
      as (st1 & Hr1 & Hw1 & Hb1 & Hs1 & Hp1 & Hq1 & _) end.
  rewrite Hr in Hr1. injection Hr1 as <-. fields.
  assert (r < length (store st)) as Hlt.
  { eapply Spec.wf_refs; [done |]. by eapply JSMapFacts.get_Some_values. }
  assert (JSMap.size (JSMap.set (bodies st) id (length (store st)))
          = JSMap.size (bodies st)) as Hsize.
  { by rewrite JSMapFacts.size_set, Hget. }
  pose proof (Spec.wf_capacity3 _ Hwf) as H3.
  pose proof (Spec.wf_capacity4 _ Hwf) as H4.
  exists st'. cbn [handleMessage]. split_and!.
  - done.
  - by rewrite Hb1, JSMapFacts.keys_set, Hget.
  - rewrite Hb1. apply JSMapFacts.get_set_eq.
  - intros id' Hne. rewrite Hb1. by apply JSMapFacts.get_set_ne.
  - rewrite Hp1, Hsize.
    replace (JSMap.size (bodies st) * 3 - f32_length (positions st)) with 0
      by lia.
    apply app_nil_r.
  - rewrite Hq1, Hsize.
    replace (JSMap.size (bodies st) * 4 - f32_length (quaternions st)) with 0
      by lia.
    apply app_nil_r.
  - intros later Hlater. apply orphan_run; [done | | done].
    split_and!.
    + exists (World_addBody w (length (store st))). split; [done |].
      cbn. apply elem_of_app. by left.
    + rewrite Hb1. apply JSMapMore.values_set_gone; [done | done | lia].
    + rewrite Hs1, length_app. lia.
Qed.

(** What one message posts, on an initialised Worker. *)
Lemma deliver_posts st m :
  is_Some (world st) →
  is_Some (world (deliver st m).1)
  ∧ ((Props.is_update m = false ∧ (deliver st m).2 = [])
     ∨ (Props.is_update m = true
        ∧ ∃ p q, (deliver st m).2 = [ESync p q])
     ∨ (Props.is_query m = true
        ∧ ∃ props, (deliver st m).2 = [EBodyProps props])).
Proof.
  intros [w Hw]. unfold deliver. destruct m; cbn [handleMessage].
  - cbn. split; [by eexists | by left].
  - destruct (createBody st id options) as [[st' out]|e] eqn:Hc;
      [| cbn; split; [by eexists | by left]].
    apply createBody_Ok in Hc as (shape & w' & _ & _ & -> & Hr).
    match type of Hr with resizeArrays ?s = _ =>
      destruct (resizeArrays_spec s) as (st1 & Hr1 & Hw1 & _) end.
    rewrite Hr in Hr1. injection Hr1 as <-. cbn.
    split; [rewrite Hw1; by eexists | by left].
  - unfold removeBody. rewrite Hw.
    destruct (JSMap.get (bodies st) id); cbn;
      (split; [by eexists | by left]).
  - rewrite (update_Some st w dt Hw). cbn.
    split; [by eexists | right; left; split; [done | by eexists _, _]].
  - unfold applyForce. destruct (body_of st id) as [[? ?]|]; cbn;
      (split; [by eexists | by left]).
  - unfold applyImpulse. destruct (body_of st id) as [[? ?]|]; cbn;
      (split; [by eexists | by left]).
  - unfold setPosition. destruct (body_of st id) as [[? ?]|]; cbn;
      (split; [by eexists | by left]).
  - unfold setVelocity. destruct (body_of st id) as [[? ?]|]; cbn;
      (split; [by eexists | by left]).
  - unfold getBodyProps. destruct (body_of st id) as [[? ?]|]; cbn.
    + split; [by eexists | right; right; split; [done | by eexists]].
    + split; [by eexists | by left].
  - cbn. split; [by eexists | by left].
Qed.

(** X7. An initialised Worker posts exactly one Sync frame for every
    [Update] it handles, whatever the registry holds, and none for any other
    command; it posts at most one response for every query, and nothing
    else. *)
Theorem one_sync_per_update ms : ∀ st,
  is_Some (world st) →
  length (filter (λ e, Props.is_sync e) (run st ms).2)
  = length (filter (λ m, Props.is_update m) ms)
  ∧ length (filter (λ e, Props.is_response e) (run st ms).2)
    ≤ length (filter (λ m, Props.is_query m) ms)
  ∧ length (run st ms).2
    = length (filter (λ e, Props.is_sync e) (run st ms).2)
      + length (filter (λ e, Props.is_response e) (run st ms).2).
Proof.
  induction ms as [|m ms IH]; intros st Hw; [done |].
  rewrite run_cons. cbn [snd].
  destruct (deliver_posts st m Hw) as (Hw' & Hout).
  destruct (IH _ Hw') as (IHs & IHr & IHall).
  rewrite !filter_app, !length_app.
  rewrite (filter_cons (λ m, Props.is_update m)),
    (filter_cons (λ m, Props.is_query m)).
  destruct Hout as [[Hm ->] | [(Hm & p & q & ->) | (Hm & props & ->)]].
  - rewrite !filter_nil. cbn [length]. rewrite Hm.
    rewrite (decide_False (P := Is_true false)) by (by intros []).
    split_and!; [| | lia]; repeat case_decide; cbn [length]; lia.
  - destruct m; try done.
    rewrite !filter_cons, !filter_nil. cbn.
    split_and!; repeat case_decide; cbn [length] in *; try done; lia.
  - destruct m; try done.
    rewrite !filter_cons, !filter_nil. cbn.
    split_and!; repeat case_decide; cbn [length] in *; try done; lia.
Qed.

Lemma length_write_body s r i pq :
  length (write_body s r i pq).1 = length pq.1
  ∧ length (write_body s r i pq).2 = length pq.2.
Proof.
  unfold write_body, f32_write. destruct (s !! r); [| done].
  cbn [fst snd]. by rewrite !length_insert.
Qed.

Lemma length_write_bodies s refs : ∀ i pq,
  length (write_bodies s refs i pq).1 = length pq.1
  ∧ length (write_bodies s refs i pq).2 = length pq.2.
Proof.
  induction refs as [|r refs IH]; intros i pq; [done |].
  cbn [write_bodies]. destruct (IH (S i) (write_body s r i pq)) as [-> ->].
  apply length_write_body.
Qed.

(** What a message hands over: nothing, or the two buffers held. *)
Lemma deliver_transfers st m :
  Props.transferred (deliver st m).2 = []
  ∨ (Props.transferred (deliver st m).2
     = [buffer (positions st); buffer (quaternions st)]
     ∧ next_buffer st ≤ buffer (positions (deliver st m).1)
     ∧ next_buffer st ≤ buffer (quaternions (deliver st m).1)
     ∧ next_buffer st ≤ next_buffer (deliver st m).1).
Proof.
  unfold deliver. destruct m; cbn [handleMessage]; try (by left).
  - destruct (createBody st id options) as [[st' out]|e] eqn:Hc;
      [| by left].
    apply createBody_Ok in Hc as (? & ? & _ & _ & -> & _). by left.
  - unfold removeBody. destruct (JSMap.get (bodies st) id);
      [destruct (world st) |]; by left.
  - destruct (world st) as [w|] eqn:Hw.
    + rewrite (update_Some st w dt Hw). right. cbn. split_and!; [done | lia..].
    + unfold update. rewrite Hw. by left.
  - unfold applyForce. destruct (body_of st id) as [[? ?]|]; by left.
  - unfold applyImpulse. destruct (body_of st id) as [[? ?]|]; by left.
  - unfold setPosition. destruct (body_of st id) as [[? ?]|]; by left.
  - unfold setVelocity. destruct (body_of st id) as [[? ?]|]; by left.
  - unfold getBodyProps. destruct (body_of st id) as [[? ?]|]; by left.
Qed.

Lemma gone_deliver st m b :
  Spec.wf st → Spec.gone st b → Spec.gone (deliver st m).1 b.
Proof.
  intros Hwf Hg. unfold deliver.
  destruct (handleMessage st m) as [[st' out]|e] eqn:Hh; [| done].
  by eapply WorkerClaims.gone_handleMessage.
Qed.

Lemma transferred_app l1 l2 :
  Props.transferred (l1 ++ l2) = Props.transferred l1 ++ Props.transferred l2.
Proof. unfold Props.transferred. apply bind_app. Qed.

Lemma transferred_once ms : ∀ st acc,
  Spec.wf st → Props.sound st →
  NoDup acc → (∀ b, b ∈ acc → Spec.gone st b) →
  NoDup (acc ++ Props.transferred (run st ms).2)
  ∧ ∀ b, b ∈ acc ++ Props.transferred (run st ms).2 →
         Spec.gone (run st ms).1 b.
Proof.
  induction ms as [|m ms IH]; intros st acc Hwf Hsd Hnd Hacc.
  - cbn. by rewrite app_nil_r.
  - rewrite run_cons. cbn [fst snd]. rewrite transferred_app, app_assoc.
    apply IH.
    + by apply wf_deliver.
    + by apply sound_deliver.
    + destruct (deliver_transfers st m) as [-> | (-> & _)].
      * by rewrite app_nil_r.
      * apply NoDup_app. split_and!; [done | |].
        -- intros b Hb Hin. destruct (Hacc b Hb) as (_ & Hp & Hq).
           apply elem_of_cons in Hin as [->|Hin]; [done |].
           by apply list_elem_of_singleton in Hin as ->.
        -- apply NoDup_cons. split; [| apply NoDup_singleton].
           intros Hin%list_elem_of_singleton. by apply (Props.sd_buffers st).
    + intros b [Hb|Hb]%elem_of_app; [by apply gone_deliver, Hacc |].
      destruct (deliver_transfers st m) as [Hnil | (Ht & Hp & Hq & Hn)].
      * rewrite Hnil in Hb. by apply elem_of_nil in Hb.
      * rewrite Ht in Hb. pose proof (Spec.wf_buffer3 _ Hwf).
        pose proof (Spec.wf_buffer4 _ Hwf). unfold Spec.gone.
        apply elem_of_cons in Hb as [->|Hb];
          [| apply list_elem_of_singleton in Hb as ->]; lia.
Qed.

(** X8. No buffer is handed over twice: the buffers of all the Sync frames
    that the Worker posts, from its construction on, are pairwise distinct,
    and the Worker holds none of them afterwards. *)
Theorem buffers_transferred_once ms :
  NoDup (Props.transferred (run new ms).2)
  ∧ ∀ b, b ∈ Props.transferred (run new ms).2 → Spec.gone (run new ms).1 b.
Proof.
  apply (transferred_once ms new []); [apply wf_new | apply sound_new | |].
  - apply NoDup_nil_2.
  - by intros b ?%elem_of_nil.
Qed.

(** Every frame has room for a whole number of bodies. *)
Lemma deliver_shaped st m e :
  Props.sound st → e ∈ (deliver st m).2 → Props.shaped e.
Proof.
  intros Hsd. unfold deliver. destruct m; cbn [handleMessage];
    try (by intros ?%elem_of_nil).
  - destruct (createBody st id options) as [[st' out]|err] eqn:Hc;
      [| by intros ?%elem_of_nil].
    apply createBody_Ok in Hc as (? & ? & _ & _ & -> & _).
    by intros ?%elem_of_nil.
  - unfold removeBody. destruct (JSMap.get (bodies st) id);
      [destruct (world st) |]; by intros ?%elem_of_nil.
  - destruct (world st) as [w|] eqn:Hw.
    + rewrite (update_Some st w dt Hw). cbn [snd].
      intros ->%list_elem_of_singleton. unfold Props.shaped, f32_length.
      cbn [data].
      destruct (length_write_bodies (World_step w (store st) dt).2
                  (JSMap.values (bodies st)) 0
                  (data (positions st), data (quaternions st))) as [-> ->].
      apply (Props.sd_shape st Hsd).
    + unfold update. rewrite Hw. by intros ?%elem_of_nil.
  - unfold applyForce. destruct (body_of st id) as [[? ?]|];
      by intros ?%elem_of_nil.
  - unfold applyImpulse. destruct (body_of st id) as [[? ?]|];
      by intros ?%elem_of_nil.
  - unfold setPosition. destruct (body_of st id) as [[? ?]|];
      by intros ?%elem_of_nil.
  - unfold setVelocity. destruct (body_of st id) as [[? ?]|];
      by intros ?%elem_of_nil.
  - unfold getBodyProps. destruct (body_of st id) as [[? ?]|]; [| by intros ?%elem_of_nil].
    by intros ->%list_elem_of_singleton.
Qed.

Lemma run_shaped ms : ∀ st e,
  Spec.wf st → Props.sound st → e ∈ (run st ms).2 → Props.shaped e.
Proof.
  induction ms as [|m ms IH]; intros st e Hwf Hsd He.
  - by apply elem_of_nil in He.
  - rewrite run_cons in He. cbn [snd] in He.
    apply elem_of_app in He as [He|He]; [by eapply deliver_shaped |].
    eapply IH; [| | done]; [by apply wf_deliver | by apply sound_deliver].
Qed.

End more.
End WorkerMore.

(** ** More about the Coordinator *)

Module CoordinatorMore.
Import PhysicsWorld CoordinatorFacts.

Lemma update_object_defined P Q scene o i k :
  length P = k * 3 → length Q = k * 4 →
  Forall Spec.defined scene →
  Forall Spec.defined (update_object P Q scene o i).
Proof.
  intros HP HQ Hall. unfold update_object. case_decide as Hi; [| done].
  destruct (decide (o < length scene)) as [Ho|Ho].
  - apply Forall_insert; [done |].
    apply (rendered_defined P Q i); lia.
  - rewrite list_insert_ge by lia. done.
Qed.

Lemma update_from_defined P Q k refs : ∀ i scene,
  length P = k * 3 → length Q = k * 4 →
  Forall Spec.defined scene →
  Forall Spec.defined (update_from P Q refs i scene).
Proof.
  induction refs as [|o refs IH]; intros i scene HP HQ Hall; [done |].
  cbn [update_from]. apply IH; [done | done |].
  by eapply update_object_defined.
Qed.

(** A frame with room for a whole number of bodies puts no [undefined]
    into an object. *)
Lemma handleMessage_defined pw scene e :
  Props.shaped e → Forall Spec.defined scene →
  Forall Spec.defined (handleMessage pw scene e).2.
Proof.
  intros Hshaped Hall. destruct e; cbn [handleMessage snd].
  - destruct Hshaped as (k & HP & HQ). by eapply update_from_defined.
  - by destruct (bodyPropsCallbacks pw !! p_requestId props).
  - done.
Qed.

(** X9. A response whose request identifier has a callback resolves the
    promise of that callback with the response, removes that callback and
    nothing else, and touches neither the registry nor the objects; a second
    copy of the response, a response without a callback, and a message of an
    unknown kind are dropped without any effect. *)
Theorem response_resolves_once pw scene props promise :
  bodyPropsCallbacks pw !! p_requestId props = Some promise →
  promise < length (promises pw) →
  let pw1 := (handleMessage pw scene (EBodyProps props)).1 in
  promises pw1 !! promise = Some (Some props)
  ∧ (∀ p', p' ≠ promise → promises pw1 !! p' = promises pw !! p')
  ∧ bodyPropsCallbacks pw1 = delete (p_requestId props) (bodyPropsCallbacks pw)
  ∧ objects pw1 = objects pw
  ∧ (handleMessage pw scene (EBodyProps props)).2 = scene
  ∧ handleMessage pw1 scene (EBodyProps props) = (pw1, scene)
  ∧ (∀ props', bodyPropsCallbacks pw !! p_requestId props' = None →
               handleMessage pw scene (EBodyProps props') = (pw, scene))
  ∧ ∀ tag, handleMessage pw scene (EOther tag) = (pw, scene).
Proof.
  intros Hcb Hlt pw1. unfold pw1. cbn [handleMessage]. rewrite Hcb.
  cbn [fst snd promises bodyPropsCallbacks objects]. split_and!.
  - by apply list_lookup_insert_eq.
  - intros p' Hne. by apply list_lookup_insert_ne.
  - done.
  - done.
  - done.
  - cbn [bodyPropsCallbacks]. by rewrite lookup_delete_eq.
  - intros props' Hnone. by rewrite Hnone.
  - done.
Qed.

Lemma add_ids_app l1 l2 :
  Props.add_ids (l1 ++ l2) = Props.add_ids l1 ++ Props.add_ids l2.
Proof. unfold Props.add_ids. apply omap_app. Qed.

Lemma act_ids ps a k :
  nextBodyId ps.1 = Z.of_nat k →
  Props.add_ids (Protocol.act ps a).2
  = Z.of_nat <$> seq k (length (Spec.added [a]))
  ∧ nextBodyId (Protocol.act ps a).1.1
    = Z.of_nat (k + length (Spec.added [a])).
Proof.
  destruct ps as [pw scene]. cbn [fst]. intros Hk.
  destruct a as [c|e]; [destruct c |]; cbn; rewrite ?Nat.add_0_r;
    try (by split).
  - rewrite Hk. split; [done | lia].
  - destruct e; cbn; try (by split).
    by destruct (bodyPropsCallbacks pw !! p_requestId props).
Qed.

(** The ids that the Coordinator sends, from the counter on. *)
Lemma coordinator_ids actions : ∀ ps k,
  nextBodyId ps.1 = Z.of_nat k →
  Props.add_ids (Protocol.coordinator ps actions).2
  = Z.of_nat <$> seq k (length (Spec.added actions))
  ∧ nextBodyId (Protocol.coordinator ps actions).1.1
    = Z.of_nat (k + length (Spec.added actions)).
Proof.
  induction actions as [|a actions IH]; intros ps k Hk.
  - cbn. rewrite Nat.add_0_r. by split.
  - rewrite coordinator_cons. cbn [fst snd]. rewrite add_ids_app.
    destruct (act_ids ps a k Hk) as [Hids Hnext].
    destruct (IH _ _ Hnext) as [IHids IHnext].
    rewrite (ProtocolClaims.added_cons a actions), length_app.
    rewrite Hids, IHids, IHnext.
    split; [| f_equal; lia].
    by rewrite seq_app, fmap_app.
Qed.

(** X10. Ids are allocated in sequence and never reused: in every session
    the [CreateBody] commands on the channel carry the ids 1, 2, 3, ... in
    that order, one for each [addObject], whatever was removed in
    between. *)
Theorem ids_allocated_in_sequence scene actions :
  Props.add_ids (Spec.session scene actions).2
  = Z.of_nat <$> seq 1 (length (Spec.added actions))
  ∧ nextBodyId (Spec.session scene actions).1.1
    = Z.of_nat (S (length (Spec.added actions)))
  ∧ NoDup (Props.add_ids (Spec.session scene actions).2).
Proof.
  destruct (coordinator_ids actions (new.1, scene) 1) as [Hids Hnext];
    [done |].
  assert (Spec.session scene actions
          = ((Protocol.coordinator (new.1, scene) actions).1,
             new.2 ++ (Protocol.coordinator (new.1, scene) actions).2))
    as ->.
  { unfold Spec.session.
    by destruct (Protocol.coordinator (new.1, scene) actions). }
  cbn [fst snd]. rewrite add_ids_app, Hids. cbn [new snd Props.add_ids omap app].
  split_and!; [done | done |].
  apply NoDup_fmap; [intros x y; lia | apply NoDup_seq].
Qed.

End CoordinatorMore.

(** ** More about the two contexts together *)

Module ProtocolMore.
Import ArrayFacts WorkerFacts WorkerMore CoordinatorFacts CoordinatorMore.
Import ProtocolClaims.

Section more.
Context `{CannonEngine} `{Float32}.

Lemma coordinator_defined actions : ∀ ps,
  (∀ e, e ∈ Protocol.received actions → Props.shaped e) →
  Forall Spec.defined ps.2 →
  Forall Spec.defined (Protocol.coordinator ps actions).1.2.
Proof.
  induction actions as [|a actions IH]; intros ps Hrecv Hall; [done |].
  rewrite coordinator_cons. cbn [fst]. apply IH.
  - intros e He. apply Hrecv. unfold Protocol.received. cbn [omap].
    destruct a; [done | by apply list_elem_of_further].
  - destruct ps as [pw scene]. destruct a as [c|e]; cbn.
    + by destruct c.
    + apply handleMessage_defined; [| done].
      apply Hrecv. unfold Protocol.received. cbn [omap].
      apply list_elem_of_here.
Qed.

(** X11. The frames of the Worker never put [undefined] into a renderable:
    if every component of every object is a number to begin with, and the
    Coordinator receives only messages that a Worker has posted, then every
    component of every object is a number at the end of the session. *)
Theorem renderables_stay_defined scene actions :
  Forall Spec.defined scene →
  (∀ e, e ∈ Protocol.received actions →
        ∃ ms, e ∈ (PhysicsWorker.run PhysicsWorker.new ms).2) →
  Forall Spec.defined (Spec.session scene actions).1.2.
Proof.
  intros Hall Hrecv. rewrite session_eq. cbn [fst].
  apply coordinator_defined; [| done].
  intros e He. destruct (Hrecv e He) as [ms Hms].
  eapply run_shaped; [apply wf_new | apply sound_new | done].
Qed.

(** *** The two registries, with removals *)

Lemma synced_new :
  Props.synced PhysicsWorld.new.1
    (PhysicsWorker.run PhysicsWorker.new PhysicsWorld.new.2).1.
Proof.
  split; cbn; try done.
  - intros k Hk. by apply elem_of_nil in Hk.
  - apply NoDup_nil_2.
  - apply (wf_run PhysicsWorker.new PhysicsWorld.new.2), wf_new.
Qed.

Lemma synced_same pw wk pw' wk' :
  Props.synced pw wk →
  PhysicsWorld.objects pw' = PhysicsWorld.objects pw →
  PhysicsWorld.nextBodyId pw' = PhysicsWorld.nextBodyId pw →
  PhysicsWorker.bodies wk' = PhysicsWorker.bodies wk →
  is_Some (PhysicsWorker.world wk') → Spec.wf wk' →
  Props.synced pw' wk'.
Proof.
  intros [] Ho Hn Hb Hw Hwf. split; rewrite ?Ho, ?Hn, ?Hb; done.
Qed.

Lemma synced_deliver_same pw wk m :
  Props.synced pw wk →
  PhysicsWorker.bodies (PhysicsWorker.deliver wk m).1
  = PhysicsWorker.bodies wk →
  Props.synced pw (PhysicsWorker.deliver wk m).1.
Proof.
  intros Hsy Hb. pose proof Hsy as [_ _ _ Hw Hwf].
  eapply synced_same; try done.
  - by apply (WorkerMore.deliver_posts wk m).
  - by apply wf_deliver.
Qed.

Lemma synced_objects pw pw' wk :
  Props.synced pw wk →
  PhysicsWorld.objects pw' = PhysicsWorld.objects pw →
  PhysicsWorld.nextBodyId pw' = PhysicsWorld.nextBodyId pw →
  Props.synced pw' wk.
Proof. intros [] Ho Hn. split; rewrite ?Ho, ?Hn; done. Qed.

Lemma synced_act ps wk a :
  Props.synced ps.1 wk →
  forallb (λ x, Spec.creatable x.2) (Spec.added [a]) = true →
  Props.synced (Protocol.act ps a).1.1
    (PhysicsWorker.run wk (Protocol.act ps a).2).1.
Proof.
  destruct ps as [pw scene]. cbn [fst]. intros Hsy Hcre.
  pose proof Hsy as [Hk Hf Hu [w Hw] Hwf].
  destruct a as [c|e].
  - destruct c; cbn [Protocol.act Protocol.invoke fst snd].
    + (* addObject *)
      cbn in Hcre. apply andb_true_iff in Hcre as [Hcre _].
      set (id := PhysicsWorld.nextBodyId pw).
      assert (JSMap.get (PhysicsWorld.objects pw) id = None) as Hfresh.
      { apply JSMapFacts.get_None. intros Hin. apply Hf in Hin.
        unfold id in Hin. lia. }
      assert (JSMap.get (PhysicsWorker.bodies wk) id = None) as Hfresh'.
      { apply JSMapFacts.get_None. rewrite <- Hk.
        by apply JSMapFacts.get_None. }
      unfold Spec.creatable in Hcre.
      destruct (PhysicsWorker.make_shape options) as [shape|] eqn:Hshape;
        [clear Hcre | done].
      destruct (createBody_returns wk id options shape w Hshape Hw)
        as (wk' & Hcreate & Hr).
      pose proof (wf_createBody wk id options wk' [] Hwf Hcreate) as Hwf'.
      match type of Hr with PhysicsWorker.resizeArrays ?s = _ =>
        destruct (resizeArrays_spec s) as (st1 & Hr1 & Hw1 & Hb1 & _) end.
      rewrite Hr in Hr1. injection Hr1 as <-. fields.
      cbn [PhysicsWorld.addObject fst snd]. fold id. rewrite run_cons.
      unfold PhysicsWorker.deliver. cbn [PhysicsWorker.handleMessage].
      rewrite Hcreate. cbn [PhysicsWorker.run fst].
      split; cbn [PhysicsWorld.objects PhysicsWorld.nextBodyId].
      * by rewrite Hb1, !JSMapFacts.keys_set, Hfresh, Hfresh', Hk.
      * rewrite JSMapFacts.keys_set, Hfresh.
        intros k [Hin| ->%list_elem_of_singleton]%elem_of_app.
        -- apply Hf in Hin. unfold id. lia.
        -- lia.
      * by apply JSMapFacts.NoDup_keys_set.
      * by rewrite Hw1.
      * done.
    + (* removeObject *)
      cbn [PhysicsWorld.removeObject fst snd]. rewrite run_cons.
      cbn [PhysicsWorker.run fst].
      assert (PhysicsWorker.bodies
                (PhysicsWorker.deliver wk (MRemoveBody id)).1
              = JSMap.delete (PhysicsWorker.bodies wk) id) as Hb.
      { unfold PhysicsWorker.deliver. cbn [PhysicsWorker.handleMessage].
        unfold PhysicsWorker.removeBody. rewrite Hw.
        destruct (JSMap.get (PhysicsWorker.bodies wk) id) eqn:Hg; cbn.
        - done.
        - by rewrite JSMapFacts.delete_absent. }
      split; cbn [PhysicsWorld.objects PhysicsWorld.nextBodyId].
      * by rewrite Hb, !JSMapFacts.keys_delete, Hk.
      * intros k Hin. rewrite JSMapFacts.keys_delete in Hin.
        apply list_elem_of_filter in Hin as [_ Hin]. by apply Hf.
      * by apply JSMapFacts.NoDup_keys_delete.
      * by apply (WorkerMore.deliver_posts wk (MRemoveBody id)).
      * by apply wf_deliver.
    + cbn [PhysicsWorld.applyForce fst snd]. rewrite run_cons.
      cbn [PhysicsWorker.run fst]. apply synced_deliver_same; [done |].
      unfold PhysicsWorker.deliver. cbn. unfold PhysicsWorker.applyForce.
      by destruct (PhysicsWorker.body_of wk id) as [[? ?]|].
    + cbn [PhysicsWorld.applyImpulse fst snd]. rewrite run_cons.
      cbn [PhysicsWorker.run fst]. apply synced_deliver_same; [done |].
      unfold PhysicsWorker.deliver. cbn. unfold PhysicsWorker.applyImpulse.
      by destruct (PhysicsWorker.body_of wk id) as [[? ?]|].
    + cbn [PhysicsWorld.setPosition fst snd]. rewrite run_cons.
      cbn [PhysicsWorker.run fst]. apply synced_deliver_same; [done |].
      unfold PhysicsWorker.deliver. cbn. unfold PhysicsWorker.setPosition.
      by destruct (PhysicsWorker.body_of wk id) as [[? ?]|].
    + cbn [PhysicsWorld.setVelocity fst snd]. rewrite run_cons.
      cbn [PhysicsWorker.run fst]. apply synced_deliver_same; [done |].
      unfold PhysicsWorker.deliver. cbn. unfold PhysicsWorker.setVelocity.
      by destruct (PhysicsWorker.body_of wk id) as [[? ?]|].
    + unfold PhysicsWorld.update at 2. cbn [snd]. rewrite run_cons.
      cbn [PhysicsWorker.run fst].
      apply (synced_objects pw); [| done | done].
      apply synced_deliver_same; [done |].
      unfold PhysicsWorker.deliver. cbn [PhysicsWorker.handleMessage].
      by rewrite (update_Some wk w _ Hw).
    + cbn [PhysicsWorld.getBodyProperties fst snd]. rewrite run_cons.
      cbn [PhysicsWorker.run fst].
      apply (synced_objects pw); [| done | done].
      apply synced_deliver_same; [done |].
      unfold PhysicsWorker.deliver. cbn. unfold PhysicsWorker.getBodyProps.
      by destruct (PhysicsWorker.body_of wk id) as [[? ?]|].
  - cbn [Protocol.act fst snd PhysicsWorker.run].
    apply (synced_objects pw); [done | |].
    + destruct e; cbn; try done.
      by destruct (PhysicsWorld.bodyPropsCallbacks pw !! p_requestId props).
    + destruct e; cbn; try done.
      by destruct (PhysicsWorld.bodyPropsCallbacks pw !! p_requestId props).
Qed.

Lemma synced_coordinator actions : ∀ ps wk,
  Props.synced ps.1 wk →
  forallb (λ x, Spec.creatable x.2) (Spec.added actions) = true →
  Props.synced (Protocol.coordinator ps actions).1.1
    (PhysicsWorker.run wk (Protocol.coordinator ps actions).2).1.
Proof.
  induction actions as [|a actions IH]; intros ps wk Hsy Hcre; [done |].
  rewrite added_cons, forallb_app in Hcre.
  apply andb_true_iff in Hcre as [Hca Hcre].
  rewrite coordinator_cons. cbn [fst snd]. rewrite run_app. cbn [fst].
  apply IH; [| done]. by apply synced_act.
Qed.

Lemma synced_session scene actions :
  forallb (λ x, Spec.creatable x.2) (Spec.added actions) = true →
  Props.synced (Spec.session scene actions).1.1
    (Spec.worker_of scene actions).1.
Proof.
  intros Hcre. unfold Spec.worker_of. rewrite session_eq.
  cbn [fst snd]. rewrite run_app. cbn [fst].
  apply (synced_coordinator actions (PhysicsWorld.new.1, scene));
    [apply synced_new | done].
Qed.

(** The frame of an [update] that ends a session, read against the registry
    of the Coordinator as that [update] leaves it. *)
Lemma session_update_frame scene actions now :
  forallb (λ x, Spec.creatable x.2) (Spec.added actions) = true →
  let all := actions ++ [Protocol.Invoke (Protocol.Update now)] in
  let pw := (Spec.session scene all).1.1 in
  let wk := (Spec.worker_of scene all).1 in
  (Spec.session scene all).1.2 = (Spec.session scene actions).1.2
  ∧ Props.synced pw wk
  ∧ ∃ p q,
      last (Spec.worker_of scene all).2 = Some (ESync p q)
      ∧ ∀ i id o,
          PhysicsWorld.objects pw !! i = Some (id, o) →
          ∃ r body,
            PhysicsWorker.bodies wk !! i = Some (id, r)
            ∧ PhysicsWorker.body_of wk id = Some (r, body)
            ∧ i * 3 < length (data p) ∧ i * 4 < length (data q)
            ∧ (∀ k, k < 3 → data p !! (i * 3 + k) = Spec.triple body !! k)
            ∧ (∀ k, k < 4 → data q !! (i * 4 + k)
                            = Spec.quadruple body !! k).
Proof.
  intros Hcre all pw wk.
  pose proof (synced_session scene actions Hcre) as [Hk Hf Hu [w Hw] Hwf].
  set (pw0 := (Spec.session scene actions).1.1) in *.
  set (wk0 := (Spec.worker_of scene actions).1) in *.
  destruct (WorkerClaims.update_frame wk0 w
              (PhysicsWorld.capped_dt now (PhysicsWorld.lastUpdateTime pw0))
              Hwf Hw)
    as (wk' & p & q & Hu' & Hw' & Hs' & Hb' & _ & _ & Hdp & Hdq & _).
  assert (Spec.session scene all
          = ((PhysicsWorld.update pw0 now).1,
             (Spec.session scene actions).1.2,
             (Spec.session scene actions).2
             ++ [MUpdate (PhysicsWorld.capped_dt now
                            (PhysicsWorld.lastUpdateTime pw0))])) as Hsession.
  { unfold all. rewrite session_app. unfold pw0.
    by destruct (Spec.session scene actions).1. }
  assert (Spec.worker_of scene all
          = (wk', (Spec.worker_of scene actions).2 ++ [ESync p q])) as Hworker.
  { unfold Spec.worker_of at 1. rewrite Hsession. cbn [snd].
    rewrite run_app. fold (Spec.worker_of scene actions). fold wk0.
    rewrite run_cons. unfold PhysicsWorker.deliver.
    cbn [PhysicsWorker.handleMessage]. by rewrite Hu'. }
  assert (pw = (PhysicsWorld.update pw0 now).1) as Hpw
    by (unfold pw; by rewrite Hsession).
  assert (wk = wk') as Hwk by (unfold wk; by rewrite Hworker).
  assert (Spec.wf wk') as Hwf'.
  { eapply (wf_handleMessage wk0 (MUpdate _)); [done |].
    cbn [PhysicsWorker.handleMessage]. exact Hu'. }
  clearbody pw wk. subst pw wk.
  cbn [PhysicsWorld.update PhysicsWorld.objects fst].
  split; [by rewrite Hsession |]. split.
  { split; cbn [PhysicsWorld.update PhysicsWorld.objects
                PhysicsWorld.nextBodyId fst]; rewrite ?Hb'; done. }
  pose proof (Spec.wf_capacity3 _ Hwf) as H3.
  pose proof (Spec.wf_capacity4 _ Hwf) as H4.
  unfold f32_length, JSMap.size in *.
  assert (∀ r, r ∈ JSMap.values (PhysicsWorker.bodies wk0) →
               r < length (PhysicsWorker.store wk')) as Hrefs.
  { intros r Hr. rewrite Hs', length_World_step.
    by apply (Spec.wf_refs _ Hwf). }
  exists p, q. rewrite Hworker. cbn [fst snd]. split; [apply last_snoc |].
  intros i id o Hi.
  assert (JSMap.keys (PhysicsWorker.bodies wk0) !! i = Some id) as Hki.
  { rewrite <- Hk. unfold JSMap.keys. by rewrite list_lookup_fmap, Hi. }
  destruct (PhysicsWorker.bodies wk0 !! i) as [[id' r]|] eqn:Hbi;
    [| by (unfold JSMap.keys in Hki; rewrite list_lookup_fmap, Hbi in Hki)].
  assert (id' = id) as ->.
  { unfold JSMap.keys in Hki. rewrite list_lookup_fmap, Hbi in Hki.
    by injection Hki. }
  assert (JSMap.values (PhysicsWorker.bodies wk0) !! i = Some r) as Hvi.
  { unfold JSMap.values. by rewrite list_lookup_fmap, Hbi. }
  assert (i < length (PhysicsWorker.bodies wk0)) as Hlt
    by by eapply lookup_lt_Some.
  destruct (lookup_lt_is_Some_2 (PhysicsWorker.store wk') r) as [body Hbody].
  { apply Hrefs. by eapply list_elem_of_lookup_2. }
  assert (length (JSMap.values (PhysicsWorker.bodies wk0))
          = length (PhysicsWorker.bodies wk0)) as Hlv
    by (unfold JSMap.values; by rewrite length_fmap).
  exists r, body. split_and!.
  - by rewrite Hb'.
  - apply body_of_Some. split; [| done]. rewrite Hb'.
    eapply JSMapMore.lookup_get; [| done]. apply Hwf.
  - rewrite Hdp, length_app, length_frame_positions by done. lia.
  - rewrite Hdq, length_app, length_frame_quaternions by done. lia.
  - intros k Hk3. rewrite Hdp, lookup_app_l.
    + by eapply frame_positions_entry.
    + rewrite length_frame_positions by done. lia.
  - intros k Hk4. rewrite Hdq, lookup_app_l.
    + by eapply frame_quaternions_entry.
    + rewrite length_frame_quaternions by done. lia.
Qed.

(** X12. Removals that precede an [update] do not break the correspondence
    by index of the frame of that [update].  In a session whose [addObject]
    options the Worker can build, with any removals, that ends with
    [update]: once the Worker has handled all that was sent, the two
    registries list the same ids in the same order; entry [i] of the frame
    of that [update] is the transform of the body that has the id of the
    [i]-th object of the Coordinator's registry; and the handler, run on the
    Coordinator as that [update] left it, gives the entry to that object
    (the registered objects being distinct and existing).  What a removal
    between the [update] and the receipt of its frame does is X23. *)
Theorem sync_after_removals scene actions now :
  forallb (λ x, Spec.creatable x.2) (Spec.added actions) = true →
  let all := actions ++ [Protocol.Invoke (Protocol.Update now)] in
  let pw := (Spec.session scene all).1.1 in
  let objs := (Spec.session scene all).1.2 in
  let wk := (Spec.worker_of scene all).1 in
  JSMap.keys (PhysicsWorld.objects pw) = JSMap.keys (PhysicsWorker.bodies wk)
  ∧ ∃ p q,
      last (Spec.worker_of scene all).2 = Some (ESync p q)
      ∧ ∀ i id o,
          PhysicsWorld.objects pw !! i = Some (id, o) →
          ∃ r body,
            PhysicsWorker.bodies wk !! i = Some (id, r)
            ∧ PhysicsWorker.body_of wk id = Some (r, body)
            ∧ Spec.entry3 (data p) i = Spec.triple body
            ∧ Spec.entry4 (data q) i = Spec.quadruple body
            ∧ (NoDup (JSMap.values (PhysicsWorld.objects pw)) →
               o < length objs →
               (PhysicsWorld.handleMessage pw objs (ESync p q)).2 !! o
               = Some (Spec.shows body)).
Proof.
  intros Hcre all pw objs wk.
  destruct (session_update_frame scene actions now Hcre)
    as (_ & Hsy & p & q & Hlast & Hentries).
  fold all pw wk in Hsy, Hlast, Hentries.
  split; [apply Hsy |]. exists p, q. split; [done |].
  intros i id o Hi.
  destruct (Hentries i id o Hi) as (r & body & Hb & Hbo & Hl3 & Hl4 & Hp3 & Hq4).
  exists r, body. split_and!; try done.
  - by apply WorkerClaims.entry3_lookup.
  - by apply WorkerClaims.entry4_lookup.
  - intros Hnd Ho. cbn [PhysicsWorld.handleMessage snd].
    unfold PhysicsWorld.updateObjects.
    rewrite (update_from_at _ _ _ 0 _ i o).
    + cbn [Nat.add]. rewrite decide_True by done.
      f_equal. by apply rendered_shows.
    + done.
    + unfold JSMap.values. by rewrite list_lookup_fmap, Hi.
    + done.
Qed.

(** The registry after the entry at index [j] is deleted. *)
Lemma lookup_delete_at (m : list (Z * nat)) j id o i :
  NoDup (JSMap.keys m) → m !! j = Some (id, o) →
  JSMap.values (JSMap.delete m id) !! i
  = JSMap.values m !! (if decide (i < j) then i else S i).
Proof.
  intros Hnd Hj. rewrite (JSMapMore.delete_at m j id o Hnd Hj).
  assert (j < length m) as Hlt by by eapply lookup_lt_Some.
  unfold JSMap.values. rewrite !list_lookup_fmap. f_equal.
  case_decide as Hij.
  - rewrite lookup_app_l by (rewrite length_take; lia).
    by apply lookup_take_lt.
  - rewrite lookup_app_r by (rewrite length_take; lia).
    rewrite lookup_drop, length_take. f_equal. lia.
Qed.

(** X23. A removal between [update] and the receipt of its frame shifts the
    frame.  In a session whose [addObject] options the Worker can build,
    [update] is called, then [removeObject] for the object at index [j] of
    the registry, and then the frame of that [update] is received (the
    Worker took the [UPDATE] first, so the frame has an entry for the
    removed object): the registry is one entry shorter than it was when the
    frame was made.  An object before index [j] is given the transform of
    its own body; an object after index [j] is given the transform of the
    body of the object just before it in the registry, the first of them
    that of the removed object; the removed object is not moved.  (The
    registered objects are distinct and exist.) *)
Theorem removal_before_receipt_shifts_frame scene actions now j id o :
  forallb (λ x, Spec.creatable x.2) (Spec.added actions) = true →
  let sent := actions ++ [Protocol.Invoke (Protocol.Update now)] in
  let pw := (Spec.session scene sent).1.1 in
  let wk := (Spec.worker_of scene sent).1 in
  PhysicsWorld.objects pw !! j = Some (id, o) →
  NoDup (JSMap.values (PhysicsWorld.objects pw)) →
  (∀ o', o' ∈ JSMap.values (PhysicsWorld.objects pw) → o' < length scene) →
  ∃ p q,
    last (Spec.worker_of scene sent).2 = Some (ESync p q)
    ∧ let final :=
        (Spec.session scene
           (sent ++ [Protocol.Invoke (Protocol.RemoveObject id);
                     Protocol.Receive (ESync p q)])).1 in
      S (JSMap.size (PhysicsWorld.objects final.1))
      = JSMap.size (PhysicsWorld.objects pw)
      ∧ JSMap.get (PhysicsWorld.objects final.1) id = None
      ∧ final.2 !! o = (Spec.session scene sent).1.2 !! o
      ∧ ∀ i id' o',
          PhysicsWorld.objects pw !! i = Some (id', o') →
          (i < j →
           ∃ r body,
             PhysicsWorker.body_of wk id' = Some (r, body)
             ∧ final.2 !! o' = Some (Spec.shows body))
          ∧ (j < i →
             ∃ id0 o0 r body,
               PhysicsWorld.objects pw !! (i - 1) = Some (id0, o0)
               ∧ PhysicsWorker.body_of wk id0 = Some (r, body)
               ∧ final.2 !! o' = Some (Spec.shows body)).
Proof.
  intros Hcre sent pw wk Hj Hnd Hex.
  destruct (session_update_frame scene actions now Hcre)
    as (Hobjs & Hsy & p & q & Hlast & Hentries).
  fold sent pw wk in Hobjs, Hsy, Hlast, Hentries.
  pose proof Hsy as [_ _ Hu _ _].
  set (objs := (Spec.session scene sent).1.2) in *.
  assert (length objs = length scene) as Hlen.
  { rewrite Hobjs, session_eq. cbn [fst].
    apply (length_scene_coordinator actions (PhysicsWorld.new.1, scene)). }
  assert (JSMap.get (PhysicsWorld.objects pw) id = Some o) as Hget
    by by eapply JSMapMore.lookup_get.
  exists p, q. split; [done |].
  assert ((Spec.session scene
             (sent ++ [Protocol.Invoke (Protocol.RemoveObject id);
                       Protocol.Receive (ESync p q)])).1
          = ((PhysicsWorld.removeObject pw id).1,
             PhysicsWorld.updateObjects (PhysicsWorld.removeObject pw id).1
               p q objs)) as ->.
  { rewrite session_app. unfold pw, objs.
    by destruct (Spec.session scene sent).1 as [pw' objs']. }
  cbv zeta. unfold PhysicsWorld.updateObjects.
  cbn [fst snd PhysicsWorld.removeObject PhysicsWorld.objects].
  set (m := PhysicsWorld.objects pw) in *.
  pose proof (JSMapMore.NoDup_values_delete m id Hnd) as Hnd'.
  assert (∀ i o',
            JSMap.values (JSMap.delete m id) !! i = Some o' →
            o' ∈ JSMap.values m →
            ∃ id0 o0 r body,
              m !! i = Some (id0, o0)
              ∧ PhysicsWorker.body_of wk id0 = Some (r, body)
              ∧ PhysicsWorld.update_from (data p) (data q)
                  (JSMap.values (JSMap.delete m id)) 0 objs !! o'
                = Some (Spec.shows body)) as Hgiven.
  { intros i o' Hi Ho'.
    assert (is_Some (m !! i)) as [[id0 o0] Hm].
    { apply lookup_lt_is_Some. apply lookup_lt_Some in Hi.
      unfold JSMap.values in Hi. rewrite length_fmap in Hi.
      pose proof (JSMapMore.size_delete m id o Hu Hget) as Hsize.
      unfold JSMap.size in Hsize. lia. }
    destruct (Hentries i id0 o0 Hm)
      as (r & body & _ & Hbody & Hl3 & Hl4 & Hp3 & Hq4).
    exists id0, o0, r, body. split_and!; [done | done |].
    rewrite (update_from_at _ _ _ 0 _ i o'); [| done | done |].
    - cbn [Nat.add]. rewrite decide_True by done.
      f_equal. by apply rendered_shows.
    - rewrite Hlen. by apply Hex. }
  split_and!.
  - by eapply JSMapMore.size_delete.
  - apply JSMapFacts.get_delete_eq.
  - apply update_from_other. by apply JSMapMore.values_delete_gone.
  - intros i id' o' Hi.
    assert (o' ∈ JSMap.values m) as Ho'.
    { apply (list_elem_of_fmap_2 snd _ (id', o')).
      by eapply list_elem_of_lookup_2. }
    assert (JSMap.values m !! i = Some o') as Hvi
      by (unfold JSMap.values; by rewrite list_lookup_fmap, Hi).
    split.
    + intros Hlt.
      destruct (Hgiven i o') as (id0 & o0 & r & body & Hm & Hb & Hup);
        [| done |].
      { rewrite (lookup_delete_at m j id o i Hu Hj).
        by rewrite decide_True. }
      rewrite Hi in Hm. injection Hm as <- <-. by exists r, body.
    + intros Hlt.
      destruct (Hgiven (i - 1) o')
        as (id0 & o0 & r & body & Hm & Hb & Hup); [| done |].
      { rewrite (lookup_delete_at m j id o (i - 1) Hu Hj).
        rewrite decide_False by lia. by replace (S (i - 1)) with i by lia. }
      by exists id0, o0, r, body.
Qed.

(** X13. [addObject] does not validate: with options whose shape the Worker
    does not build, the object is registered and the id is used up all the
    same, while the Worker, which raises, keeps its state and posts nothing;
    the Coordinator's registry is then one entry longer than the Worker's. *)
Theorem addObject_does_not_validate pw wk o options :
  Props.synced pw wk → Spec.creatable options = false →
  let pw' := (PhysicsWorld.addObject pw o options).1.1 in
  let id := (PhysicsWorld.addObject pw o options).2 in
  (PhysicsWorld.addObject pw o options).1.2 = [MAddBody id options]
  ∧ (∃ e, PhysicsWorker.handleMessage wk (MAddBody id options) = Throw e)
  ∧ PhysicsWorker.deliver wk (MAddBody id options) = (wk, [])
  ∧ PhysicsWorld.objects pw' = PhysicsWorld.objects pw ++ [(id, o)]
  ∧ JSMap.keys (PhysicsWorld.objects pw')
    = JSMap.keys (PhysicsWorker.bodies wk) ++ [id]
  ∧ PhysicsWorld.nextBodyId pw' = (id + 1)%Z.
Proof.
  intros [Hk Hf Hu Hw Hwf] Hc pw' id.
  assert (JSMap.get (PhysicsWorld.objects pw) id = None) as Hfresh.
  { apply JSMapFacts.get_None. intros Hin. apply Hf in Hin.
    unfold id in Hin. cbn in Hin. lia. }
  assert (∃ e, PhysicsWorker.createBody wk id options = Throw e) as [e He].
  { unfold Spec.creatable in Hc. unfold PhysicsWorker.createBody.
    destruct (PhysicsWorker.make_shape options) as [|e]; [done |].
    by exists e. }
  unfold pw'. cbn [PhysicsWorld.addObject PhysicsWorld.objects
                   PhysicsWorld.nextBodyId fst snd].
  split_and!; try done.
  - by exists e.
  - unfold PhysicsWorker.deliver. cbn [PhysicsWorker.handleMessage].
    by rewrite He.
  - by apply JSMapFacts.set_fresh.
  - rewrite JSMapFacts.keys_set. unfold id in Hfresh. cbn in Hfresh.
    by rewrite Hfresh, Hk.
Qed.

(** X14. A query for a live body resolves with that body's properties.  The
    request identifier being used by this query only, and no response to it
    having been received: the Worker answers with the properties of the body
    as it is when the query is handled; the promise is pending until the
    response is received, and on receipt it is resolved with the response and
    its callback is removed. *)
Theorem query_for_live_body_resolves scene before id rid after r body :
  forallb (λ a, negb (Spec.queries rid a)) (before ++ after) = true →
  (∀ e, e ∈ Protocol.received after → Spec.answers rid e = false) →
  let wk := (Spec.worker_of scene before).1 in
  JSMap.get (PhysicsWorker.bodies wk) id = Some r →
  PhysicsWorker.store wk !! r = Some body →
  let actions :=
    before ++ Protocol.Invoke (Protocol.GetBodyProperties id rid) :: after in
  let ps := (Spec.session scene actions).1 in
  let promise :=
    length (PhysicsWorld.promises (Spec.session scene before).1.1) in
  let response := EBodyProps (Props.properties_of body rid) in
  PhysicsWorker.handleMessage wk (MGetBodyProps id rid) = Ok (wk, [response])
  ∧ PhysicsWorld.promises ps.1 !! promise = Some None
  ∧ PhysicsWorld.promises (PhysicsWorld.handleMessage ps.1 ps.2 response).1
      !! promise
    = Some (Some (Props.properties_of body rid))
  ∧ PhysicsWorld.bodyPropsCallbacks
      (PhysicsWorld.handleMessage ps.1 ps.2 response).1 !! rid = None
  ∧ (PhysicsWorld.handleMessage ps.1 ps.2 response).2 = ps.2.
Proof.
  intros Hfresh Hrecv wk Hget Hbody actions ps promise response.
  rewrite forallb_app in Hfresh. apply andb_true_iff in Hfresh as [Hb Ha].
  assert (Spec.waiting ps.1 rid promise) as [Hcb Hpend _ Hcwf].
  { unfold ps, actions. rewrite session_app, coordinator_cons. cbn [fst].
    apply waiting_coordinator; [done | done |].
    unfold promise.
    destruct (Spec.session scene before).1 as [pw0 sc0] eqn:Hs0.
    apply waiting_query.
    replace pw0 with (Spec.session scene before).1.1 by by rewrite Hs0.
    rewrite session_eq. cbn [fst].
    apply callbacks_wf_coordinator, callbacks_wf_new. }
  split_and!.
  - cbn [PhysicsWorker.handleMessage]. unfold PhysicsWorker.getBodyProps.
    assert (PhysicsWorker.body_of wk id = Some (r, body)) as ->
      by by apply body_of_Some.
    done.
  - done.
  - unfold response. cbn [PhysicsWorld.handleMessage Props.properties_of
                           p_requestId].
    rewrite Hcb. cbn. apply list_lookup_insert_eq.
    by eapply lookup_lt_Some.
  - unfold response. cbn [PhysicsWorld.handleMessage Props.properties_of
                           p_requestId].
    rewrite Hcb. cbn. apply lookup_delete_eq.
  - unfold response. cbn [PhysicsWorld.handleMessage Props.properties_of
                           p_requestId].
    by rewrite Hcb.
Qed.

End more.
End ProtocolMore.

(** ** The helpers of the Coordinator *)

Module HelpersFacts.
Import PhysicsWorker WorkerFacts WorkerClaims ProtocolMore.

Section helpers.
Context `{CannonEngine} `{Float32}.

Lemma falsy_iff radius :
  falsy (Some radius) = true ↔
  radius = NaN ∨ ∃ q, radius = Num q ∧ (q == 0)%Q.
Proof.
  destruct radius as [| | |q]; cbn.
  - split; [by left | done].
  - split; [done | by intros [?|(? & ? & _)]].
  - split; [done | by intros [?|(? & ? & _)]].
  - rewrite Qeq_bool_iff. split.
    + intros Hz. right. by exists q.
    + by intros [?|(? & [= <-] & ?)].
Qed.

Lemma call_posts st h :
  ∃ options,
    (PhysicsHelpers.call st h).1.2
    = [MAddBody (PhysicsWorld.nextBodyId (PhysicsHelpers.physics st)) options]
    ∧ (PhysicsHelpers.call st h).2
      = PhysicsWorld.nextBodyId (PhysicsHelpers.physics st)
    ∧ (PhysicsHelpers.call st h).1.1
      = {| PhysicsHelpers.physics :=
             (PhysicsWorld.addObject (PhysicsHelpers.physics st)
                (length (PhysicsHelpers.heap st)) options).1.1;
           PhysicsHelpers.heap :=
             PhysicsHelpers.heap st
             ++ [PhysicsHelpers.position_set PhysicsHelpers.new_Mesh
                   (o_position options)];
           PhysicsHelpers.scene :=
             PhysicsHelpers.scene st ++ [length (PhysicsHelpers.heap st)] |}
    ∧ o_quaternion options = None
    ∧ (Spec.rejected options = true ↔
       ∃ radius position mass,
         h = PhysicsHelpers.Sphere (Some radius) position mass
         ∧ falsy (Some radius) = true)
    ∧ (Spec.unbuildable options = true ↔
       ∃ radius position mass,
         h = PhysicsHelpers.Sphere (Some radius) position mass
         ∧ above_zero radius = false).
Proof.
  destruct h as [size|size position mass|radius position mass];
    unfold PhysicsHelpers.call, PhysicsHelpers.addFloor, PhysicsHelpers.addBox,
      PhysicsHelpers.addSphere, PhysicsHelpers.scene_add,
      PhysicsHelpers.register;
    cbv zeta; cbn [PhysicsWorld.addObject PhysicsHelpers.physics
                   PhysicsHelpers.heap PhysicsHelpers.scene fst snd];
    (eexists; split_and!; [reflexivity | reflexivity | reflexivity
                          | reflexivity | |]).
  - split; [done | by intros (? & ? & ? & ? & _)].
  - split; [done | by intros (? & ? & ? & ? & _)].
  - split; [done | by intros (? & ? & ? & ? & _)].
  - split; [done | by intros (? & ? & ? & ? & _)].
  - unfold Spec.rejected. cbn [o_type o_radius]. split.
    + intros Hz. destruct radius as [radius|]; [| done].
      by exists radius, position, mass.
    + by intros (radius' & ? & ? & [= -> -> ->] & Hz).
  - unfold Spec.unbuildable. cbn [o_type o_radius]. split.
    + intros Hz. destruct radius as [radius|]; [| done].
      exists radius, position, mass. split; [done |].
      by apply negb_true_iff.
    + intros (radius' & ? & ? & [= -> -> ->] & Hz). cbn.
      by apply negb_true_iff.
Qed.

(** X15. The message that a helper posts makes the Worker raise its own
    configuration error in one case only: [addSphere] called with a radius
    that is [NaN] or zero.  With the shape constructors of cannon-es, an
    initialised Worker raises any error on the message in one case only:
    [addSphere] called with a radius that is not positive ([NaN], zero,
    negative).  A floor, a box of any size, and a sphere with the default
    radius or any positive radius raise none. *)
Theorem helper_refused_iff_radius_not_positive `{Hshapes : !CannonShapes}
    st h wk :
  ∃ options,
    (PhysicsHelpers.call st h).1.2
    = [MAddBody (PhysicsHelpers.call st h).2 options]
    ∧ (PhysicsHelpers.call st h).2
      = PhysicsWorld.nextBodyId (PhysicsHelpers.physics st)
    ∧ ((∃ msg, handleMessage wk (MAddBody (PhysicsHelpers.call st h).2 options)
               = Throw (ConfigError msg))
       ↔ ∃ radius position mass,
           h = PhysicsHelpers.Sphere (Some radius) position mass
           ∧ (radius = NaN ∨ ∃ q, radius = Num q ∧ (q == 0)%Q))
    ∧ (is_Some (world wk) →
       ((∃ e, handleMessage wk (MAddBody (PhysicsHelpers.call st h).2 options)
              = Throw e)
        ↔ ∃ radius position mass,
            h = PhysicsHelpers.Sphere (Some radius) position mass
            ∧ above_zero radius = false)).
Proof.
  destruct (call_posts st h) as (options & Hout & -> & _ & _ & Hrej & Hun).
  exists options. split_and!; [done | done | |].
  - transitivity (Spec.rejected options = true).
    + cbn [handleMessage]. unfold createBody.
      rewrite make_shape_spec. destruct (Spec.rejected options).
      * split; [done | intros _; by eexists].
      * split; [| done]. intros [msg Hc]. unfold new_Shape in Hc.
        destruct (shape_accepted (Spec.shape_of options)); [| done].
        cbn in Hc. destruct (world wk) as [w|]; [| done].
        match type of Hc with context [resizeArrays ?s] =>
          destruct (resizeArrays_spec s) as (st1 & Hr & _) end.
        by rewrite Hr in Hc.
    + rewrite Hrej. split.
      * intros (radius & position & mass & -> & Hf%falsy_iff).
        by exists radius, position, mass.
      * intros (radius & position & mass & -> & Hf%falsy_iff).
        by exists radius, position, mass.
  - intros [w Hw]. rewrite <- Hun. cbn [handleMessage].
    pose proof (make_shape_cannon options) as Hshape.
    destruct (Spec.unbuildable options).
    + split; [done | intros _]. unfold createBody.
      destruct (Spec.rejected options) eqn:Hr.
      * rewrite make_shape_spec, Hr. by eexists.
      * rewrite Hshape. by eexists.
    + split; [| done]. intros [e Hc].
      destruct (createBody_returns wk
                  (PhysicsWorld.nextBodyId (PhysicsHelpers.physics st))
                  options (Spec.shape_of options) w Hshape Hw)
        as (st' & Hc' & _).
      congruence.
Qed.

(** X16. A helper whose shape the Worker builds leaves the mesh and the body
    in the same place: the mesh is a new object, the last child of the
    scene, registered under the id returned; the Worker creates the body
    under that id; the transform of the mesh is the transform of the body,
    unrounded; and the two registries still list the same ids in the same
    order. *)
Theorem helper_mesh_at_body st h wk :
  Props.synced (PhysicsHelpers.physics st) wk →
  let st' := (PhysicsHelpers.call st h).1.1 in
  let id := (PhysicsHelpers.call st h).2 in
  let o := length (PhysicsHelpers.heap st) in
  ∃ options,
    (PhysicsHelpers.call st h).1.2 = [MAddBody id options]
    ∧ (Spec.creatable options = true →
       ∃ wk' body,
         deliver wk (MAddBody id options) = (wk', [])
         ∧ body_of wk' id = Some (length (store wk), body)
         ∧ JSMap.get (PhysicsWorld.objects (PhysicsHelpers.physics st')) id
           = Some o
         ∧ PhysicsHelpers.heap st'
           = PhysicsHelpers.heap st ++ [PhysicsHelpers.at_body body]
         ∧ PhysicsHelpers.scene st' = PhysicsHelpers.scene st ++ [o]
         ∧ Props.synced (PhysicsHelpers.physics st') wk').
Proof.
  intros Hsy st' id o.
  destruct (call_posts st h) as (options & Hout & Hid & Hst & Hq & _ & _).
  unfold st', id. rewrite Hid, Hst. cbn [PhysicsHelpers.physics
    PhysicsHelpers.heap PhysicsHelpers.scene].
  exists options. split; [done |]. intros Hcre.
  pose proof Hsy as [_ _ _ [w Hw] _].
  set (pw := PhysicsHelpers.physics st) in *.
  assert (∃ shape, make_shape options = Ok shape) as [shape Hshape].
  { unfold Spec.creatable in Hcre.
    destruct (make_shape options) as [shape|]; [by exists shape | done]. }
  destruct (createBody_returns wk (PhysicsWorld.nextBodyId pw) options shape w
              Hshape Hw) as (wk' & Hc & Hr).
  match type of Hr with resizeArrays ?s = _ =>
    destruct (resizeArrays_spec s) as (st1 & Hr1 & _ & Hb1 & Hs1 & _) end.
  rewrite Hr in Hr1. injection Hr1 as <-. fields.
  exists wk', (new_Body options shape). split_and!.
  - unfold deliver. cbn [handleMessage]. by rewrite Hc.
  - apply body_of_Some. rewrite Hb1, Hs1. split.
    + apply JSMapFacts.get_set_eq.
    + by rewrite lookup_app_r, Nat.sub_diag.
  - cbn. apply JSMapFacts.get_set_eq.
  - f_equal. unfold PhysicsHelpers.at_body, PhysicsHelpers.position_set.
    cbn. by rewrite Hq.
  - done.
  - pose proof (synced_act (pw, PhysicsHelpers.heap st) wk
                  (Protocol.Invoke (Protocol.AddObject o options))) as Hact.
    cbn [Protocol.act Protocol.invoke fst snd] in Hact.
    unfold PhysicsWorld.addObject in Hact at 2. cbn [fst snd] in Hact.
    rewrite run_cons in Hact. unfold deliver in Hact at 1.
    cbn [handleMessage] in Hact. rewrite Hc in Hact. cbn in Hact.
    apply Hact; [done |]. cbn. by rewrite Hcre.
Qed.

End helpers.
End HelpersFacts.

(** ** The scene and its entities *)

Module SceneFacts.
Import Scene.

Lemma jsmap_get_app {K V} `{EqDecision K} (m1 m2 : list (K * V)) k :
  JSMap.get (m1 ++ m2) k
  = match JSMap.get m1 k with
    | Some v => Some v
    | None => JSMap.get m2 k
    end.
Proof.
  induction m1 as [|[k' v'] m1 IH]; [done |]. cbn.
  by destruct (decide (k' = k)).
Qed.

Lemma jsmap_delete_app {K V} `{EqDecision K} (m1 m2 : list (K * V)) k :
  JSMap.delete (m1 ++ m2) k = JSMap.delete m1 k ++ JSMap.delete m2 k.
Proof.
  induction m1 as [|[k' v'] m1 IH]; [done |]. cbn.
  destruct (decide (k' = k)); [done |]. cbn. by rewrite IH.
Qed.

Lemma jsmap_get_delete_None {K V} `{EqDecision K} (m : list (K * V)) k k' :
  JSMap.get m k' = None → JSMap.get (JSMap.delete m k) k' = None.
Proof.
  induction m as [|[k0 v0] m IH]; [done |]. cbn.
  destruct (decide (k0 = k')) as [->|Hne]; [done |]. intros Hg.
  destruct (decide (k0 = k)); [by apply IH |]. cbn.
  rewrite decide_False by done. by apply IH.
Qed.

Lemma Object3D_remove_gone children o :
  NoDup children → o ∉ Object3D_remove children o.
Proof.
  induction children as [|c children IH]; intros Hnd.
  - by intros ?%elem_of_nil.
  - apply NoDup_cons in Hnd as [Hc Hnd]. cbn.
    destruct (decide (c = o)) as [->|Hne]; [done |].
    intros [?|?]%elem_of_cons; [done |]. by apply IH.
Qed.

Lemma Object3D_remove_other children o o' :
  o' ≠ o → o' ∈ Object3D_remove children o ↔ o' ∈ children.
Proof.
  intros Hne. induction children as [|c children IH]; [done |]. cbn.
  destruct (decide (c = o)) as [->|Hc].
  - rewrite elem_of_cons. split; [by right | by intros [?|?]].
  - by rewrite !elem_of_cons, IH.
Qed.

(** X17. [removeEntity] on an id that the registry does not hold returns
    false and changes nothing.  On an id that it holds, it returns true; it
    posts the removal of the body exactly when the entity has a physics id,
    and the Coordinator forgets that id; the mesh, if any, leaves the
    children of the scene (which hold no object twice) and no other object
    does; the entity leaves the registry and no other does;
    the queue of entities to add stays as it is; and a second call returns
    false and changes nothing. *)
Theorem removeEntity_once heap st x :
  let res := removeEntity heap st x in
  match getEntity st (id_of heap x) with
  | None => res = (st, [], false)
  | Some e =>
      res.2 = true
      ∧ res.1.2 = match Entity.physicsId (heap e) with
                  | Some physicsId => [MRemoveBody physicsId]
                  | None => []
                  end
      ∧ (∀ physicsId, Entity.physicsId (heap e) = Some physicsId →
           JSMap.get (PhysicsWorld.objects (physics res.1.1)) physicsId
           = None)
      ∧ (Entity.physicsId (heap e) = None → physics res.1.1 = physics st)
      ∧ (∀ mesh, Entity.mesh (heap e) = Some mesh →
           NoDup (threeScene st) →
           (mesh ∉ threeScene res.1.1)
           ∧ ∀ o, o ≠ mesh → o ∈ threeScene res.1.1 ↔ o ∈ threeScene st)
      ∧ (Entity.mesh (heap e) = None → threeScene res.1.1 = threeScene st)
      ∧ getEntity res.1.1 (id_of heap x) = None
      ∧ (∀ id', id' ≠ id_of heap x →
           getEntity res.1.1 id' = getEntity st id')
      ∧ entitiesToAdd res.1.1 = entitiesToAdd st
      ∧ removeEntity heap res.1.1 x = (res.1.1, [], false)
  end.
Proof.
  intros res. unfold res, removeEntity, getEntity.
  destruct (JSMap.get (entities st) (id_of heap x)) as [e|] eqn:Hget;
    [| done].
  assert (JSMap.get (JSMap.delete (entities st) (id_of heap x)) (id_of heap x)
          = None) as Hgone by apply JSMapFacts.get_delete_eq.
  destruct (Entity.physicsId (heap e)) as [physicsId|];
    destruct (Entity.mesh (heap e)) as [mesh|];
    cbn [PhysicsWorld.removeObject fst snd threeScene physics entities
         entitiesToAdd PhysicsWorld.objects]; rewrite ?Hgone;
    split_and!; try done.
  - intros ? [= <-]. apply JSMapFacts.get_delete_eq.
  - intros ? [= <-] Hnd. split.
    + by apply Object3D_remove_gone.
    + intros o Ho. by apply Object3D_remove_other.
  - intros id' Hne. by apply JSMapMore.get_delete_ne.
  - intros ? [= <-]. apply JSMapFacts.get_delete_eq.
  - intros id' Hne. by apply JSMapMore.get_delete_ne.
  - intros ? [= <-] Hnd. split.
    + by apply Object3D_remove_gone.
    + intros o Ho. by apply Object3D_remove_other.
  - intros id' Hne. by apply JSMapMore.get_delete_ne.
  - intros id' Hne. by apply JSMapMore.get_delete_ne.
Qed.

Lemma flush_entities heap st :
  entities (flush heap st)
  = foldl (λ m entity, JSMap.set m (Entity.id (heap entity)) entity)
      (entities st) (entitiesToAdd st)
  ∧ entitiesToAdd (flush heap st) = [].
Proof. unfold flush. by destruct (entitiesToAdd st) eqn:Hq. Qed.

(** X18. An entity whose id the registry does not hold: added before
    [initialize], it is in the registry at once, after the entities that
    were there.  Added after it, it is only queued: until the next [update] the
    registry does not hold it, [removeEntity] returns false for it and
    leaves it queued, and the first block of [update] then puts it in the
    registry and empties the queue. *)
Theorem addEntity_is_deferred heap st entity :
  getEntity st (Entity.id (heap entity)) = None →
  let st1 := addEntity heap st entity in
  if isInitialized st then
    getEntity st1 (Entity.id (heap entity)) = None
    ∧ getAllEntities st1 = getAllEntities st
    ∧ removeEntity heap st1 (AnEntity entity) = (st1, [], false)
    ∧ getEntity (flush heap st1) (Entity.id (heap entity)) = Some entity
    ∧ entitiesToAdd (flush heap st1) = []
  else
    getEntity st1 (Entity.id (heap entity)) = Some entity
    ∧ getAllEntities st1 = getAllEntities st ++ [entity]
    ∧ entitiesToAdd st1 = entitiesToAdd st.
Proof.
  intros Hnone st1. unfold st1, addEntity.
  destruct (isInitialized st) eqn:Hinit.
  - split_and!.
    + done.
    + done.
    + unfold removeEntity, id_of. cbn [entities].
      unfold getEntity in Hnone. by rewrite Hnone.
    + unfold getEntity. destruct (flush_entities heap
        {| threeScene := threeScene st; physics := physics st;
           entities := entities st;
           entitiesToAdd := entitiesToAdd st ++ [entity];
           isInitialized := true |}) as [-> _].
      cbn [entities entitiesToAdd]. rewrite foldl_app. cbn [foldl].
      apply JSMapFacts.get_set_eq.
    + apply flush_entities.
  - unfold getEntity, getAllEntities in *. cbn [entities entitiesToAdd].
    split_and!; [apply JSMapFacts.get_set_eq | | done].
    rewrite JSMapFacts.set_fresh by done.
    unfold JSMap.values. by rewrite fmap_app.
Qed.

Lemma sweep_forgets heap l : ∀ acc physicsId,
  JSMap.get (PhysicsWorld.objects (physics acc.1)) physicsId = None →
  JSMap.get
    (PhysicsWorld.objects (physics (foldl (sweep_entry heap) acc l).1))
    physicsId = None.
Proof.
  induction l as [|x l IH]; intros acc physicsId Hg; [done |].
  cbn [foldl]. apply IH. unfold sweep_entry.
  destruct (Entity.isDestroyed (heap x.2)); [| done].
  unfold removeEntity, id_of.
  destruct (JSMap.get (entities acc.1) x.1) as [e|]; [| done].
  destruct (Entity.physicsId (heap e)) as [pid|]; [| done].
  cbn. by apply jsmap_get_delete_None.
Qed.

Lemma sweep_entry_spec heap acc id e :
  JSMap.get (entities acc.1) id = Some e →
  let acc' := sweep_entry heap acc (id, e) in
  entities acc'.1
  = (if Entity.isDestroyed (heap e)
     then JSMap.delete (entities acc.1) id else entities acc.1)
  ∧ acc'.2 = acc.2 ++ removal heap (id, e)
  ∧ entitiesToAdd acc'.1 = entitiesToAdd acc.1
  ∧ isInitialized acc'.1 = isInitialized acc.1
  ∧ ∀ physicsId,
      Entity.isDestroyed (heap e) = true →
      Entity.physicsId (heap e) = Some physicsId →
      JSMap.get (PhysicsWorld.objects (physics acc'.1)) physicsId = None.
Proof.
  intros Hget. unfold sweep_entry, removal, removeEntity, id_of.
  cbn [fst snd]. destruct (Entity.isDestroyed (heap e)).
  - rewrite Hget. destruct (Entity.physicsId (heap e)) as [pid|]; cbn.
    + split_and!; try done. intros ? _ [= <-].
      apply JSMapFacts.get_delete_eq.
    + split_and!; done.
  - rewrite app_nil_r. split_and!; done.
Qed.

Lemma sweep_from heap l : ∀ kept acc,
  entities acc.1 = kept ++ l →
  NoDup (JSMap.keys (kept ++ l)) →
  let res := foldl (sweep_entry heap) acc l in
  entities res.1
  = kept ++ filter (λ x, Entity.isDestroyed (heap x.2) = false) l
  ∧ res.2 = acc.2 ++ (l ≫= removal heap)
  ∧ entitiesToAdd res.1 = entitiesToAdd acc.1
  ∧ isInitialized res.1 = isInitialized acc.1
  ∧ ∀ x physicsId,
      x ∈ l → Entity.isDestroyed (heap x.2) = true →
      Entity.physicsId (heap x.2) = Some physicsId →
      JSMap.get (PhysicsWorld.objects (physics res.1)) physicsId = None.
Proof.
  induction l as [|[id e] l IH]; intros kept acc Hent Hnd res.
  - unfold res. cbn. rewrite !app_nil_r in *. split_and!; try done.
    by intros ? ? ?%elem_of_nil.
  - unfold res. cbn [foldl].
    assert ((id ∉ JSMap.keys kept) ∧ (id ∉ JSMap.keys l)) as [Hk Hl].
    { unfold JSMap.keys in *. rewrite fmap_app, fmap_cons in Hnd.
      apply NoDup_app in Hnd as (_ & Hdis & Hnd).
      apply NoDup_cons in Hnd as [Hl _]. split; [| done].
      intros Hin. apply (Hdis _ Hin). apply list_elem_of_here. }
    assert (JSMap.get (entities acc.1) id = Some e) as Hget.
    { rewrite Hent, jsmap_get_app.
      apply JSMapFacts.get_None in Hk. rewrite Hk. cbn.
      by rewrite decide_True. }
    destruct (sweep_entry_spec heap acc id e Hget)
      as (Hes & Hos & Hqs & His & Hps).
    set (acc' := sweep_entry heap acc (id, e)) in *.
    destruct (Entity.isDestroyed (heap e)) eqn:Hd.
    + (* the entry is removed *)
      assert (entities acc'.1 = kept ++ l) as Hent'.
      { rewrite Hes, Hent, jsmap_delete_app.
        cbn. rewrite decide_True by done.
        rewrite !JSMapFacts.delete_absent
          by by apply JSMapFacts.get_None. done. }
      assert (NoDup (JSMap.keys (kept ++ l))) as Hnd'.
      { unfold JSMap.keys in *. rewrite fmap_app, fmap_cons in Hnd.
        rewrite fmap_app. apply NoDup_app in Hnd as (H1 & H2 & H3).
        apply NoDup_cons in H3 as [_ H3]. apply NoDup_app. split_and!;
          [done | | done].
        intros k Hk1 Hk2. apply (H2 k Hk1). by apply list_elem_of_further. }
      destruct (IH kept acc' Hent' Hnd') as (He & Ho & Hq & Hi & Hp).
      split_and!.
      * rewrite He. rewrite filter_cons_False; [done |]. cbn. by rewrite Hd.
      * by rewrite Ho, Hos, <- app_assoc, bind_cons.
      * by rewrite Hq.
      * by rewrite Hi.
      * intros x physicsId [->|Hx]%elem_of_cons Hdx Hpx.
        -- apply sweep_forgets. by apply Hps.
        -- by eapply Hp.
    + (* the entry stays *)
      assert (entities acc'.1 = (kept ++ [(id, e)]) ++ l) as Hent'
        by by rewrite Hes, <- app_assoc.
      assert (NoDup (JSMap.keys ((kept ++ [(id, e)]) ++ l))) as Hnd'
        by by rewrite <- app_assoc.
      destruct (IH (kept ++ [(id, e)]) acc' Hent' Hnd')
        as (He & Ho & Hq & Hi & Hp).
      split_and!.
      * rewrite He, <- app_assoc. f_equal.
        rewrite filter_cons_True; [done |]. done.
      * by rewrite Ho, Hos, <- app_assoc, bind_cons.
      * by rewrite Hq.
      * by rewrite Hi.
      * intros x physicsId [->|Hx]%elem_of_cons Hdx Hpx.
        -- cbn in Hdx. congruence.
        -- by eapply Hp.
Qed.

(** X19. When the components return, [update] returns, and the registry is
    then what the components left of it (a [Map], which has no key twice)
    without the destroyed entities, in the same order: no entity of the
    registry is destroyed.  What is posted
    is the [UPDATE] of the Coordinator, what the components posted, and one
    removal for every destroyed entity that has a physics id, in the order
    of the registry; the Coordinator has forgotten these ids.  The queue is
    as the components left it. *)
Theorem update_sweeps_destroyed entities_update heap st dt now heap3 st3 out2 :
  entities_update dt heap (physics_update (flush heap st) now).1
  = Ok (heap3, st3, out2) →
  NoDup (JSMap.keys (entities st3)) →
  ∃ st4,
    update entities_update heap st dt now
    = Ok (heap3, st4,
          [MUpdate (PhysicsWorld.capped_dt now
                      (PhysicsWorld.lastUpdateTime (physics st)))]
          ++ out2 ++ (entities st3 ≫= removal heap3))
    ∧ entities st4
      = filter (λ x, Entity.isDestroyed (heap3 x.2) = false) (entities st3)
    ∧ (∀ id e, getEntity st4 id = Some e →
               Entity.isDestroyed (heap3 e) = false)
    ∧ (∀ x physicsId,
         x ∈ entities st3 → Entity.isDestroyed (heap3 x.2) = true →
         Entity.physicsId (heap3 x.2) = Some physicsId →
         JSMap.get (PhysicsWorld.objects (physics st4)) physicsId = None)
    ∧ entitiesToAdd st4 = entitiesToAdd st3.
Proof.
  intros Hmid Hnd.
  pose proof (sweep_from heap3 (entities st3) [] (st3, []) eq_refl Hnd)
    as (He & Ho & Hq & _ & Hp).
  fold (sweep heap3 st3) in He, Ho, Hq, Hp. cbn [fst snd app] in *.
  exists (sweep heap3 st3).1. split_and!.
  - unfold update. unfold physics_update in *.
    cbn [PhysicsWorld.update fst snd] in *. rewrite Hmid. cbn.
    destruct (sweep heap3 st3) as [st4 out3]. cbn [fst snd] in *.
    assert (physics (flush heap st) = physics st) as ->
      by (unfold flush; by destruct (entitiesToAdd st)).
    by rewrite Ho.
  - done.
  - intros id e Hget. unfold getEntity in Hget. rewrite He in Hget.
    apply JSMapFacts.get_Some_values in Hget.
    unfold JSMap.values in Hget.
    apply list_elem_of_fmap in Hget as ([id' e'] & -> & Hin).
    by apply list_elem_of_filter in Hin as [Hd _].
  - done.
  - done.
Qed.

Section worker.
Context `{CannonEngine} `{Float32}.

(** X22. The removal of an entity reaches the Worker.  With the two
    registries listing the same ids, and an entity of the scene's registry
    that has a physics id: once the Worker has handled what [removeEntity]
    posted, it has posted nothing itself, neither registry holds the id, the
    Worker's other ids name the bodies they named, and the two registries
    still list the same ids in the same order. *)
Theorem removeEntity_reaches_worker heap st x wk e physicsId :
  Props.synced (physics st) wk →
  getEntity st (id_of heap x) = Some e →
  Entity.physicsId (heap e) = Some physicsId →
  let res := removeEntity heap st x in
  let wk' := (PhysicsWorker.run wk res.1.2).1 in
  res.1.2 = [MRemoveBody physicsId]
  ∧ (PhysicsWorker.run wk res.1.2).2 = []
  ∧ JSMap.get (PhysicsWorker.bodies wk') physicsId = None
  ∧ JSMap.get (PhysicsWorld.objects (physics res.1.1)) physicsId = None
  ∧ (∀ id', id' ≠ physicsId →
       JSMap.get (PhysicsWorker.bodies wk') id'
       = JSMap.get (PhysicsWorker.bodies wk) id')
  ∧ Props.synced (physics res.1.1) wk'.
Proof.
  intros Hsy Hget Hpid res wk'. unfold wk', res, removeEntity.
  unfold getEntity in Hget. rewrite Hget, Hpid.
  cbn [PhysicsWorld.removeObject fst snd physics].
  pose proof (ProtocolMore.synced_act (physics st, []) wk
                (Protocol.Invoke (Protocol.RemoveObject physicsId)) Hsy
                eq_refl) as Hact.
  cbn [Protocol.act Protocol.invoke PhysicsWorld.removeObject fst snd]
    in Hact.
  pose proof Hsy as [_ _ _ [w Hw] _].
  rewrite WorkerFacts.run_cons in *. unfold PhysicsWorker.deliver in *.
  cbn [PhysicsWorker.handleMessage PhysicsWorker.run] in *.
  unfold PhysicsWorker.removeBody in *. rewrite Hw in *.
  destruct (JSMap.get (PhysicsWorker.bodies wk) physicsId) as [r|] eqn:Hb;
    cbn [fst snd app PhysicsWorker.bodies PhysicsWorld.objects] in *.
  - split_and!; try done.
    + apply JSMapFacts.get_delete_eq.
    + apply JSMapFacts.get_delete_eq.
    + intros id' Hne. by apply JSMapMore.get_delete_ne.
  - split_and!; try done. apply JSMapFacts.get_delete_eq.
Qed.

End worker.

End SceneFacts.

(** ** The keyboard *)

Module InputFacts.
Import InputManager.

Lemma pressed_dispatch st e k :
  wasKeyPressed (dispatch st e) k
  = wasKeyPressed st k
    || bool_decide (e = KeyDown k) && negb (isKeyDown st k).
Proof.
  unfold wasKeyPressed, isKeyDown.
  destruct e as [code|code]; cbn [dispatch handleKeyDown handleKeyUp
                                  keysPressedThisFrame keys].
  - destruct (decide (code = k)) as [->|Hne].
    + rewrite bool_decide_eq_true_2 by done.
      destruct (keys st !! k) as [[]|]; cbn.
      * by rewrite orb_false_r.
      * rewrite lookup_insert_eq. cbn. by rewrite orb_true_r.
      * rewrite lookup_insert_eq. cbn. by rewrite orb_true_r.
    + rewrite bool_decide_eq_false_2 by congruence. cbn.
      rewrite orb_false_r.
      destruct (keys st !! code) as [[]|]; [done | |];
        by rewrite lookup_insert_ne.
  - rewrite bool_decide_eq_false_2 by done. cbn. by rewrite orb_false_r.
Qed.

Lemma down_dispatch st e k :
  isKeyDown (dispatch st e) k
  = if decide (code_of e = k)
    then bool_decide (e = KeyDown k) else isKeyDown st k.
Proof.
  unfold isKeyDown.
  destruct e as [code|code]; cbn [dispatch handleKeyDown handleKeyUp keys
                                  code_of];
    destruct (decide (code = k)) as [->|Hne].
  - rewrite lookup_insert_eq. cbn. by rewrite bool_decide_eq_true_2.
  - by rewrite lookup_insert_ne.
  - rewrite lookup_insert_eq. cbn. by rewrite bool_decide_eq_false_2.
  - by rewrite lookup_insert_ne.
Qed.

Lemma released_dispatch st e k :
  wasKeyReleased (dispatch st e) k
  = wasKeyReleased st k || bool_decide (e = KeyUp k).
Proof.
  unfold wasKeyReleased.
  destruct e as [code|code]; cbn [dispatch handleKeyDown handleKeyUp
                                  keysReleasedThisFrame].
  - rewrite bool_decide_eq_false_2 by done. by rewrite orb_false_r.
  - destruct (decide (code = k)) as [->|Hne].
    + rewrite lookup_insert_eq, bool_decide_eq_true_2 by done. cbn.
      by rewrite orb_true_r.
    + rewrite lookup_insert_ne, bool_decide_eq_false_2 by congruence.
      by rewrite orb_false_r.
Qed.

Lemma pressed_foldl events : ∀ st k,
  wasKeyPressed (foldl dispatch st events) k = true ↔
  wasKeyPressed st k = true
  ∨ ∃ before after,
      events = before ++ KeyDown k :: after
      ∧ isKeyDown (foldl dispatch st before) k = false.
Proof.
  induction events as [|e events IH] using rev_ind; intros st k.
  - cbn. split; [by left |]. intros [?|(before & after & Heq & _)]; [done |].
    by destruct before.
  - rewrite foldl_app. cbn [foldl]. rewrite pressed_dispatch.
    rewrite orb_true_iff, andb_true_iff, bool_decide_eq_true,
      negb_true_iff, IH.
    split.
    + intros [[Hp|(before & after & -> & Hup)]|[-> Hup]].
      * by left.
      * right. exists before, (after ++ [e]).
        by rewrite <- app_assoc.
      * right. by exists events, [].
    + intros [Hp|(before & after & Heq & Hup)]; [by left; left |].
      destruct after as [|a after _] using rev_ind.
      * apply app_inj_tail in Heq as [-> ->]. by right.
      * left. right. exists before, after.
        rewrite app_comm_cons, app_assoc in Heq.
        by apply app_inj_tail in Heq as [-> _].
Qed.

Lemma down_foldl events : ∀ st k,
  isKeyDown (foldl dispatch st events) k
  = match last (filter (λ e, code_of e = k) events) with
    | Some e => bool_decide (e = KeyDown k)
    | None => isKeyDown st k
    end.
Proof.
  induction events as [|e events IH] using rev_ind; intros st k; [done |].
  rewrite foldl_app. cbn [foldl]. rewrite down_dispatch, filter_app.
  destruct (decide (code_of e = k)) as [He|He].
  - rewrite filter_cons_True, filter_nil by done. by rewrite last_snoc.
  - rewrite filter_cons_False, filter_nil, app_nil_r by done. apply IH.
Qed.

Lemma released_foldl events : ∀ st k,
  wasKeyReleased (foldl dispatch st events) k = true ↔
  wasKeyReleased st k = true ∨ KeyUp k ∈ events.
Proof.
  induction events as [|e events IH] using rev_ind; intros st k.
  - cbn. split; [by left | by intros [?|?%elem_of_nil]].
  - rewrite foldl_app. cbn [foldl].
    rewrite released_dispatch, orb_true_iff, bool_decide_eq_true, IH,
      elem_of_app, list_elem_of_singleton.
    split.
    + intros [[?|?]|?]; [by left | by right; left | by right; right].
    + intros [?|[?|?]]; [by left; left | by left; right | by right].
Qed.

(** X20. Within a frame a key counts as pressed exactly when a key-down
    event for it arrived while it was up: the repeated key-down events of a
    key that is held are no presses.  Whether the key is down at the end is
    what its last event says, or what held before the frame if there was
    none. *)
Theorem pressed_iff_went_down st events k :
  (wasKeyPressed (frame st events) k = true ↔
   ∃ before after,
     events = before ++ KeyDown k :: after
     ∧ isKeyDown (frame st before) k = false)
  ∧ isKeyDown (frame st events) k
    = match last (filter (λ e, code_of e = k) events) with
      | Some e => bool_decide (e = KeyDown k)
      | None => isKeyDown st k
      end
  ∧ (isKeyDown st k = true →
     Forall (λ e, e ≠ KeyUp k) events →
     wasKeyPressed (frame st events) k = false).
Proof.
  unfold frame. split_and!.
  - rewrite pressed_foldl. split; [| by right].
    by intros [?|?].
  - by rewrite down_foldl.
  - intros Hdown Hno.
    destruct (wasKeyPressed (foldl dispatch (update st) events) k) eqn:Hp;
      [| done].
    apply pressed_foldl in Hp as [?|(before & after & -> & Hup)]; [done |].
    rewrite down_foldl in Hup.
    apply Forall_app in Hno as [Hno _].
    destruct (last (filter (λ e, code_of e = k) before)) as [e|] eqn:Hlast.
    + apply last_Some_elem_of, list_elem_of_filter in Hlast as [Hcode Hin].
      rewrite Forall_forall in Hno. specialize (Hno e Hin).
      destruct e as [code|code]; cbn in Hcode; subst code; [| done].
      by rewrite bool_decide_eq_true_2 in Hup.
    + unfold isKeyDown, update in *. cbn [keys] in *. congruence.
Qed.

(** X21. Within a frame a key counts as released exactly when a key-up event
    for it arrived, whether or not the key was down; and [update] forgets
    both the presses and the releases, and no key state. *)
Theorem released_iff_key_up st events k :
  (wasKeyReleased (frame st events) k = true ↔ KeyUp k ∈ events)
  ∧ wasKeyPressed (update (frame st events)) k = false
  ∧ wasKeyReleased (update (frame st events)) k = false
  ∧ isKeyDown (update (frame st events)) k = isKeyDown (frame st events) k.
Proof.
  unfold frame. split_and!; [| done | done | done].
  rewrite released_foldl. split; [| by right]. by intros [?|?].
Qed.

End InputFacts.

(** ** The model at work, on the reference engine *)

Module Examples.
Import Reference.

Lemma two_boxes_reachable :
  Spec.reachable (H := engine) (H0 := rounding) two_boxes.
Proof. by eexists. Qed.


(** Two updates sixteen milliseconds apart, with an object added in
    between. *)
Lemma update_dt_capped_witness :
  ∃ dt,
    (Protocol.act
       (Protocol.coordinator
          (Protocol.act (PhysicsWorld.new.1, [origin])
             (Protocol.Invoke (Protocol.Update 1000))).1
          [Protocol.Invoke (Protocol.AddObject 0 (box 0 1 0))]).1
       (Protocol.Invoke (Protocol.Update 1016))).2 = [MUpdate dt]
    ∧ dt = ((1016 - 1000) / 1000)%Q.
Proof.
  destruct (CoordinatorFacts.update_dt_capped (PhysicsWorld.new.1, [origin])
              1000 [Protocol.Invoke (Protocol.AddObject 0 (box 0 1 0))] 1016)
    as (_ & _ & dt & Hsent & Hsmall & _ & _); [reflexivity |].
  exists dt. split; [exact Hsent |]. apply Hsmall. by vm_compute.
Defined.

(** The reference engine has the shape constructors of cannon-es. *)
Lemma engine_shapes : CannonShapes (H := engine).
Proof. by split. Qed.

(** After two boxes a sphere of radius one half is created, and a sphere of
    radius minus one is refused by the engine's constructor. *)
Lemma createBody_configuration_error_witness :
  (∃ st',
     handle two_boxes (MAddBody 3 (sphere (1 # 2) 0 5 0)) = Ok (st', [])
     ∧ JSMap.get (PhysicsWorker.bodies st') 3%Z = Some 2)
  ∧ handle two_boxes (MAddBody 3 (sphere (- (1)) 0 5 0)) = Throw EngineError.
Proof.
  split.
  - destruct (WorkerClaims.createBody_configuration_error (H := engine)
                (H0 := rounding) (Hshapes := engine_shapes) two_boxes 3
                (sphere (1 # 2) 0 5 0))
      as (_ & _ & _ & _ & _ & Hreturns).
    destruct Hreturns as (st' & Hcreate & Hget & _);
      [reflexivity | by eexists |].
    exists st'. split; assumption.
  - destruct (WorkerClaims.createBody_configuration_error (H := engine)
                (H0 := rounding) (Hshapes := engine_shapes) two_boxes 3
                (sphere (- (1)) 0 5 0))
      as (_ & _ & _ & _ & [_ Hengine] & _).
    apply Hengine. split; [reflexivity |].
    exists (Num (- (1))). split; reflexivity.
Defined.

(** A box whose size is present and zero violates the shape invariant, is
    not a configuration error for any engine, and is created: by every
    initialised Worker whose engine has the constructors of cannon-es, and
    by the reference engine after two boxes. *)
Lemma createBody_accepts_flat_box :
  Spec.shape_invariant flat_box = false
  ∧ (∀ (E : CannonEngine) (F : Float32) st id msg,
       PhysicsWorker.handleMessage st (MAddBody id flat_box)
       ≠ Throw (ConfigError msg))
  ∧ (∀ (E : CannonEngine) (F : Float32) (S : CannonShapes) st id,
       is_Some (PhysicsWorker.world st) →
       ∃ st', PhysicsWorker.handleMessage st (MAddBody id flat_box)
              = Ok (st', []))
  ∧ ∃ st',
      handle two_boxes (MAddBody 3 flat_box) = Ok (st', [])
      ∧ JSMap.get (PhysicsWorker.bodies st') 3%Z = Some 2.
Proof.
  split_and!.
  - reflexivity.
  - intros E F st id msg. cbn [PhysicsWorker.handleMessage].
    unfold PhysicsWorker.createBody.
    rewrite WorkerClaims.make_shape_spec. cbn.
    unfold PhysicsWorker.new_Shape.
    destruct (shape_accepted _); [| done]. cbn.
    destruct (PhysicsWorker.world st); [| done].
    match goal with |- context [PhysicsWorker.resizeArrays ?s] =>
      destruct (WorkerFacts.resizeArrays_spec s) as (st1 & -> & _) end.
    done.
  - intros E F S st id [w Hw]. cbn [PhysicsWorker.handleMessage].
    destruct (WorkerFacts.createBody_returns st id flat_box
                (Spec.shape_of flat_box) w) as (st' & Hc & _); [| done |].
    + by rewrite WorkerClaims.make_shape_cannon.
    + by exists st'.
  - eexists. split; [by vm_compute | reflexivity].
Qed.

(** Before [INIT]: a removal and a query are handled without error, and a
    body is not created. *)
Lemma before_initialize_witness :
  handle (PhysicsWorker.run (H := engine) (H0 := rounding) PhysicsWorker.new
            [MRemoveBody 1; MUpdate (1 # 60)]).1
    (MGetBodyProps 1 "a")
  = Ok (PhysicsWorker.new, [])
  ∧ ∃ e,
      handle (PhysicsWorker.run (H := engine) (H0 := rounding)
                PhysicsWorker.new [MRemoveBody 1; MUpdate (1 # 60)]).1
        (MAddBody 1 (box 0 1 0))
      = Throw e.
Proof.
  split.
  - destruct (WorkerClaims.before_initialize (H := engine) (H0 := rounding)
                [MRemoveBody 1; MUpdate (1 # 60)] (MGetBodyProps 1 "a"))
      as [Hnew Hquery]; [reflexivity | reflexivity |].
    cbn [Spec.needs_world] in Hquery. rewrite Hquery. by rewrite Hnew.
  - destruct (WorkerClaims.before_initialize (H := engine) (H0 := rounding)
                [MRemoveBody 1; MUpdate (1 # 60)] (MAddBody 1 (box 0 1 0)))
      as [_ Hcreate]; [reflexivity | reflexivity |].
    exact Hcreate.
Defined.

(** A Worker that has handled nothing removes, moves and queries without
    raising anything. *)
Lemma uninitialized_commands_return :
  handle PhysicsWorker.new (MRemoveBody 1) = Ok (PhysicsWorker.new, [])
  ∧ handle PhysicsWorker.new (MSetPosition 1 (mkVec3 0 0 0))
    = Ok (PhysicsWorker.new, [])
  ∧ handle PhysicsWorker.new (MApplyImpulse 1 (mkVec3 0 5 0) None)
    = Ok (PhysicsWorker.new, [])
  ∧ handle PhysicsWorker.new (MGetBodyProps 1 "a")
    = Ok (PhysicsWorker.new, []).
Proof. by split_and!. Qed.

(** One object; a query for an id that was never created, with request
    identifier [q1]; an update, and the frame it produces is received.  The
    callback of [q1] is still in the table and its promise is pending. *)
Lemma getBodyProperties_response_witness :
  let scene := [origin] in
  let before := [Protocol.Invoke (Protocol.AddObject 0 (box 0 1 0))] in
  let query := Protocol.Invoke (Protocol.GetBodyProperties 7 "q1") in
  let frames :=
    (worker_of scene
       (before ++ [query; Protocol.Invoke (Protocol.Update 1000)])).2 in
  let after :=
    Protocol.Invoke (Protocol.Update 1000) :: map Protocol.Receive frames in
  let pw := (Spec.session scene (before ++ query :: after)).1.1 in
  length frames = 1
  ∧ PhysicsWorld.bodyPropsCallbacks pw !! "q1" = Some 0
  ∧ PhysicsWorld.promises pw !! 0 = Some None.
Proof.
  intros scene before query frames after pw.
  pose proof (ProtocolClaims.getBodyProperties_response (H := engine)
                (H0 := rounding) scene before 7 "q1" after) as Hthm.
  assert (JSMap.get
            (PhysicsWorker.bodies (worker_of scene before).1) 7%Z = None)
    as Hget by reflexivity.
  cbv zeta in Hthm. rewrite Hget in Hthm.
  destruct Hthm as (_ & _ & Hcallback & Hpending).
  - reflexivity.
  - intros e He. vm_compute in He. vm_compute. exact He.
  - split_and!; [reflexivity | exact Hcallback | exact Hpending].
Defined.

(** An update of the Worker that holds two boxes. *)
Lemma update_steps_once_and_syncs_witness :
  ∃ st' p q,
    handle two_boxes (MUpdate (1 # 60)) = Ok (st', [ESync p q])
    ∧ buffer p = 4 ∧ buffer q = 5
    ∧ data (PhysicsWorker.positions st') = PhysicsWorker.zeros 6
    ∧ data (PhysicsWorker.quaternions st') = PhysicsWorker.zeros 8
    ∧ Spec.gone
        (PhysicsWorker.run (H := engine) (H0 := rounding) st'
           [MAddBody 3 (box 0 5 0); MUpdate (1 # 60)]).1 4.
Proof.
  edestruct (WorkerClaims.update_steps_once_and_syncs (H := engine)
               (H0 := rounding) two_boxes)
    as (st' & p & q & Hupdate & _ & _ & _ & Hbodies & _ & _ & Hbp & Hbq
        & Hp' & Hq' & Hgone).
  - apply two_boxes_reachable.
  - reflexivity.
  - rewrite Hbodies in Hp', Hq'.
    exists st', p, q. split_and!.
    + exact Hupdate.
    + exact Hbp.
    + exact Hbq.
    + exact Hp'.
    + exact Hq'.
    + change 4 with (buffer (PhysicsWorker.positions two_boxes)).
      rewrite <- Hbp. apply Hgone.
Defined.

(** The second box is moved and read back. *)
Lemma setPosition_then_getBodyProps_witness :
  ∃ st1 props,
    handle two_boxes (MSetPosition 2 (mkVec3 5 6 7)) = Ok (st1, [])
    ∧ handle st1 (MGetBodyProps 2 "a") = Ok (st1, [EBodyProps props])
    ∧ p_position props = mkVec3 5 6 7.
Proof.
  destruct (WorkerClaims.setPosition_then_getBodyProps (H := engine)
              (H0 := rounding) two_boxes 2 (mkVec3 5 6 7) "a" 1)
    as (st1 & props & body & Hset & Hget & Hposition & _).
  - apply two_boxes_reachable.
  - reflexivity.
  - exists st1, props. split_and!; assumption.
Defined.

(** Id 9 was never created. *)
Lemma removeBody_unknown_and_idempotent_witness :
  handle two_boxes (MRemoveBody 9) = Ok (two_boxes, [])
  ∧ PhysicsWorker.run (H := engine) (H0 := rounding) two_boxes
      [MRemoveBody 1; MRemoveBody 1]
    = PhysicsWorker.run (H := engine) (H0 := rounding) two_boxes
        [MRemoveBody 1].
Proof.
  split.
  - apply (WorkerClaims.removeBody_unknown_and_idempotent (H := engine)
             (H0 := rounding) two_boxes 9). reflexivity.
  - apply (WorkerClaims.removeBody_unknown_and_idempotent (H := engine)
             (H0 := rounding) two_boxes 1).
Defined.

(** A third body makes the arrays grow from 6 and 8 to 9 and 12: what a
    frame has written is still there, followed by zeros; and the first box
    keeps its index. *)
Lemma createBody_grows_arrays_witness :
  let st' :=
    (PhysicsWorker.deliver (H := engine) (H0 := rounding) written_boxes
       (MAddBody 3 (sphere (1 # 2) 0 5 0))).1 in
  let st1 :=
    (PhysicsWorker.deliver (H := engine) (H0 := rounding) two_boxes
       (MAddBody 3 (sphere (1 # 2) 0 5 0))).1 in
  data (PhysicsWorker.positions written_boxes) = [0; 1; 0; 0; 3; 0]%Q
  ∧ data (PhysicsWorker.positions st') = [0; 1; 0; 0; 3; 0; 0; 0; 0]%Q
  ∧ data (PhysicsWorker.quaternions st')
    = [0; 0; 0; 1; 0; 0; 0; 1; 0; 0; 0; 0]%Q
  ∧ data (PhysicsWorker.positions st') !! 4 = Some 3%Q
  ∧ 3 * 3 ≤ f32_length (PhysicsWorker.positions st')
  ∧ 3 * 4 ≤ f32_length (PhysicsWorker.quaternions st')
  ∧ PhysicsWorker.bodies st1 !! 0 = Some (1%Z, 0).
Proof.
  intros st' st1.
  destruct (WorkerClaims.createBody_grows_arrays (H := engine)
              (H0 := rounding) written_boxes 3 (sphere (1 # 2) 0 5 0) st' [])
    as (H3 & H4 & _ & _ & _ & _ & Hp & Hq & Hkept & _); [reflexivity |].
  destruct (WorkerClaims.createBody_grows_arrays (H := engine)
              (H0 := rounding) two_boxes 3 (sphere (1 # 2) 0 5 0) st1 [])
    as (_ & _ & _ & _ & _ & _ & _ & _ & _ & _ & Hframe); [reflexivity |].
  destruct (Hframe two_boxes_reachable 0 1%Z 0 (1 # 60)) as [Hindex _];
    [reflexivity | discriminate |].
  split_and!.
  - reflexivity.
  - rewrite Hp. reflexivity.
  - rewrite Hq. reflexivity.
  - apply Hkept. reflexivity.
  - exact H3.
  - exact H4.
  - exact Hindex.
Defined.

(** Three objects and a frame of two entries: the third stays at the
    origin. *)
Lemma updateObjects_short_frame_witness :
  let pw :=
    {| PhysicsWorld.objects := [(1%Z, 0); (2%Z, 1); (3%Z, 2)];
       PhysicsWorld.nextBodyId := 4; PhysicsWorld.lastUpdateTime := 0;
       PhysicsWorld.bodyPropsCallbacks := ∅; PhysicsWorld.promises := [] |} in
  let p := mkF32 0 [1; 2; 3; 4; 5; 6]%Q in
  let q := mkF32 1 [0; 0; 0; 1; 0; 0; 0; 1]%Q in
  let scene' :=
    (PhysicsWorld.handleMessage pw [origin; origin; origin] (ESync p q)).2 in
  scene' !! 1 = Some (Spec.rendered (data p) (data q) 1)
  ∧ scene' !! 2 = Some origin.
Proof.
  intros pw p q scene'.
  destruct (CoordinatorFacts.updateObjects_short_frame pw p q
              [origin; origin; origin] 2) as (Hobjects & _ & _).
  - reflexivity.
  - reflexivity.
  - refine (bool_decide_unpack _ _). by vm_compute.
  - split.
    + apply (Hobjects 1 1); [reflexivity | cbn; lia | lia].
    + apply (Hobjects 2 2); [reflexivity | cbn; lia | lia].
Defined.

End Examples.

(** ** More of the model at work *)

Module MoreExamples.
Import Reference MoreReference.

(** A sphere of radius zero is the message that an initialised Worker
    raises on. *)
Lemma initialised_worker_returns_witness :
  ∃ e, handle two_boxes (MAddBody 3 (sphere 0 0 5 0)) = Throw e.
Proof.
  destruct (WorkerMore.initialised_worker_returns (H := engine)
              (H0 := rounding) two_boxes (MAddBody 3 (sphere 0 0 5 0)))
    as [[_ Hthrow] _].
  - apply Examples.two_boxes_reachable.
  - by eexists.
  - apply Hthrow. exists 3%Z, (sphere 0 0 5 0). split; reflexivity.
Defined.

(** A velocity for the first box leaves the second box as it is. *)
Lemma command_changes_only_its_body_witness :
  ∃ st',
    handle two_boxes (MSetVelocity 1 (mkVec3 1 0 0)) = Ok (st', [])
    ∧ PhysicsWorker.bodies st' = PhysicsWorker.bodies two_boxes
    ∧ PhysicsWorker.body_of st' 2 = PhysicsWorker.body_of two_boxes 2.
Proof.
  destruct (WorkerMore.command_changes_only_its_body (H := engine)
              (H0 := rounding) two_boxes (MSetVelocity 1 (mkVec3 1 0 0)) 1)
    as (st' & Hset & _ & Hbodies & _ & _ & _ & Hothers & _).
  - apply Examples.two_boxes_reachable.
  - reflexivity.
  - exists st'. split_and!; [exact Hset | exact Hbodies |].
    apply Hothers. discriminate.
Defined.

(** The second box is given a velocity and queried. *)
Lemma setVelocity_then_getBodyProps_witness :
  ∃ st1 props,
    handle two_boxes (MSetVelocity 2 (mkVec3 1 2 3)) = Ok (st1, [])
    ∧ handle st1 (MGetBodyProps 2 "a") = Ok (st1, [EBodyProps props])
    ∧ p_velocity props = mkVec3 1 2 3
    ∧ p_position props = mkVec3 0 3 0.
Proof.
  destruct (WorkerMore.setVelocity_then_getBodyProps (H := engine)
              (H0 := rounding) two_boxes 2 (mkVec3 1 2 3) "a" 1
              (PhysicsWorker.new_Body (box 0 3 0)
                 (Spec.shape_of (box 0 3 0))))
    as (st1 & props & Hset & Hget & Hv & Hp & _).
  - apply Examples.two_boxes_reachable.
  - reflexivity.
  - reflexivity.
  - exists st1, props. split_and!; assumption.
Defined.

(** The first box is removed: the second is the only one left. *)
Lemma removeBody_live_witness :
  ∃ st',
    handle two_boxes (MRemoveBody 1) = Ok (st', [])
    ∧ JSMap.keys (PhysicsWorker.bodies st') = [2%Z]
    ∧ handle st' (MGetBodyProps 1 "a") = Ok (st', []).
Proof.
  destruct (WorkerMore.removeBody_live (H := engine) (H0 := rounding)
              two_boxes 1 0)
    as (st' & w & w' & Hremove & Hkeys & _ & _ & _ & _ & _ & _ & _ & _ & _
        & _ & Hquery).
  - apply Examples.two_boxes_reachable.
  - reflexivity.
  - exists st'. split_and!; [exact Hremove | exact Hkeys | apply Hquery].
Defined.

(** The arrays may hold anything. *)
Lemma written_boxes_sound : Props.sound written_boxes.
Proof.
  destruct (WorkerMore.reachable_sound (H := engine) (H0 := rounding)
              two_boxes Examples.two_boxes_reachable) as [Hv Hw _ Hb].
  split; [exact Hv | exact Hw | | exact Hb].
  exists 2. split; reflexivity.
Qed.

(** A third body is created and removed: the arrays hold what a frame had
    written, and then zeros. *)
Lemma createBody_then_removeBody_witness :
  let st'' :=
    (PhysicsWorker.run (H := engine) (H0 := rounding) written_boxes
       [MAddBody 3 (box 0 5 0); MRemoveBody 3]).1 in
  PhysicsWorker.bodies st'' = PhysicsWorker.bodies written_boxes
  ∧ length (PhysicsWorker.store st'') = 3
  ∧ data (PhysicsWorker.positions st'') = [0; 1; 0; 0; 3; 0; 0; 0; 0]%Q
  ∧ data (PhysicsWorker.quaternions st'')
    = [0; 0; 0; 1; 0; 0; 0; 1; 0; 0; 0; 0]%Q
  ∧ 9 ≤ f32_length (PhysicsWorker.positions st'')
  ∧ 12 ≤ f32_length (PhysicsWorker.quaternions st'').
Proof.
  intros st''.
  destruct (WorkerMore.createBody_then_removeBody (H := engine)
              (H0 := rounding) written_boxes 3 (box 0 5 0))
    as (_ & Hbodies & _ & Hstore & Hp & Hq & _ & _ & Hroom3 & Hroom4 & _).
  - apply written_boxes_sound.
  - by eexists.
  - reflexivity.
  - reflexivity.
  - split_and!; [exact Hbodies | exact Hstore | | | exact Hroom3
                 | exact Hroom4].
    + fold st'' in Hp. rewrite Hp. reflexivity.
    + fold st'' in Hq. rewrite Hq. reflexivity.
Defined.

(** The id of the first box is used again: the first box stays in the world
    through an update. *)
Lemma createBody_existing_id_witness :
  ∃ st',
    handle two_boxes (MAddBody 1 (sphere (1 # 2) 0 5 0)) = Ok (st', [])
    ∧ JSMap.get (PhysicsWorker.bodies st') 1%Z = Some 2
    ∧ Props.orphan
        (PhysicsWorker.run (H := engine) (H0 := rounding) st'
           [MUpdate (1 # 60)]).1 0.
Proof.
  destruct (WorkerMore.createBody_existing_id (H := engine) (H0 := rounding)
              two_boxes 1 (sphere (1 # 2) 0 5 0) 0
              (default (mkWorld Vec3_zero 0 false [] 0)
                 (PhysicsWorker.world two_boxes)))
    as (st' & Hcreate & _ & Hget & _ & _ & _ & Horphan).
  - apply Examples.two_boxes_reachable.
  - reflexivity.
  - reflexivity.
  - refine (bool_decide_unpack _ _). by vm_compute.
  - reflexivity.
  - exists st'. split_and!; [exact Hcreate | exact Hget |].
    apply Horphan. reflexivity.
Defined.

(** Two updates and a query give two frames. *)
Lemma one_sync_per_update_witness :
  length
    (filter (λ e, Props.is_sync e)
       (PhysicsWorker.run (H := engine) (H0 := rounding) two_boxes
          [MUpdate (1 # 60); MGetBodyProps 1 "a"; MUpdate (1 # 60)]).2)
  = 2.
Proof.
  destruct (WorkerMore.one_sync_per_update (H := engine) (H0 := rounding)
              [MUpdate (1 # 60); MGetBodyProps 1 "a"; MUpdate (1 # 60)]
              two_boxes) as (Hsync & _).
  - by eexists.
  - exact Hsync.
Defined.

(** A response to the only query outstanding. *)
Lemma response_resolves_once_witness :
  let pw := (PhysicsWorld.getBodyProperties PhysicsWorld.new.1 1 "a").1.1 in
  let props :=
    Props.properties_of
      (PhysicsWorker.new_Body (box 0 1 0) (Spec.shape_of (box 0 1 0))) "a" in
  let pw1 := (PhysicsWorld.handleMessage pw [origin] (EBodyProps props)).1 in
  PhysicsWorld.promises pw1 !! 0 = Some (Some props)
  ∧ PhysicsWorld.handleMessage pw1 [origin] (EBodyProps props)
    = (pw1, [origin]).
Proof.
  intros pw props pw1.
  destruct (CoordinatorMore.response_resolves_once pw [origin] props 0)
    as (Hresolved & _ & _ & _ & _ & Hagain & _).
  - reflexivity.
  - cbn. lia.
  - split; [exact Hresolved | exact Hagain].
Defined.

(** An object is added, the Worker's frame for an update is received. *)
Lemma renderables_stay_defined_witness :
  let scene := [origin] in
  let calls :=
    [Protocol.Invoke (Protocol.AddObject 0 (box 0 1 0));
     Protocol.Invoke (Protocol.Update 1000)] in
  let actions := calls ++ map Protocol.Receive (worker_of scene calls).2 in
  length (Protocol.received actions) = 1
  ∧ Forall Spec.defined (Spec.session scene actions).1.2.
Proof.
  intros scene calls actions. split; [reflexivity |].
  apply (ProtocolMore.renderables_stay_defined (H := engine)
           (H0 := rounding) scene actions).
  - apply Forall_singleton. split_and!; by eexists.
  - intros e He. exists (Spec.session scene calls).2.
    vm_compute in He. vm_compute. exact He.
Defined.

(** Two objects are added and the first is removed: the frame of the next
    update has one entry, which the handler gives to the second object. *)
Lemma sync_after_removals_witness :
  let scene := [origin; origin] in
  let actions :=
    [Protocol.Invoke (Protocol.AddObject 0 (box 0 1 0));
     Protocol.Invoke (Protocol.AddObject 1 (sphere (1 # 2) 0 3 0));
     Protocol.Invoke (Protocol.RemoveObject 1)] in
  let all := actions ++ [Protocol.Invoke (Protocol.Update 1016)] in
  JSMap.keys (PhysicsWorker.bodies (worker_of scene all).1) = [2%Z]
  ∧ ∃ p q r body,
      last (worker_of scene all).2 = Some (ESync p q)
      ∧ PhysicsWorker.body_of (worker_of scene all).1 2 = Some (r, body)
      ∧ (PhysicsWorld.handleMessage (Spec.session scene all).1.1
           (Spec.session scene all).1.2 (ESync p q)).2 !! 1
        = Some (Spec.shows (H := rounding) body).
Proof.
  intros scene actions all. split; [reflexivity |].
  destruct (ProtocolMore.sync_after_removals (H := engine) (H0 := rounding)
              scene actions 1016)
    as (_ & p & q & Hlast & Hentries).
  - reflexivity.
  - destruct (Hentries 0 2%Z 1) as (r & body & _ & Hbody & _ & _ & Hshow);
      [reflexivity |].
    exists p, q, r, body. split_and!; [exact Hlast | exact Hbody |].
    apply Hshow.
    + refine (bool_decide_unpack _ _). by vm_compute.
    + cbn. lia.
Defined.

(** Three objects; the first is removed between [update] and the receipt of
    its frame: the second object is given the transform of the first body,
    and the first object stays where it was. *)
Lemma removal_before_receipt_shifts_frame_witness :
  let scene := [origin; origin; origin] in
  let actions :=
    [Protocol.Invoke (Protocol.AddObject 0 (box 0 1 0));
     Protocol.Invoke (Protocol.AddObject 1 (sphere (1 # 2) 0 3 0));
     Protocol.Invoke (Protocol.AddObject 2 (box 0 5 0))] in
  let sent := actions ++ [Protocol.Invoke (Protocol.Update 1016)] in
  ∃ p q r body,
    last (worker_of scene sent).2 = Some (ESync p q)
    ∧ PhysicsWorker.body_of (worker_of scene sent).1 1 = Some (r, body)
    ∧ (Spec.session scene
         (sent ++ [Protocol.Invoke (Protocol.RemoveObject 1);
                   Protocol.Receive (ESync p q)])).1.2 !! 1
      = Some (Spec.shows (H := rounding) body)
    ∧ (Spec.session scene
         (sent ++ [Protocol.Invoke (Protocol.RemoveObject 1);
                   Protocol.Receive (ESync p q)])).1.2 !! 0
      = Some origin.
Proof.
  intros scene actions sent.
  destruct (ProtocolMore.removal_before_receipt_shifts_frame (H := engine)
              (H0 := rounding) scene actions 1016 0 1 0)
    as (p & q & Hlast & _ & _ & Hkept & Hshift).
  - reflexivity.
  - reflexivity.
  - refine (bool_decide_unpack _ _). by vm_compute.
  - intros o' Ho'. vm_compute in Ho'.
    repeat (apply elem_of_cons in Ho' as [->|Ho']; [cbn; lia |]).
    by apply elem_of_nil in Ho'.
  - destruct (Hshift 1 2%Z 1) as [_ Hafter]; [reflexivity |].
    destruct Hafter as (id0 & o0 & r & body & Hprev & Hbody & Hgiven);
      [lia |].
    assert (id0 = 1%Z) as -> by (vm_compute in Hprev; congruence).
    exists p, q, r, body.
    split_and!; [exact Hlast | exact Hbody | exact Hgiven |].
    etransitivity; [exact Hkept | reflexivity].
Defined.

(** A sphere of radius zero is registered by the Coordinator and refused by
    the Worker. *)
Lemma addObject_does_not_validate_witness :
  let pw' :=
    (PhysicsWorld.addObject PhysicsWorld.new.1 0 (sphere 0 0 1 0)).1.1 in
  PhysicsWorker.deliver (H := engine) (H0 := rounding) fresh_worker
    (MAddBody 1 (sphere 0 0 1 0)) = (fresh_worker, [])
  ∧ JSMap.keys (PhysicsWorld.objects pw') = [1%Z]
  ∧ JSMap.keys (PhysicsWorker.bodies fresh_worker) = [].
Proof.
  intros pw'.
  destruct (ProtocolMore.addObject_does_not_validate (H := engine)
              (H0 := rounding) PhysicsWorld.new.1 fresh_worker 0
              (sphere 0 0 1 0))
    as (_ & _ & Hdeliver & _ & Hkeys & _).
  - apply (ProtocolMore.synced_new (H := engine) (H0 := rounding)).
  - reflexivity.
  - split_and!; [exact Hdeliver | exact Hkeys | reflexivity].
Defined.

(** A box is added and queried; an update follows and a frame is
    received. *)
Lemma query_for_live_body_resolves_witness :
  let scene := [origin] in
  let frame := ESync (mkF32 0 [0; 1; 0]%Q) (mkF32 1 [0; 0; 0; 1]%Q) in
  let actions :=
    [Protocol.Invoke (Protocol.AddObject 0 (box 0 1 0));
     Protocol.Invoke (Protocol.GetBodyProperties 1 "q1");
     Protocol.Invoke (Protocol.Update 1000);
     Protocol.Receive frame] in
  let ps := (Spec.session scene actions).1 in
  let body :=
    PhysicsWorker.new_Body (box 0 1 0) (Spec.shape_of (box 0 1 0)) in
  let response := EBodyProps (Props.properties_of body "q1") in
  PhysicsWorld.promises ps.1 !! 0 = Some None
  ∧ PhysicsWorld.promises (PhysicsWorld.handleMessage ps.1 ps.2 response).1
      !! 0
    = Some (Some (Props.properties_of body "q1")).
Proof.
  intros scene frame actions ps body response.
  destruct (ProtocolMore.query_for_live_body_resolves (H := engine)
              (H0 := rounding) scene
              [Protocol.Invoke (Protocol.AddObject 0 (box 0 1 0))] 1 "q1"
              [Protocol.Invoke (Protocol.Update 1000);
               Protocol.Receive frame] 0 body)
    as (_ & Hpending & Hresolved & _).
  - reflexivity.
  - intros e He. cbn in He. apply list_elem_of_singleton in He as ->.
    reflexivity.
  - reflexivity.
  - reflexivity.
  - split; [exact Hpending | exact Hresolved].
Defined.

(** [addBox] with its default arguments on a new Coordinator. *)
Lemma helper_mesh_at_body_witness :
  let st :=
    {| PhysicsHelpers.physics := PhysicsWorld.new.1;
       PhysicsHelpers.heap := []; PhysicsHelpers.scene := [] |} in
  let h := PhysicsHelpers.Box None None None in
  ∃ options wk' body,
    (PhysicsHelpers.call st h).1.2 = [MAddBody 1 options]
    ∧ PhysicsWorker.deliver (H := engine) (H0 := rounding) fresh_worker
        (MAddBody 1 options) = (wk', [])
    ∧ PhysicsWorker.body_of wk' 1 = Some (0, body)
    ∧ PhysicsHelpers.heap (PhysicsHelpers.call st h).1.1
      = [PhysicsHelpers.at_body body]
    ∧ PhysicsHelpers.scene (PhysicsHelpers.call st h).1.1 = [0].
Proof.
  intros st h.
  destruct (HelpersFacts.helper_mesh_at_body (H := engine) (H0 := rounding)
              st h fresh_worker)
    as (options & Hposted & Hcreated).
  - apply (ProtocolMore.synced_new (H := engine) (H0 := rounding)).
  - destruct Hcreated as (wk' & body & Hdeliver & Hbody & _ & Hheap & Hscene
                          & _).
    { injection Hposted as <-. reflexivity. }
    exists options, wk', body.
    split_and!; [exact Hposted | exact Hdeliver | exact Hbody | exact Hheap
                 | exact Hscene].
Defined.

(** The scene is initialised when the first entity is added. *)
Lemma addEntity_is_deferred_witness :
  let st := Scene.initialize Scene.new.1 in
  let st1 := Scene.addEntity two_entities st 0 in
  Scene.getEntity st1 "a" = None
  ∧ Scene.removeEntity two_entities st1 (Scene.AnEntity 0) = (st1, [], false)
  ∧ Scene.getEntity (Scene.flush two_entities st1) "a" = Some 0.
Proof.
  intros st st1.
  pose proof (SceneFacts.addEntity_is_deferred two_entities st 0 eq_refl)
    as Hdeferred.
  cbv zeta in Hdeferred.
  change (Scene.isInitialized st) with true in Hdeferred.
  cbv iota in Hdeferred.
  destruct Hdeferred as (Hnone & _ & Hremove & Hflush & _).
  split_and!; [exact Hnone | exact Hremove | exact Hflush].
Defined.

(** The components destroy the first entity, which has a body: the update
    posts the removal of the body and the second entity is left. *)
Lemma update_sweeps_destroyed_witness :
  ∃ heap3 st4 dt,
    Scene.update destroy_first two_entities staged (1 # 60) 1000
    = Ok (heap3, st4, [MUpdate dt; MRemoveBody 1])
    ∧ Scene.entities st4 = [("b", 1)]
    ∧ JSMap.get (PhysicsWorld.objects (Scene.physics st4)) 1%Z = None.
Proof.
  destruct (SceneFacts.update_sweeps_destroyed destroy_first two_entities
              staged (1 # 60) 1000
              (λ r, match r with
                    | 0 => Entity.destroy (two_entities r)
                    | _ => two_entities r
                    end)
              (Scene.physics_update (Scene.flush two_entities staged) 1000).1
              [])
    as (st4 & Hupdate & Hentities & _ & Hforgotten & _).
  - reflexivity.
  - refine (bool_decide_unpack _ _). by vm_compute.
  - eexists _, st4, _. split_and!.
    + exact Hupdate.
    + exact Hentities.
    + apply (Hforgotten ("a", 0)); [| reflexivity | reflexivity].
      apply list_elem_of_here.
Defined.

(** Two updates hand over four buffers. *)
Lemma buffers_transferred_once_witness :
  let events :=
    (PhysicsWorker.run (H := engine) (H0 := rounding) PhysicsWorker.new
       [MInit (mkVec3 0 (- (982 # 100)) 0) None; MAddBody 1 (box 0 1 0);
        MUpdate (1 # 60); MUpdate (1 # 60)]).2 in
  length (Props.transferred events) = 4 ∧ NoDup (Props.transferred events).
Proof.
  intros events. split; [reflexivity |].
  destruct (WorkerMore.buffers_transferred_once (H := engine)
              (H0 := rounding)
              [MInit (mkVec3 0 (- (982 # 100)) 0) None;
               MAddBody 1 (box 0 1 0); MUpdate (1 # 60); MUpdate (1 # 60)])
    as [Hdistinct _].
  exact Hdistinct.
Defined.

(** Two objects are added and one is removed. *)
Lemma ids_allocated_in_sequence_witness :
  Props.add_ids
    (Spec.session [origin; origin]
       [Protocol.Invoke (Protocol.AddObject 0 (box 0 1 0));
        Protocol.Invoke (Protocol.RemoveObject 1);
        Protocol.Invoke (Protocol.AddObject 1 (box 0 3 0))]).2
  = [1%Z; 2%Z].
Proof.
  destruct (CoordinatorMore.ids_allocated_in_sequence [origin; origin]
              [Protocol.Invoke (Protocol.AddObject 0 (box 0 1 0));
               Protocol.Invoke (Protocol.RemoveObject 1);
               Protocol.Invoke (Protocol.AddObject 1 (box 0 3 0))])
    as (Hids & _).
  exact Hids.
Defined.

(** [addSphere] with a radius that is [NaN], and with radius minus one. *)
Lemma helper_refused_iff_radius_not_positive_witness :
  let st :=
    {| PhysicsHelpers.physics := PhysicsWorld.new.1;
       PhysicsHelpers.heap := []; PhysicsHelpers.scene := [] |} in
  (∃ options msg,
     (PhysicsHelpers.addSphere st (Some NaN) None None).1.2
     = [MAddBody 1 options]
     ∧ handle fresh_worker (MAddBody 1 options) = Throw (ConfigError msg))
  ∧ ∃ options e,
      (PhysicsHelpers.addSphere st (Some (Num (- (1)))) None None).1.2
      = [MAddBody 1 options]
      ∧ handle fresh_worker (MAddBody 1 options) = Throw e.
Proof.
  intros st. split.
  - destruct (HelpersFacts.helper_refused_iff_radius_not_positive
                (H := engine) (H0 := rounding)
                (Hshapes := Examples.engine_shapes) st
                (PhysicsHelpers.Sphere (Some NaN) None None) fresh_worker)
      as (options & Hposted & _ & Hrejected & _).
    destruct (proj2 Hrejected) as [msg Hthrow].
    + exists NaN, None, None. split; [reflexivity | by left].
    + exists options, msg. split; [exact Hposted | exact Hthrow].
  - destruct (HelpersFacts.helper_refused_iff_radius_not_positive
                (H := engine) (H0 := rounding)
                (Hshapes := Examples.engine_shapes) st
                (PhysicsHelpers.Sphere (Some (Num (- (1)))) None None)
                fresh_worker)
      as (options & Hposted & _ & _ & Hrefused).
    destruct (proj2 (Hrefused ltac:(by eexists))) as [e Hthrow].
    + exists (Num (- (1))), None, None. split; reflexivity.
    + exists options, e. split; [exact Hposted | exact Hthrow].
Defined.

(** The first entity of the staged scene is removed, twice. *)
Lemma removeEntity_once_witness :
  let res := Scene.removeEntity two_entities staged (Scene.AnId "a") in
  res.2 = true
  ∧ res.1.2 = [MRemoveBody 1]
  ∧ Scene.removeEntity two_entities res.1.1 (Scene.AnId "a")
    = (res.1.1, [], false).
Proof.
  intros res.
  pose proof (SceneFacts.removeEntity_once two_entities staged
                (Scene.AnId "a")) as Hremove.
  cbv zeta in Hremove.
  change (Scene.getEntity staged (Scene.id_of two_entities (Scene.AnId "a")))
    with (Some 0) in Hremove.
  cbv iota beta in Hremove.
  destruct Hremove as (Htrue & Hposted & _ & _ & _ & _ & _ & _ & _ & Hagain).
  split_and!; [exact Htrue | exact Hposted | exact Hagain].
Defined.

(** The first entity of the staged scene is removed and the Worker handles
    the removal of its body. *)
Lemma removeEntity_reaches_worker_witness :
  let wk :=
    (worker_of [origin]
       [Protocol.Invoke (Protocol.AddObject 0 (box 0 1 0))]).1 in
  let res := Scene.removeEntity two_entities staged (Scene.AnId "a") in
  JSMap.get (PhysicsWorker.bodies wk) 1%Z = Some 0
  ∧ JSMap.get
      (PhysicsWorker.bodies
         (PhysicsWorker.run (H := engine) (H0 := rounding) wk res.1.2).1) 1%Z
    = None.
Proof.
  intros wk res. split; [reflexivity |].
  destruct (SceneFacts.removeEntity_reaches_worker (H := engine)
              (H0 := rounding) two_entities staged (Scene.AnId "a") wk 0 1)
    as (_ & _ & Hgone & _).
  - exact (ProtocolMore.synced_session (H := engine) (H0 := rounding)
             [origin] [Protocol.Invoke (Protocol.AddObject 0 (box 0 1 0))]
             eq_refl).
  - reflexivity.
  - reflexivity.
  - exact Hgone.
Defined.

(** A key goes down and is held: the first event is a press, the repeats
    in the next frame are none. *)
Lemma pressed_iff_went_down_witness :
  let held :=
    InputManager.frame InputManager.new [InputManager.KeyDown "KeyA"] in
  InputManager.wasKeyPressed held "KeyA" = true
  ∧ InputManager.wasKeyPressed
      (InputManager.frame held
         [InputManager.KeyDown "KeyA"; InputManager.KeyDown "KeyA"]) "KeyA"
    = false.
Proof.
  intros held. split.
  - destruct (InputFacts.pressed_iff_went_down InputManager.new
                [InputManager.KeyDown "KeyA"] "KeyA") as ([_ Hpressed] & _).
    apply Hpressed. exists [], []. split; reflexivity.
  - destruct (InputFacts.pressed_iff_went_down held
                [InputManager.KeyDown "KeyA"; InputManager.KeyDown "KeyA"]
                "KeyA") as (_ & _ & Hheld).
    apply Hheld.
    + reflexivity.
    + repeat constructor; discriminate.
Defined.

(** A key-up event for a key that was not down is a release. *)
Lemma released_iff_key_up_witness :
  InputManager.isKeyDown InputManager.new "KeyA" = false
  ∧ InputManager.wasKeyReleased
      (InputManager.frame InputManager.new [InputManager.KeyUp "KeyA"]) "KeyA"
    = true.
Proof.
  split; [reflexivity |].
  destruct (InputFacts.released_iff_key_up InputManager.new
              [InputManager.KeyUp "KeyA"] "KeyA") as ([_ Hreleased] & _).
  apply Hreleased, list_elem_of_here.
Defined.

End MoreExamples.
